(** * A WhatsApp prediction-market bot (play money): ledger, pricing, webhook

    Shallow embedding of [src/main.py].  The program is a FastAPI webhook in
    front of three SQLAlchemy tables ([users], [markets], [bets]); every
    handler invocation opens one session, reads and writes rows, commits, and
    posts at most one message to the WhatsApp Graph API.

    Layout of the development:
    - [PyStr]: the Python [str] methods the handler calls, defined on ASCII
      text and left to the interface [Unicode] beyond it;
    - [Arith]: the arithmetic of the [Float] columns, as an interface with two
      instances: [Binary64] (IEEE-754 doubles, what CPython computes) and
      [Exact] (rationals, no rounding);
    - the data model, the JSON values of a webhook body, the session monad;
    - the functions of the source, one definition per [def];
    - the vocabulary of the statements: ledger steps, reachable worlds, and
      rounding to binary64 in closed form;
    - the theorems: what holds whatever the arithmetic, what holds without
      rounding, a theory of rounding that relates [SpecFloat] to integers,
      and with it what holds on doubles. *)

From Stdlib Require Import ZArith QArith Qminmax Floats String Ascii DecimalString DecimalPos
  Sorted Lia Lqa.
From stdpp Require Import gmap strings list.

Set Warnings "-inexact-float,-register-all".
Local Open Scope string_scope.
Local Open Scope Z_scope.

(** ** Python strings

    A Python [str] is modelled by a Rocq [string] holding its UTF-8 bytes.
    Five of the methods the handler calls ([upper], [lower], [strip],
    [isdigit], [int]) consult the Unicode tables.  On ASCII text they are
    defined here, as CPython computes them; what they do on a string with a
    character outside ASCII is left to the interface [Unicode], and every
    theorem holds whatever the tables say. *)

Module PyStr.

Definition code (c : ascii) : N := N_of_ascii c.

Fixpoint all_chars (p : ascii -> bool) (s : string) : bool :=
  match s with
  | EmptyString => true
  | String c r => p c && all_chars p r
  end.

(** No byte above 127. *)
Definition is_ascii (s : string) : bool := all_chars (fun c => (code c <? 128)%N) s.

(** [str.isspace] on ASCII: TAB, LF, VT, FF, CR, FS, GS, RS, US and space. *)
Definition isspace (c : ascii) : bool :=
  let n := code c in
  ((9 <=? n) && (n <=? 13) || (28 <=? n) && (n <=? 32))%N.

(** The white space [int()] skips around an ASCII literal: TAB, LF, VT, FF,
    CR and space. *)
Definition isspace_c (c : ascii) : bool :=
  let n := code c in
  ((9 <=? n) && (n <=? 13) || (n =? 32))%N.

Definition isdigit_char (c : ascii) : bool :=
  let n := code c in ((48 <=? n) && (n <=? 57))%N.

Definition upper_char (c : ascii) : ascii :=
  let n := code c in
  if ((97 <=? n) && (n <=? 122))%N then ascii_of_N (n - 32) else c.

Definition lower_char (c : ascii) : ascii :=
  let n := code c in
  if ((65 <=? n) && (n <=? 90))%N then ascii_of_N (n + 32) else c.

Fixpoint map_chars (f : ascii -> ascii) (s : string) : string :=
  match s with
  | EmptyString => EmptyString
  | String c r => String (f c) (map_chars f r)
  end.

Fixpoint lstrip (sp : ascii -> bool) (s : string) : string :=
  match s with
  | String c r => if sp c then lstrip sp r else s
  | EmptyString => EmptyString
  end.

Fixpoint rstrip (sp : ascii -> bool) (s : string) : string :=
  match s with
  | EmptyString => EmptyString
  | String c r =>
      match rstrip sp r with
      | EmptyString => if sp c then EmptyString else String c EmptyString
      | r' => String c r'
      end
  end.

(** Digits of a decimal literal, most significant first, with the single
    underscores [int()] allows between two digits.  [acc] is the value read so
    far, [prev] tells whether the previous character was a digit. *)
Fixpoint int_digits (s : string) (acc : Z) (prev : bool) : option Z :=
  match s with
  | EmptyString => if prev then Some acc else None
  | String c r =>
      if isdigit_char c then int_digits r (10 * acc + Z.of_N (code c - 48)) true
      else if Ascii.eqb c "_"%char then (if prev then int_digits r acc false else None)
      else None
  end.

(** Number of digits in a string. *)
Fixpoint count_digits (s : string) : N :=
  match s with
  | EmptyString => 0
  | String c r => ((if isdigit_char c then 1 else 0) + count_digits r)%N
  end.

(** [sys.int_max_str_digits] as CPython sets it by default: a literal with
    more digits is refused by [int()]. *)
Definition int_max_str_digits : N := 4300.

(** The five methods on ASCII text.  [int_literal] reads a literal in
    base 10: surrounding white space, an optional sign, digits.  [int_ascii]
    is [int(s)]: the literal, unless it has more than [int_max_str_digits]
    digits; [None] is the [ValueError]. *)
Definition upper_ascii : string -> string := map_chars upper_char.

Definition lower_ascii : string -> string := map_chars lower_char.

Definition strip_ascii (s : string) : string := rstrip isspace (lstrip isspace s).

Definition isdigit_ascii (s : string) : bool :=
  match s with
  | EmptyString => false
  | _ => all_chars isdigit_char s
  end.

Definition int_literal (s : string) : option Z :=
  match rstrip isspace_c (lstrip isspace_c s) with
  | String "-"%char r => option_map Z.opp (int_digits r 0 false)
  | String "+"%char r => int_digits r 0 false
  | r => int_digits r 0 false
  end.

Definition int_ascii (s : string) : option Z :=
  if (int_max_str_digits <? count_digits s)%N then None else int_literal s.

(** What the Unicode tables decide: the five methods on a string that has
    a character outside ASCII. *)
Class Unicode := {
  upper_uni : string -> string;
  lower_uni : string -> string;
  strip_uni : string -> string;
  isdigit_uni : string -> bool;
  int_uni : string -> option Z
}.

Section Methods.

Context `{Uni : Unicode}.

(** [s.upper()] and [s.lower()]. *)
Definition upper (s : string) : string :=
  if is_ascii s then upper_ascii s else upper_uni s.

Definition lower (s : string) : string :=
  if is_ascii s then lower_ascii s else lower_uni s.

(** [s.strip()]. *)
Definition strip (s : string) : string :=
  if is_ascii s then strip_ascii s else strip_uni s.

(** [s.isdigit()]: at least one character, all of them digits. *)
Definition isdigit (s : string) : bool :=
  if is_ascii s then isdigit_ascii s else isdigit_uni s.

(** [int(s)]; [None] is the [ValueError]. *)
Definition int (s : string) : option Z :=
  if is_ascii s then int_ascii s else int_uni s.

End Methods.

(** [s.split(sep)] for a one-character separator: never the empty list. *)
Fixpoint split (sep : ascii) (s : string) : list string :=
  match s with
  | EmptyString => [EmptyString]
  | String c r =>
      if Ascii.eqb c sep then EmptyString :: split sep r
      else match split sep r with
           | p :: ps => String c p :: ps
           | [] => [String c EmptyString]
           end
  end.

(** [sep.join(parts)]. *)
Fixpoint join (sep : string) (parts : list string) : string :=
  match parts with
  | [] => EmptyString
  | [p] => p
  | p :: ps => p ++ sep ++ join sep ps
  end.

(** [str(n)] for an integer. *)
Definition of_int (n : Z) : string := NilZero.string_of_int (Z.to_int n).

Definition nl : string := String (ascii_of_N 10) EmptyString.

(** One implementation of the interface, to run the model on concrete
    inputs.  Of the text outside ASCII it knows the three superscript digits
    of Latin-1 (U+00B2, U+00B3, U+00B9), which [str.isdigit] accepts and
    [int()] refuses; any other character outside ASCII is taken to have no
    case and to be neither white space nor a digit. *)
Fixpoint isdigit_latin1 (s : string) : bool :=
  match s with
  | EmptyString => true
  | String c r =>
      if isdigit_char c then isdigit_latin1 r
      else if (code c =? 194)%N then
        match r with
        | String d r' =>
            ((code d =? 178) || (code d =? 179) || (code d =? 185))%N && isdigit_latin1 r'
        | EmptyString => false
        end
      else false
  end.

#[export] Instance latin1 : Unicode := {|
  upper_uni := upper_ascii;
  lower_uni := lower_ascii;
  strip_uni := strip_ascii;
  isdigit_uni := fun s => match s with EmptyString => false | _ => isdigit_latin1 s end;
  int_uni := fun _ => None
|}.

End PyStr.

(** ** Arithmetic of the [Float] columns

    The source computes on Python floats.  The functions below are written
    once, over this interface; [Binary64] gives them the meaning they have in
    CPython, [Exact] the meaning they have on decimals without rounding. *)

Class Arith (num : Type) := {
  (** the value of a decimal literal of the source, such as [0.99] *)
  lit : Q -> num;
  (** conversion of a Python [int] operand of a mixed operation; [None] is
      the [OverflowError] of an integer too large for a float *)
  of_int : Z -> option num;
  add : num -> num -> num;
  sub : num -> num -> num;
  mul : num -> num -> num;
  (** [x < y] *)
  ltb : num -> num -> bool;
  (** truth value of a number: [x != 0] *)
  nonzero : num -> bool;
  (** [f"{x:.2f}"] *)
  fmt2 : num -> string
}.

(** Two decimals of the ratio [n / d] ([0 <= n], [0 < d]), rounded half to
    even as [format] does on the exact value, behind an optional minus sign. *)
Definition fmt2_ratio (neg : bool) (n d : Z) : string :=
  let q := (100 * n) / d in
  let r := (100 * n) mod d in
  let h := if 2 * r <? d then q
           else if d <? 2 * r then q + 1
           else if Z.even q then q else q + 1 in
  let frac := h mod 100 in
  (if neg then "-" else "") ++ PyStr.of_int (h / 100) ++ "."
    ++ (if frac <? 10 then "0" else "") ++ PyStr.of_int frac.

Module Binary64.

(** [float(z)]: round to nearest even, [OverflowError] beyond the range. *)
Definition float_of_int (z : Z) : option float :=
  match binary_normalize prec emax z 0 false with
  | S754_infinity _ => None
  | sf => Some (SF2Prim sf)
  end.

(** A decimal literal [n / d] with [n] and [d] below [2^53] is the correctly
    rounded quotient of two exact doubles. *)
Definition float_of_literal (q : Q) : float :=
  PrimFloat.div (SF2Prim (binary_normalize prec emax (Qnum q) 0 false))
                (SF2Prim (binary_normalize prec emax (Zpos (Qden q)) 0 false)).

Definition format2 (x : float) : string :=
  match Prim2SF x with
  | S754_nan => "nan"
  | S754_infinity s => if s then "-inf" else "inf"
  | S754_zero s => fmt2_ratio s 0 1
  | S754_finite s m e =>
      if 0 <=? e then fmt2_ratio s (Zpos m * 2 ^ e) 1
      else fmt2_ratio s (Zpos m) (2 ^ (- e))
  end.

#[export] Instance arith : Arith float := {|
  lit := float_of_literal;
  of_int := float_of_int;
  add := PrimFloat.add;
  sub := PrimFloat.sub;
  mul := PrimFloat.mul;
  ltb := PrimFloat.ltb;
  nonzero := fun x => negb (PrimFloat.eqb x 0%float);
  fmt2 := format2
|}.

End Binary64.

Module Exact.

Definition format2 (x : Q) : string :=
  fmt2_ratio (Qnum x <? 0) (Z.abs (Qnum x)) (Zpos (Qden x)).

Definition lt (x y : Q) : bool := negb (Qle_bool y x).

#[export] Instance arith : Arith Q := {|
  lit := fun q => q;
  of_int := fun z => Some (inject_Z z);
  add := Qplus;
  sub := Qminus;
  mul := Qmult;
  ltb := lt;
  nonzero := fun x => negb (Qeq_bool x 0);
  fmt2 := format2
|}.

End Exact.

Section Model.

Context {num : Type} `{A : Arith num} `{Uni : PyStr.Unicode}.

(** [min(a, b)] and [max(a, b)] of two arguments: the first one, unless the
    second is strictly smaller (larger). *)
Definition py_min (a b : num) : num := if ltb b a then b else a.
Definition py_max (a b : num) : num := if ltb a b then b else a.

(** ** Data model: the three tables *)

Record User := {
  wa_id : string;
  balance : num
}.

Record Market := {
  m_id : Z;
  question : string;
  is_open : bool;
  yes_price : num;
  no_price : num
}.

Record Bet := {
  b_id : Z;
  b_wa_id : string;
  market_id : Z;
  side : string;
  price : num;
  qty : Z;
  ts : Z
}.

(** The rows of a database, each table keyed by its primary key; [bets] in
    insertion order. *)
Record DB := {
  users : gmap string User;
  markets : gmap Z Market;
  bets : list Bet
}.

Definition empty_db : DB := {| users := ∅; markets := ∅; bets := [] |}.

(** ** JSON values, as [json.loads] and [request.json()] build them *)

Inductive json :=
  | JNull
  | JBool (b : bool)
  | JInt (n : Z)
  | JFloat (x : num)
  | JStr (s : string)
  | JList (l : list json)
  | JDict (d : list (string * json)).

(** Truth value of an object in [x or y] and [not x]. *)
Definition truthy (j : json) : bool :=
  match j with
  | JNull => false
  | JBool b => b
  | JInt n => negb (n =? 0)
  | JFloat x => nonzero x
  | JStr s => negb (String.eqb s "")
  | JList l => match l with [] => false | _ => true end
  | JDict d => match d with [] => false | _ => true end
  end.

Definition py_or (x y : json) : json := if truthy x then x else y.

Fixpoint assoc (k : string) (d : list (string * json)) : option json :=
  match d with
  | [] => None
  | (k', v) :: r => if String.eqb k k' then Some v else assoc k r
  end.

(** ** Exceptions and results *)

Inductive exn :=
  | AttributeError
  | IndexError
  | KeyError (k : string)
  | TypeError
  | ValueError
  | OverflowError
  | RuntimeError (msg : string)
  | RequestException
  | JSONDecodeError.

Inductive result (T : Type) :=
  | Ok (x : T)
  | Raise (e : exn).

#[global] Arguments Ok {T} x.
#[global] Arguments Raise {T} e.

(** [x.get(k)]: only a dict has the method. *)
Definition py_get (x : json) (k : string) : result json :=
  match x with
  | JDict d => Ok (default JNull (assoc k d))
  | _ => Raise AttributeError
  end.

(** [x[0]]. *)
Definition py_index0 (x : json) : result json :=
  match x with
  | JList (y :: _) => Ok y
  | JList [] => Raise IndexError
  | JStr (String c _) => Ok (JStr (String c EmptyString))
  | JStr EmptyString => Raise IndexError
  | JDict _ => Raise (KeyError "0")
  | _ => Raise TypeError
  end.

(** [x[k]] for a string key [k]. *)
Definition py_item (x : json) (k : string) : result json :=
  match x with
  | JDict d => match assoc k d with Some v => Ok v | None => Raise (KeyError k) end
  | _ => Raise TypeError
  end.

(** [x == s] for a string literal [s]. *)
Definition py_eq_str (x : json) (s : string) : bool :=
  match x with
  | JStr s' => String.eqb s' s
  | _ => false
  end.

(** A value used where the source calls a [str] method on it. *)
Definition str_method (x : json) : result string :=
  match x with
  | JStr s => Ok s
  | _ => Raise AttributeError
  end.

(** A sender id handed to the persistence layer.  The functions declare
    [wa_id: str] and the key column is a [String]: the model follows the
    senders that are strings, as the Cloud API sends them.  A truthy [from]
    of another type stops the model here; what the driver makes of such a
    key (SQLite stores a number as its text) is not described.  The
    statements that say what is sent or written name a string sender; those
    about every request only bound the effects from above. *)
Definition as_key (x : json) : result string :=
  match x with
  | JStr s => Ok s
  | _ => Raise TypeError
  end.

(** ** The world of one handler invocation *)

(** Observable effects, in the order they happen. *)
Inductive event :=
  | Committed (snapshot : DB)
  | Posted (payload : json).

(** [store] is the durable database, [session] the rows as the open session
    sees them (loaded objects with their pending changes), [log] the effects
    so far. *)
Record World := {
  store : DB;
  session : DB;
  log : list event
}.

Definition M (T : Type) : Type := World -> result T * World.

#[export] Instance M_ret : MRet M := fun _ x w => (Ok x, w).

#[export] Instance M_bind : MBind M := fun _ _ f m w =>
  match m w with
  | (Ok x, w') => f x w'
  | (Raise e, w') => (Raise e, w')
  end.

Definition raise {T} (e : exn) : M T := fun w => (Raise e, w).

Definition lift {T} (r : result T) : M T := fun w => (r, w).

(** [try: m except Exception as e: h e]. *)
Definition try_except {T} (m : M T) (h : exn -> M T) : M T := fun w =>
  match m w with
  | (Ok x, w') => (Ok x, w')
  | (Raise e, w') => h e w'
  end.

Definition get_session : M DB := fun w => (Ok (session w), w).

Definition put_session (db : DB) : M unit := fun w =>
  (Ok tt, {| store := store w; session := db; log := log w |}).

Definition emit (ev : event) : M unit := fun w =>
  (Ok tt, {| store := store w; session := session w; log := log w ++ [ev] |}).

(** [db.commit()]: every pending change of the session becomes durable in
    one transaction. *)
Definition db_commit : M unit := fun w =>
  (Ok tt, {| store := session w; session := session w;
             log := log w ++ [Committed (session w)] |}).

(** [with SessionLocal() as db: body]: the session starts from the durable
    rows; what it has not committed when it closes is discarded, also when
    the body raises. *)
Definition with_session {T} (body : M T) : M T := fun w =>
  let '(r, w') := body {| store := store w; session := store w; log := log w |} in
  (r, {| store := store w'; session := store w'; log := log w' |}).

(** ** Environment: configuration, clock and the Graph API *)

Record Response := {
  status_code : Z;
  text : string;
  (** [r.json()]; [None] when the body is not JSON *)
  body_json : option json
}.

Record Env := {
  WHATSAPP_TOKEN : string;
  PHONE_NUMBER_ID : string;
  (** [requests.post(GRAPH_URL, ...)]: a response, or [None] when the
      request itself fails (time-out, connection error) *)
  http_post : json -> option Response;
  (** [int(time.time())] *)
  now : Z
}.

Context (env : Env).

(** ** WhatsApp send helpers *)

Definition send_whatsapp (payload : json) : M json :=
  if String.eqb (WHATSAPP_TOKEN env) "" || String.eqb (PHONE_NUMBER_ID env) ""
  then raise (RuntimeError "Missing WHATSAPP_TOKEN or PHONE_NUMBER_ID env vars")
  else
    emit (Posted payload);;
    match http_post env payload with
    | None => raise RequestException
    | Some r =>
        if 300 <=? status_code r
        then raise (RuntimeError ("WhatsApp send failed " ++ PyStr.of_int (status_code r)
                                   ++ ": " ++ text r))
        else match body_json r with
             | Some j => mret j
             | None => raise JSONDecodeError
             end
    end.

Definition text_payload (to_wa_id text : string) : json :=
  JDict [("messaging_product", JStr "whatsapp");
         ("to", JStr to_wa_id);
         ("type", JStr "text");
         ("text", JDict [("body", JStr text)])].

Definition send_text (to_wa_id text : string) : M json :=
  send_whatsapp (text_payload to_wa_id text).

Definition reply_button (id title : string) : json :=
  JDict [("type", JStr "reply");
         ("reply", JDict [("id", JStr id); ("title", JStr title)])].

Definition buttons_payload (to_wa_id : string) (market : Market) : json :=
  let body := question market ++ PyStr.nl ++ PyStr.nl
              ++ "YES: " ++ fmt2 (yes_price market)
              ++ " | NO: " ++ fmt2 (no_price market)
              ++ PyStr.nl ++ PyStr.nl ++ "Choose:" in
  JDict [("messaging_product", JStr "whatsapp");
         ("to", JStr to_wa_id);
         ("type", JStr "interactive");
         ("interactive",
          JDict [("type", JStr "button");
                 ("body", JDict [("text", JStr body)]);
                 ("action",
                  JDict [("buttons",
                          JList [reply_button ("BET|" ++ PyStr.of_int (m_id market) ++ "|YES")
                                              ("YES (" ++ fmt2 (yes_price market) ++ ")");
                                 reply_button ("BET|" ++ PyStr.of_int (m_id market) ++ "|NO")
                                              ("NO (" ++ fmt2 (no_price market) ++ ")")])])])].

Definition send_yes_no_buttons (to_wa_id : string) (market : Market) : M json :=
  send_whatsapp (buttons_payload to_wa_id market).

(** ** Market mechanics *)

(** The int operand of [0.001 * qty] and [qty * price]. *)
Definition to_float (n : Z) : result num :=
  match of_int n with
  | Some x => Ok x
  | None => Raise OverflowError
  end.

(** The market [m] after the assignments of the source; [Raise] leaves the
    object as it was. *)
Definition apply_price_impact (m : Market) (side : string) (qty : Z) : result Market :=
  match to_float qty with
  | Raise e => Raise e
  | Ok q =>
      let impact := py_min (lit 0.10) (mul (lit 0.001) q) in
      if String.eqb side "YES" then
        let yes := py_min (lit 0.99) (add (yes_price m) impact) in
        let no := py_max (lit 0.01) (sub (lit 1.0) yes) in
        Ok {| m_id := m_id m; question := question m; is_open := is_open m;
              yes_price := yes; no_price := no |}
      else
        let no := py_min (lit 0.99) (add (no_price m) impact) in
        let yes := py_max (lit 0.01) (sub (lit 1.0) no) in
        Ok {| m_id := m_id m; question := question m; is_open := is_open m;
              yes_price := yes; no_price := no |}
  end.

(** ** Ledger *)

(** The key an auto-increment column gives the next row. *)
Definition next_id (ids : list Z) : Z := 1 + foldr Z.max 0 ids.

Definition seed_markets : list (string * Q * Q) :=
  [("Will India win the next match?", 0.50, 0.50)%Q;
   ("Will it rain in Mumbai tomorrow?", 0.45, 0.55)%Q].

Definition add_market (db : DB) (row : string * Q * Q) : DB :=
  let '(q, y, n) := row in
  let i := next_id (fst <$> map_to_list (markets db)) in
  {| users := users db;
     markets := <[i := {| m_id := i; question := q; is_open := true;
                          yes_price := lit y; no_price := lit n |}]> (markets db);
     bets := bets db |}.

(** The rows of [db.add_all([...])]: the two markets, under the next free
    ids. *)
Definition seeded (db : DB) : DB := foldl add_market db seed_markets.



Fixpoint insert_by_id (m : Market) (l : list Market) : list Market :=
  match l with
  | [] => [m]
  | x :: r => if m_id m <=? m_id x then m :: l else x :: insert_by_id m r
  end.

(** [select(Market).order_by(Market.id.asc())]. *)
Definition market_rows (db : DB) : list Market :=
  foldr insert_by_id [] (snd <$> map_to_list (markets db)).

Definition market_line (m : Market) : string :=
  PyStr.of_int (m_id m) ++ ") " ++ question m
    ++ "  [YES " ++ fmt2 (yes_price m) ++ " / NO " ++ fmt2 (no_price m) ++ "] ("
    ++ (if is_open m then "OPEN" else "CLOSED") ++ ")".

Definition list_markets_text (db : DB) : string :=
  PyStr.join PyStr.nl
    ("Available markets (send the market number):"
       :: (market_line <$> market_rows db)
       ++ [String.append PyStr.nl "Commands: markets | balance | <market_id>"])%list.

(** Writes to the objects of the open session; rows are held under their
    primary key. *)
Definition set_user (k : string) (u : User) : M unit :=
  db ← get_session;
  put_session {| users := <[k := u]> (users db); markets := markets db; bets := bets db |}.

Definition set_market (k : Z) (m : Market) : M unit :=
  db ← get_session;
  put_session {| users := users db; markets := <[k := m]> (markets db); bets := bets db |}.

(** [db.add(b)] for a new bet. *)
Definition add_bet (b : Bet) : M unit :=
  db ← get_session;
  put_session {| users := users db; markets := markets db; bets := bets db ++ [b] |}.

Definition with_balance (u : User) (x : num) : User :=
  {| wa_id := wa_id u; balance := x |}.

Definition new_user (k : string) : User :=
  {| wa_id := k; balance := lit 1000.0 |}.

Definition get_or_create_user (wa_id : string) : M User :=
  db ← get_session;
  match users db !! wa_id with
  | Some u => mret u
  | None =>
      let u := new_user wa_id in
      set_user wa_id u;;
      db_commit;;
      mret u
  end.

(** A key the [INTEGER] column can hold: a signed 64-bit integer. *)
Definition int64 (k : Z) : bool := (- 2 ^ 63 <=? k) && (k <? 2 ^ 63).

(** [db.get(Market, k)]: the row under the key [k], or [None].  Rows are
    held under keys the column can hold; a key outside that range names no
    row and cannot be bound to the query, which raises [OverflowError]
    (Python int too large to convert to SQLite INTEGER). *)
Definition get_market (k : Z) : M (option Market) :=
  db ← get_session;
  match markets db !! k with
  | Some m => mret (Some m)
  | None => if int64 k then mret None else raise OverflowError
  end.

(** [m.yes_price if side == "YES" else m.no_price]. *)
Definition quote (m : Market) (side : string) : num :=
  if String.eqb side "YES" then yes_price m else no_price m.

Definition insufficient_text (cost bal : num) : string :=
  "Insufficient balance. Need " ++ fmt2 cost ++ ", you have " ++ fmt2 bal.

Definition confirmation_text (m : Market) (side : string) (price : num) (qty : Z)
    (bal : num) : string :=
  "✅ Bet placed!" ++ PyStr.nl
    ++ "Market " ++ PyStr.of_int (m_id m) ++ ": " ++ question m ++ PyStr.nl
    ++ "You: BUY " ++ side ++ " @ " ++ fmt2 price ++ " × " ++ PyStr.of_int qty ++ PyStr.nl
    ++ "Balance: " ++ fmt2 bal.

Definition place_bet (wa_id : string) (market_id : Z) (side : string) (qty : Z) : M unit :=
  u ← get_or_create_user wa_id;
  om ← get_market market_id;
  db ← get_session;
  match om with
  | None => send_text wa_id "Market not found. Send 'markets'.";; mret tt
  | Some m =>
      if negb (is_open m) then send_text wa_id "Market is closed.";; mret tt
      else
        let side := PyStr.upper side in
        if negb (String.eqb side "YES" || String.eqb side "NO")
        then send_text wa_id "Invalid side.";; mret tt
        else
          let price := quote m side in
          q ← lift (to_float qty);
          let cost := mul q price in
          if ltb (balance u) cost
          then send_text wa_id (insufficient_text cost (balance u));; mret tt
          else
            let u' := with_balance u (sub (balance u) cost) in
            set_user wa_id u';;
            add_bet {| b_id := next_id (b_id <$> bets db); b_wa_id := wa_id;
                       market_id := m_id m; side := side; price := price;
                       qty := qty; ts := now env |};;
            m' ← lift (apply_price_impact m side qty);
            set_market market_id m';;
            db_commit;;
            send_text wa_id (confirmation_text m' side price qty (balance u'));;
            mret tt
  end.

(** ** The webhook *)

(** The JSON body of the handler's answer: [{"ok": True}], or
    [{"ok": False, "error": str(e)}] for the exception [e] it caught. *)
Inductive response :=
  | AckOk
  | AckFail (e : exn).

(** What [await request.json()] makes of the request body. *)
Inductive request :=
  | Unparsable
  | Body (data : json).

(** [int(s)]. *)
Definition py_int (s : string) : result Z :=
  match PyStr.int s with
  | Some n => Ok n
  | None => Raise ValueError
  end.

(** Branch 1 of the handler, a button tap.  The result tells whether the
    branch returned from the handler. *)
Definition button_tap (wa_id : string) (msg : json) : M bool :=
  ty ← lift (py_get msg "type");
  if py_eq_str ty "interactive" then
    i ← lift (py_get msg "interactive");
    let inter := py_or i (JDict []) in
    ity ← lift (py_get inter "type");
    if py_eq_str ity "button_reply" then
      br ← lift (py_item inter "button_reply");
      bid ← lift (py_item br "id");
      btn_id ← lift (str_method bid);
      match PyStr.split "|" btn_id with
      | [p0; p1; p2] =>
          if String.eqb p0 "BET" then
            market_id ← lift (py_int p1);
            place_bet wa_id market_id p2 10;;
            mret true
          else mret false
      | _ => mret false
      end
    else mret false
  else mret false.

(** The normalized text of the message: trimmed and lowercased, empty for
    anything that is not a text message. *)
Definition message_text (msg : json) : M string :=
  ty ← lift (py_get msg "type");
  if py_eq_str ty "text" then
    t ← lift (py_item msg "text");
    b ← lift (py_item t "body");
    s ← lift (str_method (py_or b (JStr "")));
    mret (PyStr.lower (PyStr.strip s))
  else mret "".

Definition welcome_text : string :=
  "Welcome! Type 'markets' to see questions, or 'balance'.".

Definition help_text : string :=
  "Send: markets | balance | <market_id> (example: 1)".

(** Branch 2 of the handler, the command dispatch on the normalized text. *)
Definition text_command (wa_id text : string) : M unit :=
  if String.eqb text "hi" || String.eqb text "hello" || String.eqb text "start" then
    send_text wa_id welcome_text;; mret tt
  else if String.eqb text "markets" then
    db ← get_session;
    send_text wa_id (list_markets_text db);; mret tt
  else if String.eqb text "balance" then
    db ← get_session;
    match users db !! wa_id with
    | Some u => send_text wa_id ("Your balance: " ++ fmt2 (balance u));; mret tt
    | None => raise AttributeError
    end
  else if PyStr.isdigit text then
    n ← lift (py_int text);
    om ← get_market n;
    match om with
    | None => send_text wa_id "Market not found. Type 'markets'.";; mret tt
    | Some m => send_yes_no_buttons wa_id m;; mret tt
    end
  else
    send_text wa_id help_text;; mret tt.

(** The body of the [try] block. *)
Definition process (data : json) : M response :=
  e ← lift (py_get data "entry");
  entry ← lift (py_index0 (py_or e (JList [])));
  c ← lift (py_get entry "changes");
  changes ← lift (py_index0 (py_or c (JList [])));
  v ← lift (py_get changes "value");
  let value := py_or v (JDict []) in
  ms ← lift (py_get value "messages");
  let messages := py_or ms (JList []) in
  if negb (truthy messages) then mret AckOk
  else
    msg ← lift (py_index0 messages);
    sender ← lift (py_get msg "from");
    if negb (truthy sender) then mret AckOk
    else
      with_session (
        wa_id ← lift (as_key sender);
        get_or_create_user wa_id;;
        tapped ← button_tap wa_id msg;
        if (tapped : bool) then mret AckOk
        else
          text ← message_text msg;
          text_command wa_id text;;
          mret AckOk).

(** [POST /webhook].  [Ok r] is the answer [r] with status 200; [Raise e]
    is an exception that leaves the handler. *)
Definition inbound (req : request) : M response :=
  match req with
  | Unparsable => raise JSONDecodeError
  | Body data => try_except (process data) (fun e => mret (AckFail e))
  end.

(** ** Vocabulary of the statements *)

(** The credentials [send_whatsapp] checks before it posts. *)
Definition configured : bool :=
  negb (String.eqb (WHATSAPP_TOKEN env) "" || String.eqb (PHONE_NUMBER_ID env) "").

(** What a call of [send_whatsapp] adds to the log. *)
Definition attempts (payload : json) : list event :=
  if configured then [Posted payload] else [].

(** A send that goes through returns normally. *)
Definition accepted (payload : json) : Prop :=
  configured = true /\
  exists r j, http_post env payload = Some r /\ status_code r < 300 /\ body_json r = Some j.

(** The session after [db.add(u)] for a new user, which the commit makes
    durable. *)
Definition with_new_user (wa : string) (db : DB) : DB :=
  {| users := <[wa := new_user wa]> (users db); markets := markets db; bets := bets db |}.

(** The session after the three writes of a fill: the debited user, the
    market with its new quotes [m'], and the new bet at the quote of [m]. *)
Definition filled (db : DB) (wa : string) (u : User) (mid : Z) (m m' : Market)
    (sd : string) (qty : Z) (cost : num) : DB :=
  {| users := <[wa := with_balance u (sub (balance u) cost)]> (users db);
     markets := <[mid := m']> (markets db);
     bets := bets db ++ [{| b_id := next_id (b_id <$> bets db); b_wa_id := wa;
                            market_id := m_id m; side := sd; price := quote m sd;
                            qty := qty; ts := now env |}] |}.

(** The four ways [place_bet] turns a bet down, each with the text it
    sends.  An unknown market is one whose id the key column can hold. *)
Inductive rejection (db : DB) (u : User) (mid : Z) (sd : string) (qty : Z) : string -> Prop :=
  | MarketNotFound :
      markets db !! mid = None -> int64 mid = true ->
      rejection db u mid sd qty "Market not found. Send 'markets'."
  | MarketClosed m :
      markets db !! mid = Some m -> is_open m = false ->
      rejection db u mid sd qty "Market is closed."
  | InvalidSide m :
      markets db !! mid = Some m -> is_open m = true ->
      PyStr.upper sd <> "YES" -> PyStr.upper sd <> "NO" ->
      rejection db u mid sd qty "Invalid side."
  | InsufficientBalance m q :
      markets db !! mid = Some m -> is_open m = true ->
      PyStr.upper sd = "YES" \/ PyStr.upper sd = "NO" ->
      to_float qty = Ok q ->
      ltb (balance u) (mul q (quote m (PyStr.upper sd))) = true ->
      rejection db u mid sd qty
        ("Insufficient balance. Need " ++ fmt2 (mul q (quote m (PyStr.upper sd)))
           ++ ", you have " ++ fmt2 (balance u)).

(** The quote of the other side. *)
Definition opposite (m : Market) (side : string) : num :=
  if String.eqb side "YES" then no_price m else yes_price m.

(** One change of the durable ledger: a user is created, or a bet of
    quantity [qty] is filled.  These are the only two. *)
Inductive ledger_step (qty : Z) (db db' : DB) : Prop :=
  | step_user wa :
      users db !! wa = None ->
      db' = with_new_user wa db ->
      ledger_step qty db db'
  | step_fill wa u mid m m' sd q :
      users db !! wa = Some u ->
      markets db !! mid = Some m ->
      is_open m = true ->
      sd = "YES" \/ sd = "NO" ->
      to_float qty = Ok q ->
      ltb (balance u) (mul q (quote m sd)) = false ->
      apply_price_impact m sd qty = Ok m' ->
      db' = filled db wa u mid m m' sd qty (mul q (quote m sd)) ->
      ledger_step qty db db'.

(** A world between two requests: no session is open. *)
Definition at_rest (db : DB) (l : list event) : World :=
  {| store := db; session := db; log := l |}.

(** A webhook body whose path resolves down to [value], as a delivery-status
    callback has it. *)
Definition value_body (value : json) : json :=
  JDict [("entry", JList [JDict [("changes", JList [JDict [("value", value)]])]])].

(** A webhook body that carries the one message [msg]. *)
Definition webhook_body (msg : json) : json :=
  value_body (JDict [("messages", JList [msg])]).

Definition text_message (sender body : string) : json :=
  JDict [("from", JStr sender); ("type", JStr "text");
         ("text", JDict [("body", JStr body)])].

Definition button_message (sender btn_id : string) : json :=
  JDict [("from", JStr sender); ("type", JStr "interactive");
         ("interactive",
          JDict [("type", JStr "button_reply");
                 ("button_reply", JDict [("id", JStr btn_id)])])].

(** The path the handler walks through a body: [v] is what it reads at
    [entry[0].changes[0].value] of [data], whatever else the body holds. *)
Definition resolves (data v : json) : Prop :=
  exists e entry c change,
    py_get data "entry" = Ok e /\ py_index0 (py_or e (JList [])) = Ok entry
    /\ py_get entry "changes" = Ok c /\ py_index0 (py_or c (JList [])) = Ok change
    /\ py_get change "value" = Ok v.

(** [msg] is the first message of the body [data]: what the handler reads
    at [value.messages[0]]. *)
Definition carries (data msg : json) : Prop :=
  exists v ms,
    resolves data v /\ py_get (py_or v (JDict [])) "messages" = Ok ms
    /\ truthy ms = true /\ py_index0 ms = Ok msg.

(** A call that, from the world [w0], ends by sending [payload] and then
    returns [ok].  With the credentials set the payload is posted, once;
    the call returns when the Graph API accepts the post and raises when it
    does not.  Without them nothing is posted and [send_whatsapp] raises
    its [RuntimeError]. *)
Definition ends_by_sending {T} (w0 : World) (out : result T * World) (ok : T)
    (payload : json) : Prop :=
  (configured = true ->
     snd out = {| store := store w0; session := session w0;
                  log := log w0 ++ [Posted payload] |}
     /\ (accepted payload -> fst out = Ok ok)
     /\ (~ accepted payload -> exists e, fst out = Raise e))
  /\ (configured = false ->
       out = (Raise (RuntimeError "Missing WHATSAPP_TOKEN or PHONE_NUMBER_ID env vars"), w0)).

(** The handler answers a message by sending [reply], after the lazy user
    lookup left the world [w1]: nothing more is written; with the
    credentials set the reply is posted, once, and the answer is
    [{"ok": True}] when the Graph API accepts it and [{"ok": False, ...}]
    when it does not; without them nothing is posted and the answer carries
    the [RuntimeError] of [send_whatsapp]. *)
Definition answers_with (w1 : World) (out : result response * World) (reply : json) : Prop :=
  (configured = true ->
     snd out = at_rest (store w1) (log w1 ++ [Posted reply])
     /\ (accepted reply -> fst out = Ok AckOk)
     /\ (~ accepted reply -> exists e, fst out = Ok (AckFail e)))
  /\ (configured = false ->
       out = (Ok (AckFail (RuntimeError "Missing WHATSAPP_TOKEN or PHONE_NUMBER_ID env vars")),
              at_rest (store w1) (log w1))).

End Model.

(** No pending change: the session sees what is durable. *)
Definition synced {num} (w : World (num := num)) : Prop := session w = store w.

(** The database with the two markets of the seeding and nothing else. *)
Definition initial_store {num} `{Arith num} : DB (num := num) := seeded empty_db.

(** What a handler may do to the ledger: from a world without pending
    changes it reaches one without pending changes, through ledger steps of
    quantity 10. *)
Definition advances {num} `{Arith num} (env : Env (num := num)) (w w' : World) : Prop :=
  synced w' /\ rtc (ledger_step env 10) (store w) (store w').

Definition tame {num} `{Arith num} (env : Env (num := num)) {T} (m : M T) : Prop :=
  forall w, synced w -> advances env w (snd (m w)).

Definition moves {num} `{Arith num} (env : Env (num := num)) {T} (m : M T) : Prop :=
  forall w, rtc (ledger_step env 10) (store w) (store (snd (m w))).

(** The worlds a sequence of webhook requests can lead to, whatever the
    environment answers.  They start from the tables as [create_all] leaves
    them, empty, or from the database that holds the two markets. *)
Inductive reachable {num} `{Arith num} `{PyStr.Unicode} : World (num := num) -> Prop :=
  | reach_empty : reachable (at_rest empty_db [])
  | reach_start : reachable (at_rest initial_store [])
  | reach_request (env : Env (num := num)) req w :
      reachable w -> reachable (snd (inbound env req w)).

Definition all_bets_of_ten {num} (db : DB (num := num)) : Prop :=
  Forall (fun b => qty b = 10) (bets db).

Definition balances_nonneg (db : DB (num := Q)) : Prop :=
  map_Forall (fun (_ : string) (u : User (num := Q)) => (0 <= balance u)%Q) (users db).

(** The range the quotes are clamped to, in exact arithmetic. *)
Definition in_range (p : Q) : Prop := (0.01 <= p)%Q /\ (p <= 0.99)%Q.

(** ** Concrete runs

    An environment whose Graph API accepts every post, a world whose tables
    hold the two markets of the seeding and nothing else, and a few markets,
    for the examples below. *)

Definition demo_env {num} : Env (num := num) :=
  {| WHATSAPP_TOKEN := "token";
     PHONE_NUMBER_ID := "15550001111";
     http_post := fun _ => Some {| status_code := 200; text := "{}";
                                   body_json := Some (JDict []) |};
     now := 1700000000 |}.

Definition fresh {num} `{Arith num} : World (num := num) := at_rest initial_store [].

Definition market_at {num} `{Arith num} (open : bool) (yes no : Q) : Market (num := num) :=
  {| m_id := 1; question := "Will India win the next match?"; is_open := open;
     yes_price := lit yes; no_price := lit no |}.

(** Webhook bodies as the Cloud API sends them: the envelope around the
    [value] of the one change, a text message from [sender], and the
    [value] of a delivery-status callback. *)
Definition cloud_body {num} (value : list (string * json (num := num))) : json :=
  JDict [("object", JStr "whatsapp_business_account");
         ("entry",
          JList [JDict [("id", JStr "102290129340398");
                        ("changes",
                         JList [JDict [("value",
                                        JDict (("messaging_product", JStr "whatsapp")
                                                 :: ("metadata",
                                                     JDict [("display_phone_number",
                                                             JStr "15550001111");
                                                            ("phone_number_id",
                                                             JStr "106540352242922")])
                                                 :: value));
                                       ("field", JStr "messages")]])]])].

Definition cloud_text {num} (sender body : string) : list (string * json (num := num)) :=
  [("from", JStr sender); ("id", JStr "wamid.HBgLMTY1MDM4Nzk0MzkVAgASGBQzQTRBNjU5OUFFRTAzODEwMTQ0RgA=");
   ("timestamp", JStr "1700000000"); ("text", JDict [("body", JStr body)]);
   ("type", JStr "text")].

Definition cloud_text_body {num} (sender body : string) : json (num := num) :=
  cloud_body [("contacts", JList [JDict [("profile", JDict [("name", JStr "Asha")]);
                                         ("wa_id", JStr sender)]]);
              ("messages", JList [JDict (cloud_text sender body)])].

Definition cloud_status {num} : list (string * json (num := num)) :=
  [("statuses",
    JList [JDict [("id", JStr "wamid.HBgLMTY1MDM4Nzk0MzkVAgARGBI5QTNDQTVCM0Q0Q0Q2RTY3RTcA");
                  ("status", JStr "delivered"); ("timestamp", JStr "1700000000");
                  ("recipient_id", JStr "16505551234")]])].

(** The text ["0" * 4300 + "1"]: 4301 digits that spell the number 1. *)
Definition padded_one : string := Nat.iter 4300 (String "0"%char) "1".

(** A database with the one market [m] and the users [us]. *)
Definition db_with {num} (m : Market (num := num)) (us : list User) : DB :=
  {| users := list_to_map ((fun u => (wa_id u, u)) <$> us);
     markets := {[ m_id m := m ]};
     bets := [] |}.

(** ** Rounding to binary64

    What [Binary64] computes, described on integers.  SpecFloat rounds a
    mantissa by shifting it right bit by bit with a round bit and a sticky
    bit; [rne] and [RN] below say in closed form what comes out, and [val]
    gives every double an integer value, in units of [2^-2200], on which
    order and rounding are monotone.  The theorems about the program on
    doubles are stated with these. *)

Abbreviation fexp64 := (fexp prec emax).

(** Round to nearest, ties to even, of [M / 2^k]. *)
Definition rne (k M : Z) : Z :=
  let q := M / 2 ^ k in
  let r := M mod 2 ^ k in
  if r =? 0 then q
  else match 2 * r ?= 2 ^ k with
       | Lt => q
       | Eq => if Z.even q then q else q + 1
       | Gt => q + 1
       end.

(** The two passes of [binary_round_aux]: a rounding shift to the canonical
    exponent, then a plain shift in case the rounding carried. *)
Definition round_fexp (M e : Z) : Z * Z :=
  let k := fexp64 (Zdigits2 M + e) - e in
  if 0 <? k then (rne k M, e + k) else (M, e).

Definition trunc_fexp (M e : Z) : Z * Z :=
  let k := fexp64 (Zdigits2 M + e) - e in
  if 0 <? k then (M / 2 ^ k, e + k) else (M, e).

(** The float of sign [s] with mantissa and exponent [me]; infinity when the
    exponent is out of range. *)
Definition pack (s : bool) (me : Z * Z) : spec_float :=
  match fst me with
  | Z0 => S754_zero s
  | Zpos m => if snd me <=? emax - prec then S754_finite s m (snd me) else S754_infinity s
  | Zneg _ => S754_nan
  end.

(** A mantissa that rounded up to [2^53] is [2^52] one exponent higher. *)
Definition normal_form (m E : Z) : Z * Z :=
  if m =? 2 ^ 53 then (2 ^ 52, E + 1) else (m, E).

(** Mantissa of [M * 2^e] at its canonical exponent [E]. *)
Definition mant (M e : Z) : Z :=
  let E := fexp64 (Zdigits2 M + e) in
  if e <=? E then rne (E - e) M else M * 2 ^ (e - E).

(** The double nearest to [M * 2^e], for [0 < M]. *)
Definition RN (M e : Z) : Z * Z := normal_form (mant M e) (fexp64 (Zdigits2 M + e)).

(** The shape of a rounded positive number: no NaN, sign kept. *)
Inductive nonneg_shape : spec_float -> Prop :=
  | shape_zero : nonneg_shape (S754_zero false)
  | shape_finite m e : nonneg_shape (S754_finite false m e)
  | shape_inf : nonneg_shape (S754_infinity false).

(** The value [M * 2^e] in units of [2^-2200]. *)
Definition val (M e : Z) : Z := M * 2 ^ (e + 2200).

(** The value of a mantissa and exponent pair. *)
Definition pval (me : Z * Z) : Z := val (fst me) (snd me).

(** The largest integer that is a double, [sys.float_info.max]. *)
Definition max_int : Z := (2 ^ 53 - 1) * 2 ^ 971.

(** The first integer that [float] refuses, half a unit in the last place
    above [max_int]: it lies half way to [2^1024] and the tie goes to the even
    mantissa, which is out of range.  Every integer below it still rounds
    down to [max_int]. *)
Definition float_overflow : Z := 2 ^ 1024 - 2 ^ 970.

(** A positive finite double. *)
Definition posfin (x : float) : Prop := exists m e, Prim2SF x = S754_finite false m e.

(** Zero of either sign, or a positive finite double. *)
Definition nnfin (x : float) : Prop := (exists s, Prim2SF x = S754_zero s) \/ posfin x.

(** [0.01 <= p <= 0.99] as Python evaluates it on doubles. *)
Definition in_range64 (p : float) : Prop :=
  (lit (Arith := Binary64.arith) 0.01 <=? p)%float = true
  /\ (p <=? lit (Arith := Binary64.arith) 0.99)%float = true.

(** What the ledger keeps on doubles: balances are finite and not negative,
    quotes are in range. *)
Definition sound_ledger (db : DB (num := float)) : Prop :=
  map_Forall (fun (_ : string) (u : User) => nnfin (balance u)) (users db)
  /\ map_Forall (fun (_ : Z) (m : Market) =>
                   in_range64 (yes_price m) /\ in_range64 (no_price m)) (markets db).

(** [balance >= 0] for every user, as Python evaluates it on doubles. *)
Definition balances_nonneg64 (db : DB (num := float)) : Prop :=
  map_Forall (fun (_ : string) (u : User) => (0 <=? balance u)%float = true) (users db).

(** ** The other endpoints *)

(** What a plain-text endpoint answers: the body with status 200, or the
    [HTTPException] it raises, with its status code and detail. *)
Inductive http_answer :=
  | PlainText (body : string)
  | HTTPException (status : Z) (detail : string).

(** [x == s] for an optional query parameter [x]. *)
Definition param_is (x : option string) (s : string) : bool :=
  match x with
  | Some s' => String.eqb s' s
  | None => false
  end.

(** [GET /webhook], Meta's webhook verification.  [qp] is the mapping
    [request.query_params], [VERIFY_TOKEN] the configured token. *)
Definition verify_webhook (VERIFY_TOKEN : string) (qp : gmap string string) : http_answer :=
  let mode := qp !! "hub.mode" in
  let token := qp !! "hub.verify_token" in
  let challenge := qp !! "hub.challenge" in
  match challenge with
  | Some c =>
      if param_is mode "subscribe" && param_is token VERIFY_TOKEN && negb (String.eqb c "")
      then PlainText c
      else HTTPException 403 "Webhook verification failed"
  | None => HTTPException 403 "Webhook verification failed"
  end.

(** [GET /], the health check. *)
Definition root {num} : json (num := num) :=
  JDict [("ok", JBool true); ("service", JStr "whatsapp-prediction-mvp")].

(** ** More vocabulary of the statements *)

(** The ids of the reply buttons of an interactive payload, as WhatsApp sends
    them back in a [button_reply]. *)
Definition reply_id {num} (b : json (num := num)) : option string :=
  match py_item b "reply" with
  | Ok r => match py_item r "id" with Ok (JStr s) => Some s | _ => None end
  | Raise _ => None
  end.

Definition button_ids {num} (payload : json (num := num)) : list string :=
  match py_item payload "interactive" with
  | Ok i =>
      match py_item i "action" with
      | Ok a => match py_item a "buttons" with Ok (JList bs) => omap reply_id bs | _ => [] end
      | Raise _ => []
      end
  | Raise _ => []
  end.

(** Effects of one kind in a log. *)
Definition is_posted {num} (ev : event (num := num)) : bool :=
  match ev with Posted _ => true | Committed _ => false end.

Definition posts {num} (l : list (event (num := num))) : nat :=
  length (List.filter is_posted l).

Definition commits {num} (l : list (event (num := num))) : nat :=
  length (List.filter (fun ev => negb (is_posted ev)) l).

(** A webhook body in full: the entries, the changes of the first entry and
    the messages of its first change. *)
Definition batch_body {num} (msg : json (num := num)) (more_messages more_changes more_entries : list json)
    : json :=
  JDict [("entry",
          JList (JDict [("changes",
                         JList (JDict [("value", JDict [("messages", JList (msg :: more_messages))])]
                                  :: more_changes))]
                   :: more_entries))].

(** The balance a user's bets account for: the starting balance, debited by
    the cost of each bet in the order they were placed, with the operations
    of the program. *)
Definition debit {num} `{Arith num} (b : num) (bet : Bet) : num :=
  match of_int (qty bet) with
  | Some q => sub b (mul q (price bet))
  | None => b
  end.

Definition bets_of {num} (wa : string) (bs : list (Bet (num := num))) : list Bet :=
  List.filter (fun b => String.eqb (b_wa_id b) wa) bs.

Definition statement {num} `{Arith num} (wa : string) (db : DB) : num :=
  foldl debit (lit 1000.0) (bets_of wa (bets db)).

(** Users are held under their id, and every balance is what the bets
    account for. *)
Definition books_balance {num} `{Arith num} (db : DB) : Prop :=
  forall wa u, users db !! wa = Some u -> wa_id u = wa /\ balance u = statement wa db.

(** Every bet names a user and a market of the database, and its side is
    [YES] or [NO]. *)
Definition bets_refer {num} (db : DB (num := num)) : Prop :=
  Forall (fun b => is_Some (users db !! b_wa_id b)
                   /\ is_Some (markets db !! market_id b)
                   /\ (side b = "YES" \/ side b = "NO")) (bets db).

(** Every market is held under its id. *)
Definition keyed {num} (db : DB (num := num)) : Prop :=
  forall k m, markets db !! k = Some m -> m_id m = k.

(** The markets of [db'] are those of [db], up to their quotes: the same
    keys, and under each key the same id, question and state. *)
Definition only_quotes_differ {num} (db db' : DB (num := num)) : Prop :=
  forall k,
    match markets db !! k, markets db' !! k with
    | Some m, Some m' =>
        m_id m' = m_id m /\ question m' = question m /\ is_open m' = is_open m
    | None, None => True
    | _, _ => False
    end.

(** One webhook request, whatever it carries and whatever the environment
    answers. *)
Definition request_step {num} `{Arith num} `{PyStr.Unicode} (w w' : World (num := num)) : Prop :=
  exists env req, w' = snd (inbound env req w).

(** What a computation may add to the log: at most [c] commits and [p]
    posts, whatever the world it starts from. *)
Definition adds_at_most {num} {T} (c p : nat) (m : M (num := num) T) : Prop :=
  forall w, exists l,
    log (snd (m w)) = (log w ++ l)%list /\ (commits l <= c)%nat /\ (posts l <= p)%nat.

(** The two markets of the seeding, as rows. *)
Definition seeded_market {num} `{Arith num} (i : Z) (q : string) (y n : Q) : Market :=
  {| m_id := i; question := q; is_open := true; yes_price := lit y; no_price := lit n |}.

Definition seeded_table {num} `{Arith num} : gmap Z Market :=
  <[2 := seeded_market 2 "Will it rain in Mumbai tomorrow?" 0.45 0.55]>
    (<[1 := seeded_market 1 "Will India win the next match?" 0.50 0.50]> ∅).

(** The three tables agree with each other. *)
Definition ledger_consistent {num} `{Arith num} (db : DB) : Prop :=
  keyed db /\ bets_refer db /\ books_balance db.

(** On doubles: both quotes of every market are in range and add up
    to 1.0. *)
Definition quotes_in_order (db : DB (num := float)) : Prop :=
  map_Forall (fun (_ : Z) (m : Market) =>
                in_range64 (yes_price m) /\ in_range64 (no_price m)
                /\ PrimFloat.add (yes_price m) (no_price m) = 1%float) (markets db).

(** [balance <= 1000.0] for every user, on doubles. *)
Definition balances_capped (db : DB (num := float)) : Prop :=
  map_Forall (fun (_ : string) (u : User) =>
                (balance u <=? lit (Arith := Binary64.arith) 1000.0)%float = true) (users db).

(** Every bet was filled at a price in range. *)
Definition bet_prices_in_range (db : DB (num := float)) : Prop :=
  Forall (fun b : Bet => in_range64 (price b)) (bets db).

(** What the ledger keeps on doubles, in full. *)
Definition ledger_in_order (db : DB (num := float)) : Prop :=
  sound_ledger db /\ quotes_in_order db /\ balances_capped db /\ bet_prices_in_range db.

(** The order of [order_by(Market.id.asc())]. *)
Definition by_id {num} (a b : Market (num := num)) : Prop := m_id a <= m_id b.

(** An environment without a WhatsApp token: every send raises before any
    request is made. *)
Definition silent_env {num} : Env (num := num) :=
  {| WHATSAPP_TOKEN := "";
     PHONE_NUMBER_ID := "15550001111";
     http_post := fun _ => None;
     now := 1700000000 |}.

(** * Theorems *)

(** ** Strings of digits *)

Lemma all_chars_impl (p q : ascii -> bool) s :
  (forall c, p c = true -> q c = true) ->
  PyStr.all_chars p s = true -> PyStr.all_chars q s = true.
Proof.
  intros Hpq. induction s as [|c r IH]; [done|]. cbn [PyStr.all_chars]. intros H.
  apply andb_true_iff in H as [Hc Hr]. by rewrite (Hpq c Hc), (IH Hr).
Qed.

Lemma digit_not_space c : PyStr.isdigit_char c = true -> PyStr.isspace_c c = false.
Proof.
  unfold PyStr.isdigit_char, PyStr.isspace_c. intros H.
  apply andb_true_iff in H as [H1 H2].
  apply N.leb_le in H1, H2.
  apply orb_false_iff. split; [apply andb_false_iff; right; apply N.leb_gt | apply N.eqb_neq]; lia.
Qed.

Lemma digit_below_128 c : PyStr.isdigit_char c = true -> (PyStr.code c <? 128)%N = true.
Proof.
  unfold PyStr.isdigit_char. intros H. apply andb_true_iff in H as [_ H].
  apply N.leb_le in H. apply N.ltb_lt. lia.
Qed.

Lemma rstrip_digits s :
  PyStr.all_chars PyStr.isdigit_char s = true -> PyStr.rstrip PyStr.isspace_c s = s.
Proof.
  induction s as [|c r IH]; [done|]. cbn. intros H.
  apply andb_true_iff in H as [Hc Hr]. rewrite (IH Hr).
  destruct r; [|done]. by rewrite (digit_not_space c Hc).
Qed.

Lemma uint_digits d : PyStr.all_chars PyStr.isdigit_char (NilEmpty.string_of_uint d) = true.
Proof. induction d; cbn [NilEmpty.string_of_uint PyStr.all_chars]; [done|..]; by rewrite IHd. Qed.

Lemma int_digits_acc d (acc : positive) :
  PyStr.int_digits (NilEmpty.string_of_uint d) (Zpos acc) true
  = Some (Zpos (Pos.of_uint_acc d acc)).
Proof.
  revert acc. induction d; intros acc;
    cbn [NilEmpty.string_of_uint PyStr.int_digits Pos.of_uint_acc]; [done|..];
    change (PyStr.isdigit_char _) with true; cbv iota;
    rewrite <- IHd; f_equal; cbn; lia.
Qed.

Lemma int_digits_uint d :
  PyStr.int_digits (NilEmpty.string_of_uint d) 0 true = Some (Z.of_N (Pos.of_uint d)).
Proof.
  induction d; cbn [NilEmpty.string_of_uint PyStr.int_digits Pos.of_uint]; [done|..];
    change (PyStr.isdigit_char _) with true; cbv iota;
    first [ exact IHd | cbn [N.of_nat Z.of_N]; rewrite <- int_digits_acc; f_equal ].
Qed.

(** The first digit makes the flag of the previous character irrelevant. *)
Lemma int_digits_first c r acc prev :
  PyStr.isdigit_char c = true ->
  PyStr.int_digits (String c r) acc prev = PyStr.int_digits (String c r) acc true.
Proof. intros Hc. cbn [PyStr.int_digits]. by rewrite Hc. Qed.

Lemma uint_nonempty d : d <> Decimal.Nil -> exists c r,
  NilEmpty.string_of_uint d = String c r /\ PyStr.isdigit_char c = true.
Proof. destruct d; [done|..]; intros _; eexists _, _; (split; [reflexivity|]); reflexivity. Qed.

(** [str(n)] is ASCII text. *)
Lemma of_int_ascii n : PyStr.is_ascii (PyStr.of_int n) = true.
Proof.
  assert (Hu : forall d, PyStr.is_ascii (NilZero.string_of_uint d) = true).
  { intros d. unfold NilZero.string_of_uint.
    destruct d; [reflexivity|..];
      exact (all_chars_impl _ _ _ digit_below_128 (uint_digits _)). }
  unfold PyStr.of_int. destruct (Z.to_int n); cbn [NilZero.string_of_int]; [apply Hu|].
  unfold PyStr.is_ascii. cbn [PyStr.all_chars]. apply Hu.
Qed.

Lemma int_literal_of_int n : PyStr.int_literal (PyStr.of_int n) = Some n.
Proof.
  assert (Hstrip : forall s, PyStr.all_chars PyStr.isdigit_char s = true ->
                             PyStr.rstrip PyStr.isspace_c (PyStr.lstrip PyStr.isspace_c s) = s).
  { intros s Hs. destruct s as [|c r]; [done|]. cbn [PyStr.lstrip].
    cbn [PyStr.all_chars] in Hs. pose proof Hs as Hs'. apply andb_true_iff in Hs' as [Hc _].
    rewrite (digit_not_space c Hc). by apply rstrip_digits. }
  assert (Hpos : forall p, PyStr.int_literal (NilEmpty.string_of_uint (Pos.to_uint p)) = Some (Zpos p)
                           /\ PyStr.int_digits (NilEmpty.string_of_uint (Pos.to_uint p)) 0 false
                              = Some (Zpos p)).
  { intros p. pose proof (Unsigned.to_uint_nonnil p) as Hn.
    destruct (uint_nonempty _ Hn) as (c & r & Hs & Hc).
    assert (Hd : PyStr.int_digits (NilEmpty.string_of_uint (Pos.to_uint p)) 0 false
                 = Some (Zpos p)).
    { rewrite Hs, (int_digits_first c r 0 false Hc), <- Hs, int_digits_uint.
      by rewrite Unsigned.of_to. }
    split; [|done]. unfold PyStr.int_literal.
    rewrite Hstrip by apply uint_digits.
    rewrite Hs in *.
    destruct c as [[] [] [] [] [] [] [] []]; try discriminate Hc; exact Hd. }
  destruct n as [|p|p]; [reflexivity|..]; unfold PyStr.of_int;
    cbn [Z.to_int NilZero.string_of_int].
  - unfold NilZero.string_of_uint. pose proof (Unsigned.to_uint_nonnil p).
    destruct (Pos.to_uint p) eqn:E; [done|..]; rewrite <- E; apply Hpos.
  - unfold NilZero.string_of_uint. pose proof (Unsigned.to_uint_nonnil p) as Hn.
    destruct (Hpos p) as [_ Hd].
    assert (Hs : match Pos.to_uint p with
                 | Decimal.Nil => "0"
                 | _ => NilEmpty.string_of_uint (Pos.to_uint p)
                 end = NilEmpty.string_of_uint (Pos.to_uint p))
      by (by destruct (Pos.to_uint p)).
    rewrite Hs. unfold PyStr.int_literal.
    assert (Hst : PyStr.rstrip PyStr.isspace_c
                    (PyStr.lstrip PyStr.isspace_c
                       (String "-" (NilEmpty.string_of_uint (Pos.to_uint p))))
                  = String "-" (NilEmpty.string_of_uint (Pos.to_uint p))).
    { cbn [PyStr.lstrip]. change (PyStr.isspace_c "-") with false. cbv iota.
      cbn [PyStr.rstrip]. rewrite (rstrip_digits _ (uint_digits _)).
      destruct (uint_nonempty _ Hn) as (c & r & -> & _). done. }
    rewrite Hst, Hd. reflexivity.
Qed.

(** [str(n)] has as many digits as [n], and no zero in front. *)
Lemma count_digits_uint d :
  PyStr.count_digits (NilEmpty.string_of_uint d) = N.of_nat (Decimal.nb_digits d).
Proof.
  induction d; cbn [NilEmpty.string_of_uint PyStr.count_digits Decimal.nb_digits]; [done|..];
    change (PyStr.isdigit_char _) with true; cbv iota; rewrite IHd; lia.
Qed.

Lemma of_uint_acc_lower d (acc : positive) :
  Zpos acc * 10 ^ Z.of_nat (Decimal.nb_digits d) <= Zpos (Pos.of_uint_acc d acc).
Proof.
  revert acc. induction d; intros acc; cbn [Pos.of_uint_acc Decimal.nb_digits]; [lia|..];
    (etrans; [|apply IHd]); rewrite Nat2Z.inj_succ, Z.pow_succ_r by lia;
    pose proof (Z.pow_pos_nonneg 10 (Z.of_nat (Decimal.nb_digits d)) ltac:(lia) ltac:(lia));
    nia.
Qed.

Lemma to_uint_lower p :
  10 ^ (Z.of_nat (Decimal.nb_digits (Pos.to_uint p)) - 1) <= Zpos p.
Proof.
  pose proof (Unsigned.of_to p) as Hof. pose proof (Unsigned.to_of (Pos.to_uint p)) as Hto.
  rewrite Hof in Hto. cbn [N.to_uint] in Hto.
  pose proof (Unsigned.to_uint_nonzero p) as Hnz.
  assert (Hhd : Pos.to_uint p = Decimal.nzhead (Pos.to_uint p)).
  { rewrite Hto at 1. unfold Decimal.unorm.
    destruct (Decimal.nzhead (Pos.to_uint p)) eqn:E; try reflexivity.
    exfalso. apply Hnz. rewrite Hto. unfold Decimal.unorm. by rewrite E. }
  pose proof (DecimalFacts.nzhead_nonzero (Pos.to_uint p)) as Hn0.
  rewrite <- Hhd in Hn0. clear Hto Hhd.
  destruct (Pos.to_uint p) as [|d|d|d|d|d|d|d|d|d|d] eqn:E;
    [by destruct Hnz | by destruct (Hn0 d) |..];
    cbn [Pos.of_uint] in Hof; injection Hof as <-;
    cbn [Decimal.nb_digits]; rewrite Nat2Z.inj_succ;
    (etrans; [|apply of_uint_acc_lower]);
    replace (Z.succ (Z.of_nat (Decimal.nb_digits d)) - 1) with (Z.of_nat (Decimal.nb_digits d))
      by lia;
    pose proof (Z.pow_pos_nonneg 10 (Z.of_nat (Decimal.nb_digits d)) ltac:(lia) ltac:(lia));
    nia.
Qed.

Lemma count_digits_pos p k :
  0 <= k -> Zpos p < 10 ^ k ->
  (PyStr.count_digits (NilZero.string_of_uint (Pos.to_uint p)) <= Z.to_N k)%N.
Proof.
  intros Hk Hp. unfold NilZero.string_of_uint.
  assert (Hc : (PyStr.count_digits (NilEmpty.string_of_uint (Pos.to_uint p)) <= Z.to_N k)%N).
  { rewrite count_digits_uint. pose proof (to_uint_lower p) as Hl.
    assert (Hlt : 10 ^ (Z.of_nat (Decimal.nb_digits (Pos.to_uint p)) - 1) < 10 ^ k) by lia.
    apply Z.pow_lt_mono_r_iff in Hlt; lia. }
  pose proof (Unsigned.to_uint_nonnil p). by destruct (Pos.to_uint p).
Qed.

Lemma count_digits_of_int n :
  Z.abs n < 10 ^ 4300 -> (PyStr.count_digits (PyStr.of_int n) <= PyStr.int_max_str_digits)%N.
Proof.
  unfold PyStr.of_int.
  destruct n as [|p|p]; cbn [Z.to_int NilZero.string_of_int Z.abs]; intros Hn.
  - discriminate.
  - exact (count_digits_pos p 4300 ltac:(discriminate) Hn).
  - exact (count_digits_pos p 4300 ltac:(discriminate) Hn).
Qed.

(** [int(str(n)) == n] for an integer of at most 4300 digits, whatever the
    Unicode tables. *)
Lemma int_of_int {Uni : PyStr.Unicode} n :
  Z.abs n < 10 ^ 4300 -> PyStr.int (PyStr.of_int n) = Some n.
Proof.
  intros Hn. unfold PyStr.int, PyStr.int_ascii. rewrite of_int_ascii.
  pose proof (count_digits_of_int n Hn) as Hc. apply N.ltb_ge in Hc. rewrite Hc.
  apply int_literal_of_int.
Qed.

(** A string that passes [isdigit] is none of the command words, and is not
    empty. *)
Lemma digits_not_command {Uni : PyStr.Unicode} s :
  PyStr.isdigit s = true ->
  s <> "" /\ s <> "hi" /\ s <> "hello" /\ s <> "start" /\ s <> "markets" /\ s <> "balance".
Proof. intros H. repeat split; intros ->; discriminate H. Qed.

(** ** Whatever the arithmetic *)

Section Generic.

Context {num : Type} `{A : Arith num} `{Uni : PyStr.Unicode} (env : Env (num := num)).

(** Steps of the session monad. *)
Ltac mstep :=
  repeat (progress (unfold mbind, M_bind, mret, M_ret, lift, raise, get_session, get_market,
                      put_session, set_user, set_market, add_bet, db_commit, emit;
                    cbn [fst snd store session log users markets bets])).

Lemma send_whatsapp_world payload w :
  snd (send_whatsapp env payload w)
  = {| store := store w; session := session w; log := log w ++ attempts env payload |}.
Proof.
  unfold send_whatsapp, attempts, configured.
  destruct (String.eqb (WHATSAPP_TOKEN env) "" || String.eqb (PHONE_NUMBER_ID env) "").
  - cbn. rewrite app_nil_r. by destruct w.
  - mstep. cbn.
    destruct (http_post env payload) as [r|]; [|done].
    destruct (300 <=? status_code r); [done|].
    by destruct (body_json r).
Qed.

Lemma send_whatsapp_accepted payload w :
  accepted env payload -> exists j, fst (send_whatsapp env payload w) = Ok j.
Proof.
  intros [Hc (r & j & Hp & Hs & Hj)]. exists j.
  unfold send_whatsapp. unfold configured in Hc.
  destruct (String.eqb (WHATSAPP_TOKEN env) "" || String.eqb (PHONE_NUMBER_ID env) ""); [done|].
  mstep. cbn. rewrite Hp.
  destruct (Z.leb_spec 300 (status_code r)); [lia|].
  by rewrite Hj.
Qed.

(** [send_text(...)] followed by the [return] of its caller. *)
Lemma send_then_return payload w :
  snd ((send_whatsapp env payload;; mret tt) w)
  = {| store := store w; session := session w; log := log w ++ attempts env payload |}.
Proof.
  rewrite <- send_whatsapp_world. mstep.
  by destruct (send_whatsapp env payload w) as [[j|e] w'].
Qed.

Lemma send_then_return_accepted payload w :
  accepted env payload -> fst ((send_whatsapp env payload;; mret tt) w) = Ok tt.
Proof.
  intros Ha. destruct (send_whatsapp_accepted payload w Ha) as [j Hj].
  mstep. destruct (send_whatsapp env payload w) as [[j'|e] w']; [done|].
  by cbn in Hj.
Qed.

(** A send either goes through or raises: it raises exactly when it is not
    accepted. *)
Lemma send_whatsapp_refused payload w :
  ~ accepted env payload -> exists e, fst (send_whatsapp env payload w) = Raise e.
Proof.
  intros Hn. unfold send_whatsapp.
  destruct (String.eqb (WHATSAPP_TOKEN env) "" || String.eqb (PHONE_NUMBER_ID env) "") eqn:Hc;
    [by eexists|].
  mstep. cbn. destruct (http_post env payload) as [r|] eqn:Hp; [|by eexists].
  destruct (Z.leb_spec 300 (status_code r)) as [|Hs]; [by eexists|].
  destruct (body_json r) as [j|] eqn:Hj; [|by eexists].
  destruct Hn. split; [unfold configured; by rewrite Hc|]. eauto.
Qed.

Lemma send_whatsapp_unconfigured payload w :
  configured env = false ->
  send_whatsapp env payload w
  = (Raise (RuntimeError "Missing WHATSAPP_TOKEN or PHONE_NUMBER_ID env vars"), w).
Proof.
  unfold configured, send_whatsapp. intros H. apply negb_false_iff in H. by rewrite H.
Qed.

Lemma send_ends payload w :
  ends_by_sending env w ((send_whatsapp env payload;; mret tt) w) tt payload.
Proof.
  split.
  - intros Hc. split; [|split].
    + rewrite send_then_return. unfold attempts. by rewrite Hc.
    + apply send_then_return_accepted.
    + intros Hn. destruct (send_whatsapp_refused payload w Hn) as [e He]. exists e.
      mstep. destruct (send_whatsapp env payload w) as [[j|e'] w']; cbn in *; congruence.
  - intros Hc. mstep. by rewrite (send_whatsapp_unconfigured payload w Hc).
Qed.

Lemma apply_price_impact_frame (m : Market) side qty m' :
  apply_price_impact m side qty = Ok m' ->
  m_id m' = m_id m /\ question m' = question m /\ is_open m' = is_open m.
Proof.
  unfold apply_price_impact. destruct (to_float qty); [|done].
  destruct (String.eqb side "YES"); by intros [= <-].
Qed.

Lemma get_or_create_user_existing wa w u :
  users (session w) !! wa = Some u -> get_or_create_user wa w = (Ok u, w).
Proof. intros Hu. unfold get_or_create_user. mstep. by rewrite Hu. Qed.

Lemma get_or_create_user_new wa w :
  users (session w) !! wa = None ->
  get_or_create_user wa w
  = (Ok (new_user wa),
     {| store := with_new_user wa (session w); session := with_new_user wa (session w);
        log := log w ++ [Committed (with_new_user wa (session w))] |}).
Proof. intros Hu. unfold get_or_create_user. mstep. by rewrite Hu. Qed.

(** C8. [get_or_create_user] is idempotent.  A call never raises.  For an
    unknown sender it creates the user with balance [1000.0] and commits at
    once, so the row is durable when the call returns; for a known sender it
    returns the stored row and changes nothing, the balance included.  A
    second call with the same id returns the same record and leaves the world
    of the first call as it is. *)
Theorem get_or_create_user_idempotent wa w :
  exists u w1,
    get_or_create_user wa w = (Ok u, w1)
    /\ get_or_create_user wa w1 = (Ok u, w1)
    /\ (users (session w) !! wa = None ->
        u = new_user wa /\ balance u = lit 1000.0 /\ users (store w1) !! wa = Some u)
    /\ (forall u0, users (session w) !! wa = Some u0 -> u = u0 /\ w1 = w).
Proof.
  destruct (users (session w) !! wa) as [u0|] eqn:Hu.
  - exists u0, w. rewrite (get_or_create_user_existing _ _ _ Hu).
    split; [done|]. split; [done|]. split; [done|]. by intros ? [= ->].
  - eexists _, _. rewrite (get_or_create_user_new _ _ Hu).
    split; [reflexivity|]. split.
    + apply get_or_create_user_existing. cbn. apply lookup_insert_eq.
    + split; [|done]. intros _. repeat split. cbn. apply lookup_insert_eq.
Qed.

Lemma to_float_price_impact m side qty q :
  to_float qty = Ok q -> exists m', apply_price_impact m side qty = Ok m'.
Proof.
  intros Hq. unfold apply_price_impact. rewrite Hq.
  destruct (String.eqb side "YES"); eauto.
Qed.

(** The three ways through [place_bet], as equations on the world. *)

Lemma place_bet_reject_eq wa mid sd qty w u w1 msg :
  get_or_create_user wa w = (Ok u, w1) ->
  rejection (session w1) u mid sd qty msg ->
  place_bet env wa mid sd qty w = (send_whatsapp env (text_payload wa msg);; mret tt) w1.
Proof.
  intros Hu Hr. unfold place_bet. mstep. rewrite Hu.
  destruct Hr as [Hm H64 | m Hm Ho | m Hm Ho H1 H2 | m q Hm Ho Hs Hq Hb]; rewrite Hm.
  - by rewrite H64.
  - by rewrite Ho.
  - rewrite Ho. cbn [negb].
    apply String.eqb_neq in H1, H2. by rewrite H1, H2.
  - rewrite Ho. cbn [negb].
    replace (negb (String.eqb (PyStr.upper sd) "YES" || String.eqb (PyStr.upper sd) "NO"))
      with false by (destruct Hs as [-> | ->]; reflexivity).
    by rewrite Hq, Hb.
Qed.

Lemma place_bet_fill_eq wa mid sd qty w u w1 m q m' :
  get_or_create_user wa w = (Ok u, w1) ->
  markets (session w1) !! mid = Some m ->
  is_open m = true ->
  PyStr.upper sd = "YES" \/ PyStr.upper sd = "NO" ->
  to_float qty = Ok q ->
  ltb (balance u) (mul q (quote m (PyStr.upper sd))) = false ->
  apply_price_impact m (PyStr.upper sd) qty = Ok m' ->
  let side := PyStr.upper sd in
  let cost := mul q (quote m side) in
  let db' := filled env (session w1) wa u mid m m' side qty cost in
  place_bet env wa mid sd qty w
  = (send_whatsapp env
       (text_payload wa (confirmation_text m' side (quote m side) qty (sub (balance u) cost)));;
     mret tt)
      {| store := db'; session := db'; log := log w1 ++ [Committed db'] |}.
Proof.
  intros Hu Hm Ho Hs Hq Hb Hm' side cost db'. subst db' cost side.
  unfold place_bet. mstep. rewrite Hu, Hm, Ho. cbn [negb].
  replace (negb (String.eqb (PyStr.upper sd) "YES" || String.eqb (PyStr.upper sd) "NO"))
    with false by (destruct Hs as [-> | ->]; reflexivity).
  rewrite Hq, Hb, Hm'. mstep. reflexivity.
Qed.

Lemma place_bet_overflow_eq wa mid sd qty w u w1 m :
  get_or_create_user wa w = (Ok u, w1) ->
  markets (session w1) !! mid = Some m ->
  is_open m = true ->
  PyStr.upper sd = "YES" \/ PyStr.upper sd = "NO" ->
  to_float qty = Raise OverflowError ->
  place_bet env wa mid sd qty w = (Raise OverflowError, w1).
Proof.
  intros Hu Hm Ho Hs Hq. unfold place_bet. mstep. rewrite Hu, Hm, Ho. cbn [negb].
  replace (negb (String.eqb (PyStr.upper sd) "YES" || String.eqb (PyStr.upper sd) "NO"))
    with false by (destruct Hs as [-> | ->]; reflexivity).
  by rewrite Hq.
Qed.

(** An id the key column cannot hold: the lookup raises. *)
Lemma place_bet_bad_id_eq wa mid sd qty w u w1 :
  get_or_create_user wa w = (Ok u, w1) ->
  markets (session w1) !! mid = None -> int64 mid = false ->
  place_bet env wa mid sd qty w = (Raise OverflowError, w1).
Proof.
  intros Hu Hm H64. unfold place_bet. mstep. by rewrite Hu, Hm, H64.
Qed.

(** The lazy lookup leaves the world as it was, or adds the new user and
    nothing else. *)
Lemma get_or_create_user_world wa w u w1 :
  get_or_create_user wa w = (Ok u, w1) ->
  users (session w1) !! wa = Some u /\
  (w1 = w \/
   users (session w) !! wa = None /\ store w1 = with_new_user wa (session w)
   /\ session w1 = store w1 /\ log w1 = (log w ++ [Committed (store w1)])%list).
Proof.
  intros Hu. destruct (users (session w) !! wa) as [u0|] eqn:Hl.
  - rewrite (get_or_create_user_existing _ _ _ Hl) in Hu.
    injection Hu as <- <-. split; [done | by left].
  - rewrite (get_or_create_user_new _ _ Hl) in Hu.
    injection Hu as <- <-. split; [apply lookup_insert_eq | by right].
Qed.

(** C1. A bet that passes every check is filled in one transaction.  Let
    [u] be the user after the lazy lookup, [m] the open market, [p] its quote
    for the upper-cased side and [cost = qty * p] with [balance u < cost]
    false.  Then [place_bet] leaves a database that differs from the one it
    read by exactly three writes: the user's balance is [balance u - cost]
    as the subtraction of the program computes it, one bet is appended with
    price [p], the side and [qty], and the market holds the quotes
    [apply_price_impact] computes.  They become durable in a single commit,
    the only one after the lookup.  The confirmation comes after the commit:
    with the credentials set it is posted, once, with the text below, and
    the call returns when the Graph API accepts it; without them nothing is
    posted and the call raises, the fill staying committed. *)
Theorem place_bet_fill wa mid sd qty w u w1 m q :
  get_or_create_user wa w = (Ok u, w1) ->
  markets (session w1) !! mid = Some m ->
  is_open m = true ->
  PyStr.upper sd = "YES" \/ PyStr.upper sd = "NO" ->
  to_float qty = Ok q ->
  ltb (balance u) (mul q (quote m (PyStr.upper sd))) = false ->
  let side := PyStr.upper sd in
  let p := quote m side in
  let cost := mul q p in
  exists m',
    apply_price_impact m side qty = Ok m'
    /\ let db' := filled env (session w1) wa u mid m m' side qty cost in
       let note :=
         JDict [("messaging_product", JStr "whatsapp");
                ("to", JStr wa);
                ("type", JStr "text");
                ("text",
                 JDict [("body",
                         JStr ("✅ Bet placed!" ++ PyStr.nl
                               ++ "Market " ++ PyStr.of_int (m_id m) ++ ": " ++ question m
                               ++ PyStr.nl
                               ++ "You: BUY " ++ side ++ " @ " ++ fmt2 p ++ " × "
                               ++ PyStr.of_int qty ++ PyStr.nl
                               ++ "Balance: " ++ fmt2 (sub (balance u) cost)))])] in
       users db' !! wa = Some {| wa_id := wa_id u; balance := sub (balance u) cost |}
       /\ bets db' = (bets (session w1)
                      ++ [{| b_id := next_id (b_id <$> bets (session w1)); b_wa_id := wa;
                             market_id := m_id m; side := side; price := p; qty := qty;
                             ts := now env |}])%list
       /\ markets db' !! mid = Some m'
       /\ ends_by_sending env
            {| store := db'; session := db'; log := log w1 ++ [Committed db'] |}
            (place_bet env wa mid sd qty w) tt note.
Proof.
  intros Hu Hm Ho Hs Hq Hb side p cost.
  destruct (to_float_price_impact m side qty q Hq) as [m' Hm'].
  exists m'. split; [done|]. intros db' note.
  split; [apply lookup_insert_eq|]. split; [reflexivity|].
  split; [apply lookup_insert_eq|].
  rewrite (place_bet_fill_eq _ _ _ _ _ _ _ _ _ _ Hu Hm Ho Hs Hq Hb Hm').
  destruct (apply_price_impact_frame m side qty m' Hm') as (Hid & Hqu & _).
  unfold text_payload, confirmation_text. rewrite Hid, Hqu. apply send_ends.
Qed.

(** C3. A bet that is turned down changes nothing.  For each of the four
    rejections (a market id of the key's range that no market has, a closed
    market, a side that [upper()] makes neither [YES] nor [NO], a balance
    strictly below [qty * quote]) the call ends by sending the matching
    text, the insufficient-funds text carrying the required and the
    available amount: the database is the one the lazy user lookup left
    (same balances, same quotes, same bets, no commit); with the credentials
    set the text is posted, once, and without them nothing is posted and the
    call raises.  A market id beyond the range of the key is not a
    rejection: the lookup raises [OverflowError] and nothing is sent.  The
    lazy lookup itself changed nothing for a known sender and added only the
    new user for an unknown one. *)
Theorem place_bet_rejected wa mid sd qty w u w1 :
  get_or_create_user wa w = (Ok u, w1) ->
  let out := place_bet env wa mid sd qty w in
  (forall msg,
      rejection (session w1) u mid sd qty msg ->
      ends_by_sending env w1 out tt
        (JDict [("messaging_product", JStr "whatsapp");
                ("to", JStr wa);
                ("type", JStr "text");
                ("text", JDict [("body", JStr msg)])]))
  /\ (markets (session w1) !! mid = None -> int64 mid = false ->
      out = (Raise OverflowError, w1))
  /\ (w1 = w \/
      users (session w) !! wa = None /\ store w1 = with_new_user wa (session w)
      /\ session w1 = store w1 /\ log w1 = (log w ++ [Committed (store w1)])%list).
Proof.
  intros Hu out. subst out. split; [|split].
  - intros msg Hr. rewrite (place_bet_reject_eq _ _ _ _ _ _ _ _ Hu Hr).
    destruct w1 as [st se lg]. apply send_ends.
  - intros Hm H64. by apply (place_bet_bad_id_eq _ _ _ _ _ u).
  - by apply get_or_create_user_world in Hu as [_ ?].
Qed.

(** ** The webhook refines the ledger steps *)

Lemma advances_refl w : synced w -> advances env w w.
Proof. intros Hs. split; [done | apply rtc_refl]. Qed.

Lemma tame_ret {T} (x : T) : tame env (mret x).
Proof. intros w Hs. by apply advances_refl. Qed.

Lemma tame_lift {T} (r : result T) : tame env (lift r).
Proof. intros w Hs. by apply advances_refl. Qed.

Lemma tame_raise {T} e : tame env (raise e : M T).
Proof. intros w Hs. by apply advances_refl. Qed.

Lemma tame_get_session : tame env get_session.
Proof. intros w Hs. by apply advances_refl. Qed.

Lemma tame_bind {T U} (m : M T) (f : T -> M U) :
  tame env m -> (forall x, tame env (f x)) -> tame env (m ≫= f).
Proof.
  intros Hm Hf w Hs. destruct (Hm w Hs) as [Hs1 Hr1].
  unfold mbind, M_bind. destruct (m w) as [[x|e] w1]; cbn [snd] in *.
  - destruct (Hf x w1 Hs1) as [Hs2 Hr2]. split; [done|]. by etrans.
  - done.
Qed.

Lemma tame_send payload : tame env (send_whatsapp env payload).
Proof.
  intros w Hs. rewrite send_whatsapp_world. split; [done | apply rtc_refl].
Qed.

Lemma get_or_create_user_total wa w :
  exists u w1, get_or_create_user wa w = (Ok u, w1).
Proof.
  destruct (users (session w) !! wa) as [u0|] eqn:Hl.
  - eexists _, _. by apply get_or_create_user_existing.
  - eexists _, _. by apply get_or_create_user_new.
Qed.

Lemma get_or_create_user_advances wa w u w1 :
  synced w -> get_or_create_user wa w = (Ok u, w1) -> advances env w w1.
Proof.
  intros Hs Hu. apply get_or_create_user_world in Hu as [_ [-> | (Hn & Hst & Hse & _)]].
  - by apply advances_refl.
  - split; [done|]. apply rtc_once. apply step_user with wa.
    + by rewrite <- Hs.
    + by rewrite <- Hs.
Qed.

Lemma tame_get_or_create_user wa : tame env (get_or_create_user wa).
Proof.
  intros w Hs. destruct (get_or_create_user_total wa w) as (u & w1 & Hu).
  rewrite Hu. by apply (get_or_create_user_advances wa w u w1).
Qed.

Lemma upper_side_cases sd :
  (PyStr.upper sd = "YES" \/ PyStr.upper sd = "NO")
  \/ (PyStr.upper sd <> "YES" /\ PyStr.upper sd <> "NO").
Proof.
  destruct (String.eqb_spec (PyStr.upper sd) "YES"); [by left; left|].
  destruct (String.eqb_spec (PyStr.upper sd) "NO"); [by left; right|].
  by right.
Qed.

Lemma to_float_cases n : (exists q, to_float n = Ok q) \/ to_float n = Raise OverflowError.
Proof. unfold to_float. destruct (of_int n); eauto. Qed.

(** Every call of [place_bet] is a rejection, an overflow of the quantity,
    or a fill; with quantity 10 it advances the ledger by at most a new user
    and one fill. *)
Lemma tame_place_bet wa mid sd : tame env (place_bet env wa mid sd 10).
Proof.
  intros w Hs. destruct (get_or_create_user_total wa w) as (u & w1 & Hu).
  pose proof (get_or_create_user_advances _ _ _ _ Hs Hu) as [Hs1 Hr1].
  pose proof (get_or_create_user_world _ _ _ _ Hu) as [Hu1 _].
  assert (Hsent : forall msg, rejection (session w1) u mid sd 10 msg ->
                              advances env w (snd (place_bet env wa mid sd 10 w))).
  { intros msg Hr. rewrite (place_bet_reject_eq _ _ _ _ _ _ _ _ Hu Hr), send_then_return.
    split; [done|]. done. }
  destruct (markets (session w1) !! mid) as [m|] eqn:Hm; cycle 1.
  { destruct (int64 mid) eqn:H64; [by eapply Hsent, MarketNotFound|].
    by rewrite (place_bet_bad_id_eq _ _ _ _ _ _ _ Hu Hm H64). }
  destruct (is_open m) eqn:Ho; [|by eapply Hsent, MarketClosed].
  destruct (upper_side_cases sd) as [Hsd | [H1 H2]];
    [|by eapply Hsent, InvalidSide].
  destruct (to_float_cases 10) as [[q Hq] | Hq].
  - destruct (ltb (balance u) (mul q (quote m (PyStr.upper sd)))) eqn:Hb;
      [by eapply Hsent, InsufficientBalance|].
    destruct (to_float_price_impact m (PyStr.upper sd) 10 q Hq) as [m' Hm'].
    rewrite (place_bet_fill_eq _ _ _ _ _ _ _ _ _ _ Hu Hm Ho Hsd Hq Hb Hm'), send_then_return.
    split; [done|]. cbn [store]. eapply rtc_r; [exact Hr1|].
    eapply step_fill with (wa := wa) (u := u) (mid := mid) (m := m) (sd := PyStr.upper sd);
      rewrite <- ?Hs1; eauto.
  - rewrite (place_bet_overflow_eq _ _ _ _ _ _ _ _ Hu Hm Ho Hsd Hq). done.
Qed.

Ltac tame :=
  repeat first
    [ apply tame_ret | apply tame_lift | apply tame_raise | apply tame_get_session
    | apply tame_send | apply tame_get_or_create_user | apply tame_place_bet
    | apply tame_bind; [|intros ?]
    | match goal with
      | |- tame _ (if ?b then _ else _) => destruct b
      | |- tame _ (match ?x with _ => _ end) => destruct x
      end ].

Lemma tame_button_tap wa msg : tame env (button_tap env wa msg).
Proof. unfold button_tap. tame. Qed.

Lemma tame_message_text msg : tame env (message_text msg).
Proof. unfold message_text. tame. Qed.

Lemma tame_text_command wa text : tame env (text_command env wa text).
Proof. unfold text_command, send_text, send_yes_no_buttons. tame. Qed.

Lemma moves_lift {T} (r : result T) : moves env (lift r).
Proof. intros w. apply rtc_refl. Qed.

Lemma moves_ret {T} (x : T) : moves env (mret x).
Proof. intros w. apply rtc_refl. Qed.

Lemma moves_bind {T U} (m : M T) (f : T -> M U) :
  moves env m -> (forall x, moves env (f x)) -> moves env (m ≫= f).
Proof.
  intros Hm Hf w. specialize (Hm w).
  unfold mbind, M_bind. destruct (m w) as [[x|e] w1]; cbn [snd] in *; [|done].
  etrans; [exact Hm | apply Hf].
Qed.

Lemma moves_with_session {T} (body : M T) : tame env body -> moves env (with_session body).
Proof.
  intros Hb w. unfold with_session.
  destruct (Hb {| store := store w; session := store w; log := log w |} eq_refl) as [_ Hr].
  cbn [store] in Hr.
  by destruct (body _) as [r w'].
Qed.

Lemma moves_process data : moves env (process env data).
Proof.
  unfold process.
  repeat first
    [ apply moves_ret | apply moves_lift
    | apply moves_bind; [|intros ?]
    | match goal with |- moves _ (if ?b then _ else _) => destruct b end ].
  all: apply moves_with_session.
  all: repeat first
    [ apply tame_button_tap | apply tame_message_text | apply tame_text_command
    | progress tame ].
Qed.

(** Every request advances the durable ledger by ledger steps of quantity
    10 (at most a new user and one fill), whatever the body and whatever the
    Graph API answers. *)
Lemma inbound_steps req w :
  rtc (ledger_step env 10) (store w) (store (snd (inbound env req w))).
Proof.
  destruct req as [|data]; [apply rtc_refl|].
  unfold inbound, try_except. pose proof (moves_process data w) as Hp.
  by destruct (process env data w) as [[r|e] w'].
Qed.

(** ** Webhook bodies *)

(** Only what the handler reads of a body matters. *)
Lemma process_resolves data v w :
  resolves data v -> process env data w = process env (value_body v) w.
Proof.
  intros (e & entry & c & change & He & Hentry & Hc & Hchange & Hv).
  unfold process, value_body, mbind, M_bind, lift.
  rewrite He, Hentry, Hc, Hchange, Hv. reflexivity.
Qed.

Lemma process_carries data msg w :
  carries data msg -> process env data w = process env (webhook_body msg) w.
Proof.
  intros (v & ms & Hres & Hms & Ht & Hidx).
  rewrite (process_resolves data v w Hres).
  unfold process, webhook_body, value_body, mbind, M_bind, lift, py_or.
  cbn [py_get py_index0 truthy assoc default from_option id String.eqb Ascii.eqb Bool.eqb negb].
  unfold py_or in Hms. rewrite Hms, Ht. cbv iota. rewrite Ht, Hidx. reflexivity.
Qed.

Lemma inbound_carries data msg w :
  carries data msg ->
  inbound env (Body data) w = inbound env (Body (webhook_body msg)) w.
Proof. intros Hc. unfold inbound, try_except. by rewrite (process_carries data msg w Hc). Qed.

(** A message with a sender goes through the lazy user lookup, the tap
    branch and, when that declines, the command dispatch. *)
Lemma inbound_message md wa w :
  assoc "from" md = Some (JStr wa) -> wa <> "" ->
  inbound env (Body (webhook_body (JDict md))) w
  = try_except
      (with_session
         (get_or_create_user wa;;
          tapped ← button_tap env wa (JDict md);
          if (tapped : bool) then mret AckOk
          else text ← message_text (JDict md);
               text_command env wa text;;
               mret AckOk))
      (fun e => mret (AckFail e)) w.
Proof.
  intros Hf Hwa. apply String.eqb_neq in Hwa.
  unfold inbound, process, webhook_body, value_body.
  unfold try_except, with_session, mbind, M_bind, lift.
  cbn -[button_tap get_or_create_user place_bet message_text text_command].
  rewrite Hf. cbn -[button_tap get_or_create_user place_bet message_text text_command].
  rewrite Hwa. cbn -[button_tap get_or_create_user place_bet message_text text_command].
  reflexivity.
Qed.

(** ** Text commands *)

(** A text that passes [isdigit] is converted with [int()] and names a
    market. *)
Lemma text_command_digits wa text w :
  PyStr.isdigit text = true ->
  text_command env wa text w
  = match PyStr.int text with
    | None => (Raise ValueError, w)
    | Some n =>
        match markets (session w) !! n with
        | Some m => (send_whatsapp env (buttons_payload wa m);; mret tt) w
        | None =>
            if int64 n
            then (send_whatsapp env (text_payload wa "Market not found. Type 'markets'.");;
                  mret tt) w
            else (Raise OverflowError, w)
        end
    end.
Proof.
  intros Hd. destruct (digits_not_command text Hd) as (_ & H1 & H2 & H3 & H4 & H5).
  apply String.eqb_neq in H1, H2, H3, H4, H5.
  unfold text_command. rewrite H1, H2, H3, H4, H5, Hd. cbn [orb].
  unfold py_int. destruct (PyStr.int text) as [n|]; [|reflexivity].
  mstep. destruct (markets (session w) !! n); [reflexivity|].
  by destruct (int64 n).
Qed.

(** A text message from a sender goes through the lazy user lookup and then
    the command dispatch on its trimmed, lowercased body. *)
Lemma inbound_text wa body w :
  wa <> "" ->
  inbound env (Body (webhook_body (text_message wa body))) w
  = try_except
      (with_session (get_or_create_user wa;;
                     text_command env wa (PyStr.lower (PyStr.strip body));;
                     mret AckOk))
      (fun e => mret (AckFail e)) w.
Proof.
  intros Hwa. apply String.eqb_neq in Hwa.
  unfold inbound, process, webhook_body, value_body, text_message.
  unfold try_except, with_session, mbind, M_bind, lift.
  cbn -[get_or_create_user text_command PyStr.lower PyStr.strip].
  rewrite Hwa. cbn -[get_or_create_user text_command PyStr.lower PyStr.strip].
  destruct (get_or_create_user wa _) as [[u|e] w1]; [|done].
  unfold button_tap, message_text. unfold mbind, M_bind, lift.
  cbn -[get_or_create_user text_command PyStr.lower PyStr.strip].
  destruct body; reflexivity.
Qed.

(** The same for a text message that carries any further fields. *)
Lemma inbound_text_message md td wa body w :
  assoc "from" md = Some (JStr wa) -> wa <> "" ->
  assoc "type" md = Some (JStr "text") ->
  assoc "text" md = Some (JDict td) -> assoc "body" td = Some (JStr body) ->
  inbound env (Body (webhook_body (JDict md))) w
  = inbound env (Body (webhook_body (text_message wa body))) w.
Proof.
  intros Hf Hwa Hty Htx Hb.
  rewrite (inbound_message md wa w Hf Hwa), (inbound_text wa body w Hwa).
  unfold try_except, with_session, mbind, M_bind.
  destruct (get_or_create_user wa _) as [[u|e] w1]; [|done].
  assert (Htap : button_tap env wa (JDict md) w1 = (Ok false, w1)).
  { unfold button_tap. mstep. cbn [py_get]. by rewrite Hty. }
  assert (Htext : message_text (JDict md) w1 = (Ok (PyStr.lower (PyStr.strip body)), w1)).
  { unfold message_text. mstep. cbn [py_get py_item]. rewrite Hty, Htx.
    cbn [default py_eq_str String.eqb Ascii.eqb Bool.eqb py_item]. rewrite Hb.
    by destruct body. }
  rewrite Htap. cbv beta iota. rewrite Htext. reflexivity.
Qed.

(** The answer to a text message, in terms of the command dispatch run
    after the lazy user lookup. *)
Lemma inbound_text_through wa body w :
  wa <> "" ->
  let w1 := snd (get_or_create_user wa (at_rest (store w) (log w))) in
  let '(r, w2) := text_command env wa (PyStr.lower (PyStr.strip body)) w1 in
  inbound env (Body (webhook_body (text_message wa body))) w
  = (match r with Ok _ => Ok AckOk | Raise e => Ok (AckFail e) end,
     {| store := store w2; session := store w2; log := log w2 |}).
Proof.
  intros Hwa w1. rewrite (inbound_text wa body w Hwa).
  unfold try_except, with_session. fold (at_rest (store w) (log w)).
  destruct (get_or_create_user_total wa (at_rest (store w) (log w))) as (u & w1' & Hu).
  unfold mbind at 1, M_bind at 1. subst w1. rewrite Hu. cbn [snd].
  unfold mbind, M_bind, mret, M_ret.
  by destruct (text_command env wa (PyStr.lower (PyStr.strip body)) w1') as [[[]|e] w2].
Qed.

(** A handler that ends by sending a reply answers with it. *)
Lemma answers_with_send w1 reply :
  let '(r, w2) := (send_whatsapp env reply;; mret tt) w1 in
  answers_with env w1
    (match r with Ok _ => Ok AckOk | Raise e => Ok (AckFail e) end,
     {| store := store w2; session := store w2; log := log w2 |})
    reply.
Proof.
  destruct (send_ends reply w1) as [Hc Hn].
  destruct ((send_whatsapp env reply;; mret tt) w1) as [r w2]. cbn [fst snd] in *.
  split.
  - intros Hcf. destruct (Hc Hcf) as (-> & Ha & Hr). cbn [store log].
    split; [done|]. split.
    + intros Hacc. by rewrite (Ha Hacc).
    + intros Hnot. destruct (Hr Hnot) as [e ->]. eauto.
  - intros Hcf. specialize (Hn Hcf). by injection Hn as -> ->.
Qed.

(** C4. A text message whose normalized body passes [isdigit] names a
    market by [int(text)].  After the lazy user lookup the handler writes
    nothing and sends one message: the "not found" text when no market has
    that id, and otherwise the two-button prompt for that market, whether
    the market is open or closed.  The prompt shows both quotes and its
    button ids are [BET|id|YES] and [BET|id|NO].  There are two ways out
    without a message: [int()] refuses the text (it refuses some characters
    that [isdigit] accepts), or no market has the id and the id is beyond
    the range of the key, so that the lookup raises; the handler then
    answers [{"ok": False, ...}].  The message is the first one of the body,
    whatever else the body and the message carry. *)
Theorem digit_text_reply data md td wa body w :
  carries data (JDict md) ->
  assoc "from" md = Some (JStr wa) -> wa <> "" ->
  assoc "type" md = Some (JStr "text") ->
  assoc "text" md = Some (JDict td) -> assoc "body" td = Some (JStr body) ->
  PyStr.isdigit (PyStr.lower (PyStr.strip body)) = true ->
  let w1 := snd (get_or_create_user wa (at_rest (store w) (log w))) in
  let out := inbound env (Body data) w in
  match PyStr.int (PyStr.lower (PyStr.strip body)) with
  | None => out = (Ok (AckFail ValueError), at_rest (store w1) (log w1))
  | Some n =>
      match markets (store w) !! n with
      | Some m =>
          answers_with env w1 out
            (JDict [("messaging_product", JStr "whatsapp");
                    ("to", JStr wa);
                    ("type", JStr "interactive");
                    ("interactive",
                     JDict [("type", JStr "button");
                            ("body",
                             JDict [("text",
                                     JStr (question m ++ PyStr.nl ++ PyStr.nl
                                           ++ "YES: " ++ fmt2 (yes_price m)
                                           ++ " | NO: " ++ fmt2 (no_price m)
                                           ++ PyStr.nl ++ PyStr.nl ++ "Choose:"))]);
                            ("action",
                             JDict [("buttons",
                                     JList [JDict [("type", JStr "reply");
                                                   ("reply",
                                                    JDict [("id", JStr ("BET|" ++ PyStr.of_int (m_id m)
                                                                        ++ "|YES"));
                                                           ("title", JStr ("YES (" ++ fmt2 (yes_price m)
                                                                           ++ ")"))])];
                                            JDict [("type", JStr "reply");
                                                   ("reply",
                                                    JDict [("id", JStr ("BET|" ++ PyStr.of_int (m_id m)
                                                                        ++ "|NO"));
                                                           ("title", JStr ("NO (" ++ fmt2 (no_price m)
                                                                           ++ ")"))])]])])])])
      | None =>
          if int64 n
          then answers_with env w1 out
                 (JDict [("messaging_product", JStr "whatsapp");
                         ("to", JStr wa);
                         ("type", JStr "text");
                         ("text", JDict [("body", JStr "Market not found. Type 'markets'.")])])
          else out = (Ok (AckFail OverflowError), at_rest (store w1) (log w1))
      end
  end.
Proof.
  intros Hcar Hf Hwa Hty Htx Hb Hd w1 out.
  assert (Hout : out = inbound env (Body (webhook_body (text_message wa body))) w).
  { subst out. rewrite (inbound_carries data (JDict md) w Hcar).
    by apply inbound_text_message with td. }
  pose proof (inbound_text_through wa body w Hwa) as Hthr. cbv zeta in Hthr. fold w1 in Hthr.
  rewrite <- Hout in Hthr. clear Hout. clearbody out.
  assert (Hmk : markets (session w1) = markets (store w)).
  { subst w1. destruct (get_or_create_user_total wa (at_rest (store w) (log w))) as (u & w1 & Hu).
    rewrite Hu. cbn [snd].
    apply get_or_create_user_world in Hu as [_ [-> | (_ & Hst & Hse & _)]]; [done|].
    by rewrite Hse, Hst. }
  rewrite (text_command_digits wa _ w1 Hd), Hmk in Hthr.
  destruct (PyStr.int (PyStr.lower (PyStr.strip body))) as [n|]; [|exact Hthr].
  destruct (markets (store w) !! n) as [m|].
  - pose proof (answers_with_send w1 (buttons_payload wa m)) as Ha.
    destruct ((send_whatsapp env (buttons_payload wa m);; mret tt) w1) as [r w2].
    rewrite Hthr. exact Ha.
  - destruct (int64 n); [|exact Hthr].
    pose proof (answers_with_send w1 (text_payload wa "Market not found. Type 'markets'.")) as Ha.
    destruct ((send_whatsapp env _;; mret tt) w1) as [r w2].
    rewrite Hthr. exact Ha.
Qed.

(** ** What the handler answers *)

(** X7. A body that parses as JSON always gets an answer: the [try] block
    catches every exception of the event processing. *)
Lemma inbound_json_answers data w :
  exists r w', inbound env (Body data) w = (Ok r, w').
Proof.
  unfold inbound, try_except.
  destruct (process env data w) as [[r|e] w']; cbn; eauto.
Qed.

(** C6. The handler does not answer every request: [await request.json()]
    stands before the [try], so a body that is not JSON raises out of the
    handler, with the world untouched. *)
Theorem inbound_unparsable_raises w :
  inbound env Unparsable w = (Raise JSONDecodeError, w).
Proof. reflexivity. Qed.

(** C5. A body without messages is acknowledged without raising and
    without any change of the world.  The acknowledgment is
    [{"ok": False, "error": "list index out of range"}] when the body is an
    object whose [entry] is missing, null or empty (the [[0]] on the empty
    default raises [IndexError], which the handler catches), and
    [{"ok": True}] for every body whose path [entry[0].changes[0].value]
    resolves, whatever else the body holds, when the value is empty or null
    or holds no message list.  A body that is not an object is acknowledged
    with the [AttributeError] of its missing [get]. *)
Theorem no_messages_acknowledged w :
  (forall d, truthy (default JNull (assoc "entry" d)) = false ->
             inbound env (Body (JDict d)) w = (Ok (AckFail IndexError), w))
  /\ (forall data v, resolves data v -> truthy v = false ->
                     inbound env (Body data) w = (Ok AckOk, w))
  /\ (forall data v ms,
         resolves data v -> py_get v "messages" = Ok ms -> truthy ms = false ->
         inbound env (Body data) w = (Ok AckOk, w))
  /\ (forall data, (forall d, data <> JDict d) ->
                   inbound env (Body data) w = (Ok (AckFail AttributeError), w)).
Proof.
  split; [|split; [|split]].
  - intros d Hd. unfold inbound, try_except, process. mstep.
    cbn [py_get]. unfold py_or. by rewrite Hd.
  - intros data v Hres Hv. unfold inbound, try_except.
    rewrite (process_resolves data v w Hres).
    unfold process, value_body. mstep. cbn. unfold py_or. by rewrite Hv.
  - intros data v ms Hres Hms Ht. unfold inbound, try_except.
    rewrite (process_resolves data v w Hres).
    destruct v as [| | | | | |vd]; try discriminate Hms.
    cbn [py_get] in Hms. injection Hms as <-.
    unfold process, value_body. mstep.
    cbn. unfold py_or at 1. destruct vd as [|kv vd]; [done|].
    cbn [truthy py_get]. unfold py_or. by rewrite Ht.
  - intros data Hn. destruct data; try done. by destruct (Hn d).
Qed.

End Generic.

(** ** Invariants of the reachable worlds *)

Section Invariants.

Context {num : Type} `{A : Arith num} `{Uni : PyStr.Unicode}.

Lemma seed_keeps_bets (db : DB) : bets (seeded db) = bets db.
Proof. reflexivity. Qed.

Lemma seed_keeps_users (db : DB) : users (seeded db) = users db.
Proof. reflexivity. Qed.

(** A property of databases that every ledger step of quantity 10 keeps
    holds in every reachable world. *)
Lemma reachable_ind_ledger (P : DB -> Prop) :
  P empty_db -> P initial_store ->
  (forall env db db', ledger_step env 10 db db' -> P db -> P db') ->
  forall w, reachable w -> P (store w).
Proof.
  intros He H0 Hstep w Hw. induction Hw as [| |env req w Hw IH]; [done..|].
  pose proof (inbound_steps env req w) as Hr.
  induction Hr as [|db1 db2 db3 H12 _ IH']; [done|].
  apply IH'. by eapply Hstep.
Qed.

Lemma ledger_step_bets env n db db' :
  ledger_step env n db db' ->
  bets db' = bets db \/ exists b, bets db' = (bets db ++ [b])%list /\ qty b = n.
Proof.
  intros [wa Hn -> | wa u mid m m' sd q Hu Hm Ho Hsd Hq Hb Hm' ->]; cbn; eauto.
Qed.

(** C10. Every bet the webhook creates has quantity 10: in every world
    reachable from the empty or the seeded database through webhook requests,
    all bet rows have [qty = 10]. *)
Theorem webhook_bets_have_qty_10 w :
  reachable w -> all_bets_of_ten (store w).
Proof.
  apply (reachable_ind_ledger all_bets_of_ten).
  - constructor.
  - unfold all_bets_of_ten, initial_store. rewrite seed_keeps_bets. constructor.
  - intros env db db' Hs Hdb. unfold all_bets_of_ten in *.
    destruct (ledger_step_bets _ _ _ _ Hs) as [-> | (b & -> & Hb)]; [done|].
    apply Forall_app. split; [done|]. by constructor.
Qed.

End Invariants.

(** ** In exact arithmetic *)

Section ExactArithmetic.

#[local] Existing Instance Exact.arith.

Context `{Uni : PyStr.Unicode}.

Local Open Scope Q_scope.

Lemma lt_true (x y : Q) : Exact.lt x y = true <-> x < y.
Proof.
  unfold Exact.lt. rewrite negb_true_iff, <- not_true_iff_false, Qle_bool_iff.
  split; [apply Qnot_le_lt | apply Qlt_not_le].
Qed.

Lemma lt_false (x y : Q) : Exact.lt x y = false <-> y <= x.
Proof.
  unfold Exact.lt. rewrite negb_false_iff. apply Qle_bool_iff.
Qed.

(** Python's [min] and [max] of two rationals are the mathematical ones. *)
Lemma py_min_cases (a b : Q) :
  b < a /\ py_min a b = b \/ a <= b /\ py_min a b = a.
Proof.
  unfold py_min. cbn [ltb Exact.arith].
  destruct (Exact.lt b a) eqn:H; [left | right]; split; try done.
  - by apply lt_true.
  - by apply lt_false.
Qed.

Lemma py_max_cases (a b : Q) :
  a < b /\ py_max a b = b \/ b <= a /\ py_max a b = a.
Proof.
  unfold py_max. cbn [ltb Exact.arith].
  destruct (Exact.lt a b) eqn:H; [left | right]; split; try done.
  - by apply lt_true.
  - by apply lt_false.
Qed.

Lemma py_min_Qmin (a b : Q) : py_min a b == Qmin a b.
Proof.
  destruct (py_min_cases a b) as [[H ->] | [H ->]].
  - symmetry. apply Q.min_r. by apply Qlt_le_weak.
  - symmetry. by apply Q.min_l.
Qed.

Lemma py_max_Qmax (a b : Q) : py_max a b == Qmax a b.
Proof.
  destruct (py_max_cases a b) as [[H ->] | [H ->]].
  - symmetry. apply Q.max_r. by apply Qlt_le_weak.
  - symmetry. by apply Q.max_l.
Qed.

Lemma inject_Z_nonneg (n : Z) : (0 <= n)%Z -> 0 <= inject_Z n.
Proof. intros H. unfold Qle. cbn. lia. Qed.

Lemma inject_Z_pos (n : Z) : (0 < n)%Z -> 1 <= inject_Z n.
Proof. intros H. unfold Qle. cbn. lia. Qed.

(** The step of a fill: [min(0.10, 0.001 * qty)]. *)
Lemma impact_cases (qty : Z) :
  let i := py_min (lit 0.10) (mul (lit 0.001) (inject_Z qty)) in
  i <= 0.10 /\ ((0 <= qty)%Z -> 0 <= i) /\ ((0 < qty)%Z -> 0.001 <= i).
Proof.
  intros i. subst i. cbn [lit mul Exact.arith].
  destruct (py_min_cases 0.10 (0.001 * inject_Z qty)) as [[H ->] | [H ->]].
  - split; [lra|]. split; intros Hq.
    + pose proof (inject_Z_nonneg qty Hq). nra.
    + pose proof (inject_Z_pos qty Hq). nra.
  - split; [lra|]. split; intros _; lra.
Qed.

(** The update in exact arithmetic, side by side with the quotes before. *)
Lemma price_impact_exact (m : Market) side (qty : Z) :
  let i := py_min (lit 0.10) (mul (lit 0.001) (inject_Z qty)) in
  exists m',
    apply_price_impact m side qty = Ok m'
    /\ quote m' side = py_min (lit 0.99) (add (quote m side) i)
    /\ opposite m' side = py_max (lit 0.01) (sub (lit 1.0) (quote m' side)).
Proof.
  intros i. unfold apply_price_impact, to_float, quote, opposite.
  cbn [of_int Exact.arith]. fold i.
  destruct (String.eqb side "YES"); eexists; (split; [reflexivity|]); cbn; done.
Qed.

(** After an update the two quotes sum to exactly 1, whatever they were
    before: the chosen side is at most 0.99, so the clamp at 0.01 never moves
    the other side away from one minus it. *)
Lemma price_impact_sum (m : Market) side (qty : Z) m' :
  apply_price_impact m side qty = Ok m' -> yes_price m' + no_price m' == 1.
Proof.
  intros Hm. destruct (price_impact_exact m side qty) as (m'' & Hm'' & Hc & Ho).
  rewrite Hm in Hm''. injection Hm'' as <-.
  assert (Hs : quote m' side + opposite m' side == 1).
  { rewrite Ho, Hc. cbn [lit add sub Exact.arith].
    match goal with
    | |- context [py_min ?a ?b] => destruct (py_min_cases a b) as [[H ->] | [H ->]]
    end;
      match goal with
      | |- context [py_max ?a ?b] => destruct (py_max_cases a b) as [[H' ->] | [H' ->]]
      end; lra. }
  unfold quote, opposite in Hs. destruct (String.eqb side "YES"); lra.
Qed.

(** The range invariant without rounding: for every market whose two
    quotes lie in [[0.01, 0.99]], every side and every quantity [qty >= 0],
    the update succeeds and both new quotes lie in the range again.  Moreover
    the two new quotes sum to exactly 1: the chosen side was just capped at
    0.99, so one minus it is at least 0.01 and the lower clamp leaves it as
    it is. *)
Theorem price_impact_in_range_exact (m : Market) side (qty : Z) :
  in_range (yes_price m) -> in_range (no_price m) -> (0 <= qty)%Z ->
  exists m',
    apply_price_impact m side qty = Ok m'
    /\ in_range (yes_price m') /\ in_range (no_price m')
    /\ yes_price m' + no_price m' == 1.
Proof.
  intros [Hy1 Hy2] [Hn1 Hn2] Hq.
  destruct (price_impact_exact m side qty) as (m' & Hm' & Hc & Ho).
  destruct (impact_cases qty) as (Hi1 & Hi2 & _). specialize (Hi2 Hq).
  exists m'. split; [done|].
  match type of Hc with context [add _ ?x] => set (i := x) in * end.
  assert (Hin : in_range (quote m' side) /\ in_range (opposite m' side)
                /\ quote m' side + opposite m' side == 1).
  { rewrite Ho, Hc. cbn [lit add sub Exact.arith].
    assert (Hq0 : 0.01 <= quote m side) by (unfold quote; by destruct (String.eqb side "YES")).
    destruct (py_min_cases 0.99 (quote m side + i)) as [[H ->] | [H ->]];
      match goal with
      | |- context [py_max ?a ?b] =>
          destruct (py_max_cases a b) as [[H' ->] | [H' ->]]
      end; unfold in_range; repeat split; lra. }
  unfold quote, opposite in Hin. destruct (String.eqb side "YES");
    destruct Hin as (H1 & H2 & H3); repeat split; try apply H1; try apply H2; lra.
Qed.

(** The price impact of a fill without rounding.  With
    [impact = min(0.10, 0.001 * qty)] the update sets the chosen side's quote
    to [min(0.99, quote + impact)] and then the other side's quote to
    [max(0.01, 1 - new quote)], [min] and [max] being the mathematical ones.
    For [qty > 0] and a chosen-side quote of at most 0.99 the new quote is
    not below the old one, and it is strictly above it unless it is 0.99. *)
Theorem price_impact_moves_quote_exact (m : Market) side (qty : Z) :
  let impact := Qmin 0.10 (0.001 * inject_Z qty) in
  exists m',
    apply_price_impact m side qty = Ok m'
    /\ quote m' side == Qmin 0.99 (quote m side + impact)
    /\ opposite m' side == Qmax 0.01 (1 - quote m' side)
    /\ ((0 < qty)%Z -> quote m side <= 0.99 ->
        quote m side <= quote m' side
        /\ (quote m side < quote m' side \/ quote m' side == 0.99)).
Proof.
  intros impact.
  destruct (price_impact_exact m side qty) as (m' & Hm' & Hc & Ho).
  exists m'. split; [done|].
  match type of Hc with context [add _ ?x] => set (i := x) in * end.
  assert (Hi : i == impact) by apply py_min_Qmin.
  split; [|split].
  - rewrite Hc, py_min_Qmin. cbn [lit add Exact.arith]. by rewrite Hi.
  - rewrite Ho at 1. rewrite py_max_Qmax. cbn [lit sub Exact.arith].
    assert (H1 : 1.0 - quote m' side == 1 - quote m' side) by lra.
    by rewrite H1.
  - intros Hq Hle. destruct (impact_cases qty) as (_ & _ & Hi3). specialize (Hi3 Hq).
    fold i in Hi3. rewrite Hc. cbn [lit add Exact.arith].
    destruct (py_min_cases 0.99 (quote m side + i)) as [[H ->] | [H ->]].
    + split; [lra | left; lra].
    + split; [lra | right; reflexivity].
Qed.

(** Every ledger step keeps the balances non-negative, whatever the
    quantity: a fill needs [balance >= cost] before it debits. *)
Lemma ledger_step_balances env n db db' :
  ledger_step env n db db' -> balances_nonneg db -> balances_nonneg db'.
Proof.
  unfold balances_nonneg.
  intros [wa Hn -> | wa u mid m m' sd q Hu Hm Ho Hsd Hq Hb Hm' ->] Hdb; cbn [users with_new_user filled].
  - apply map_Forall_insert_2; [|done]. by vm_compute.
  - apply map_Forall_insert_2; [|done]. cbn [balance with_balance sub mul Exact.arith].
    apply lt_false in Hb. cbn [mul Exact.arith] in Hb. lra.
Qed.

(** Without rounding, balances are never negative in a world reachable
    from the empty or the seeded database through webhook requests.  Users start at 1000,
    and a fill debits [cost] only after the check [balance >= cost]. *)
Theorem balances_never_negative_exact w :
  reachable w -> balances_nonneg (store w).
Proof.
  apply (reachable_ind_ledger balances_nonneg).
  - apply map_Forall_empty.
  - unfold balances_nonneg, initial_store. rewrite seed_keeps_users.
    apply map_Forall_empty.
  - intros env db db'. apply ledger_step_balances.
Qed.

End ExactArithmetic.

(** ** Rounding to binary64 *)

Section Rounding.

(** *** Binary digits *)

Lemma digits2_size p : digits2_pos p = Pos.size p.
Proof. induction p; cbn; congruence. Qed.

Lemma digits_bounds p :
  2 ^ (Zpos (digits2_pos p) - 1) <= Zpos p < 2 ^ Zpos (digits2_pos p).
Proof.
  induction p as [p IH | p IH |]; cbn [digits2_pos].
  - rewrite Pos2Z.inj_succ.
    replace (Z.succ (Zpos (digits2_pos p)) - 1) with (Z.succ (Zpos (digits2_pos p) - 1)) by lia.
    rewrite !Z.pow_succ_r by lia. lia.
  - rewrite Pos2Z.inj_succ.
    replace (Z.succ (Zpos (digits2_pos p)) - 1) with (Z.succ (Zpos (digits2_pos p) - 1)) by lia.
    rewrite !Z.pow_succ_r by lia. lia.
  - cbn. lia.
Qed.

Lemma Zdigits2_pos p : Zdigits2 (Zpos p) = Zpos (digits2_pos p).
Proof. reflexivity. Qed.

(** digits of a positive integer are determined by its bounds *)
Lemma digits_unique p d : 2 ^ (d - 1) <= Zpos p < 2 ^ d -> Zpos (digits2_pos p) = d.
Proof.
  intros [H1 H2]. pose proof (digits_bounds p) as [H3 H4].
  assert (Hd0 : 0 < d).
  { destruct (Z.ltb_spec 0 d) as [|Hd]; [done|].
    destruct (Z.eq_dec d 0) as [-> | Hn]; [cbn in H2; lia|].
    rewrite Z.pow_neg_r in H2 by lia. lia. }
  destruct (Z.lt_trichotomy (Zpos (digits2_pos p)) d) as [Hc | [Hc | Hc]]; [|done|].
  - assert (2 ^ Zpos (digits2_pos p) <= 2 ^ (d - 1)) by (apply Z.pow_le_mono_r; lia). lia.
  - assert (2 ^ d <= 2 ^ (Zpos (digits2_pos p) - 1)) by (apply Z.pow_le_mono_r; lia). lia.
Qed.

(** *** Shifting right with a round bit and a sticky bit *)

Lemma iter_pos_nat {T} (f : T -> T) p x : SpecFloat.iter_pos f p x = Nat.iter (Pos.to_nat p) f x.
Proof.
  revert x. induction p as [p IH | p IH |]; intros x; cbn [SpecFloat.iter_pos].
  - rewrite !IH, Pos2Nat.inj_xI.
    replace (S (2 * Pos.to_nat p)) with (Pos.to_nat p + (Pos.to_nat p + 1))%nat by lia.
    by rewrite !Nat.iter_add.
  - rewrite !IH, Pos2Nat.inj_xO.
    replace (2 * Pos.to_nat p)%nat with (Pos.to_nat p + Pos.to_nat p)%nat by lia.
    by rewrite Nat.iter_add.
  - reflexivity.
Qed.

Lemma shr_1_spec m r s :
  0 <= m ->
  shr_1 (Build_shr_record m r s) = Build_shr_record (m / 2) (Z.odd m) (r || s).
Proof.
  intros Hm. rewrite <- Z.div2_div.
  destruct m as [|[p|p|]|]; try lia; reflexivity.
Qed.

Lemma mod_pow2_succ M n :
  0 <= n -> M mod 2 ^ (n + 1) = M mod 2 ^ n + 2 ^ n * Z.b2z (Z.testbit M n).
Proof.
  intros Hn. rewrite Z.pow_add_r, Z.pow_1_r by lia.
  rewrite Z.rem_mul_r by lia. by rewrite Z.testbit_spec' by lia.
Qed.

Lemma shr_iter n M :
  0 <= M ->
  Nat.iter (S n) shr_1 (Build_shr_record M false false)
  = Build_shr_record (M / 2 ^ Z.of_nat (S n)) (Z.testbit M (Z.of_nat n))
                     (negb (M mod 2 ^ Z.of_nat n =? 0)).
Proof.
  intros HM. induction n as [|n IH].
  - cbn [Nat.iter]. rewrite shr_1_spec by done. cbn [Z.of_nat orb].
    rewrite Z.pow_1_r, Z.bit0_odd. f_equal. cbn. by rewrite Z.mod_1_r.
  - rewrite Nat.iter_succ, IH. rewrite shr_1_spec by (apply Z.div_pos; lia).
    f_equal.
    + rewrite Z.div_div by lia. f_equal.
      rewrite (Nat2Z.inj_succ (S n)), Z.pow_succ_r by lia. lia.
    + rewrite Z.testbit_odd, Z.shiftr_div_pow2 by lia. reflexivity.
    + rewrite (Nat2Z.inj_succ n), <- Z.add_1_r, mod_pow2_succ by lia.
      pose proof (Z.mod_pos_bound M (2 ^ Z.of_nat n) ltac:(lia)) as Hb.
      assert (0 < 2 ^ Z.of_nat n) by lia.
      destruct (Z.testbit M (Z.of_nat n)); cbn [Z.b2z orb].
      * symmetry. apply negb_true_iff, Z.eqb_neq. lia.
      * by rewrite Z.mul_0_r, Z.add_0_r.
Qed.

Lemma shr_round k M :
  0 <= M -> 0 < k ->
  let mrs := SpecFloat.iter_pos shr_1 (Z.to_pos k) (Build_shr_record M false false) in
  round_nearest_even (shr_m mrs) (loc_of_shr_record mrs) = rne k M.
Proof.
  intros HM Hk mrs. subst mrs. rewrite iter_pos_nat.
  destruct (Pos.to_nat (Z.to_pos k)) as [|n] eqn:Hn; [lia|].
  assert (Hk' : k = Z.of_nat n + 1) by lia. subst k. clear Hn Hk.
  rewrite shr_iter by done. cbn [shr_m loc_of_shr_record]. unfold rne.
  rewrite Nat2Z.inj_succ, <- Z.add_1_r.
  rewrite mod_pow2_succ by lia.
  set (q := M / 2 ^ (Z.of_nat n + 1)).
  rewrite (Z.pow_add_r 2 (Z.of_nat n) 1), Z.pow_1_r by lia.
  pose proof (Z.mod_pos_bound M (2 ^ Z.of_nat n) ltac:(lia)) as Hb.
  assert (0 < 2 ^ Z.of_nat n) by lia.
  set (l := M mod 2 ^ Z.of_nat n) in *. set (h := 2 ^ Z.of_nat n) in *.
  destruct (Z.testbit M (Z.of_nat n)); cbn [Z.b2z];
    destruct (Z.eqb_spec l 0) as [Hl | Hl]; cbn [negb round_nearest_even].
  - replace (l + h * 1 =? 0) with false by (symmetry; apply Z.eqb_neq; lia).
    replace (2 * (l + h * 1) ?= h * 2) with Eq by (symmetry; apply Z.compare_eq_iff; lia).
    reflexivity.
  - replace (l + h * 1 =? 0) with false by (symmetry; apply Z.eqb_neq; lia).
    replace (2 * (l + h * 1) ?= h * 2) with Gt by (symmetry; apply Z.compare_gt_iff; lia).
    reflexivity.
  - replace (l + h * 0 =? 0) with true by (symmetry; apply Z.eqb_eq; lia).
    reflexivity.
  - replace (l + h * 0 =? 0) with false by (symmetry; apply Z.eqb_neq; lia).
    replace (2 * (l + h * 0) ?= h * 2) with Lt by (symmetry; apply Z.compare_lt_iff; lia).
    reflexivity.
Qed.

(** Properties of [rne]. *)

Lemma rne_0 M : rne 0 M = M.
Proof. unfold rne. cbn. rewrite Z.mod_1_r, Z.div_1_r. reflexivity. Qed.

Lemma rne_bounds k M :
  0 <= k -> M / 2 ^ k <= rne k M <= M / 2 ^ k + 1.
Proof.
  intros Hk. unfold rne. cbn zeta.
  destruct (M mod 2 ^ k =? 0); [lia|].
  destruct (2 * (M mod 2 ^ k) ?= 2 ^ k); [destruct (Z.even _)| |]; lia.
Qed.

Lemma rne_exact k N : 0 <= k -> rne k (N * 2 ^ k) = N.
Proof.
  intros Hk. unfold rne. cbn zeta.
  rewrite Z.mod_mul, Z.div_mul by lia. reflexivity.
Qed.

Lemma rne_scale k j M : 0 <= k -> 0 <= j -> rne (k + j) (M * 2 ^ j) = rne k M.
Proof.
  intros Hk Hj. unfold rne. cbn zeta.
  assert (H2j : 0 < 2 ^ j) by lia. assert (H2k : 0 < 2 ^ k) by lia.
  assert (Hq : M * 2 ^ j / 2 ^ (k + j) = M / 2 ^ k).
  { rewrite Z.pow_add_r by lia. apply Z.div_mul_cancel_r; lia. }
  assert (Hm : (M * 2 ^ j) mod 2 ^ (k + j) = M mod 2 ^ k * 2 ^ j).
  { rewrite Z.pow_add_r by lia. apply Z.mul_mod_distr_r; lia. }
  rewrite Hq, Hm. rewrite Z.pow_add_r by lia.
  set (r := M mod 2 ^ k). set (q := M / 2 ^ k).
  destruct (Z.eqb_spec r 0) as [Hr | Hr].
  - replace (r * 2 ^ j =? 0) with true by (symmetry; apply Z.eqb_eq; lia). reflexivity.
  - replace (r * 2 ^ j =? 0) with false by (symmetry; apply Z.eqb_neq; lia).
    replace (2 * (r * 2 ^ j) ?= 2 ^ k * 2 ^ j) with (2 * r ?= 2 ^ k); [reflexivity|].
    rewrite Z.mul_assoc. apply Zmult_compare_compat_r. lia.
Qed.

Lemma rne_mono k M1 M2 : 0 <= k -> M1 <= M2 -> rne k M1 <= rne k M2.
Proof.
  intros Hk HM.
  assert (H2k : 0 < 2 ^ k) by lia.
  pose proof (Z.div_le_mono M1 M2 (2 ^ k) H2k HM) as Hq.
  destruct (Z.eq_dec (M1 / 2 ^ k) (M2 / 2 ^ k)) as [He | Hne].
  - assert (Hr : M1 mod 2 ^ k <= M2 mod 2 ^ k).
    { rewrite !Z.mod_eq by lia. rewrite He. lia. }
    unfold rne. cbn zeta. rewrite He.
    pose proof (Z.mod_pos_bound M1 (2 ^ k) H2k).
    pose proof (Z.mod_pos_bound M2 (2 ^ k) H2k).
    set (r1 := M1 mod 2 ^ k) in *. set (r2 := M2 mod 2 ^ k) in *. set (q := M2 / 2 ^ k).
    destruct (Z.eqb_spec r1 0), (Z.eqb_spec r2 0); try lia;
      destruct (Z.compare_spec (2 * r1) (2 ^ k)), (Z.compare_spec (2 * r2) (2 ^ k));
      try lia; destruct (Z.even q); lia.
  - pose proof (rne_bounds k M1 Hk). pose proof (rne_bounds k M2 Hk). lia.
Qed.

Lemma rne_nonneg k M : 0 <= k -> 0 <= M -> 0 <= rne k M.
Proof.
  intros Hk HM. pose proof (rne_bounds k M Hk).
  assert (0 <= M / 2 ^ k) by (apply Z.div_pos; lia). lia.
Qed.

(** *** The rounding functions of SpecFloat, in closed form *)

Lemma fexp64_eq D : fexp64 D = Z.max (D - 53) (-1074).
Proof. reflexivity. Qed.

Lemma shr_fexp_round M e :
  0 <= M ->
  let '(mrs, e') := shr_fexp prec emax M e loc_Exact in
  (round_nearest_even (shr_m mrs) (loc_of_shr_record mrs), e') = round_fexp M e.
Proof.
  intros HM. unfold shr_fexp, round_fexp, shr. cbn [shr_record_of_loc].
  destruct (fexp64 (Zdigits2 M + e) - e) as [|k|k] eqn:Hk; try reflexivity.
  replace (0 <? Z.pos k) with true by (symmetry; apply Z.ltb_lt; lia).
  f_equal. apply (shr_round (Zpos k) M HM). lia.
Qed.

Lemma shr_fexp_trunc M e :
  0 <= M ->
  let '(mrs, e') := shr_fexp prec emax M e loc_Exact in
  (shr_m mrs, e') = trunc_fexp M e.
Proof.
  intros HM. unfold shr_fexp, trunc_fexp, shr. cbn [shr_record_of_loc].
  destruct (fexp64 (Zdigits2 M + e) - e) as [|k|k] eqn:Hk; try reflexivity.
  replace (0 <? Z.pos k) with true by (symmetry; apply Z.ltb_lt; lia).
  f_equal. rewrite iter_pos_nat.
  destruct (Pos.to_nat k) as [|n] eqn:Hn; [lia|].
  rewrite shr_iter by done. cbn [shr_m]. f_equal. f_equal. lia.
Qed.

Lemma round_fexp_nonneg M e : 0 <= M -> 0 <= fst (round_fexp M e).
Proof.
  intros HM. unfold round_fexp. cbn zeta.
  destruct (Z.ltb_spec 0 (fexp64 (Zdigits2 M + e) - e)); cbn [fst]; [|done].
  apply rne_nonneg; lia.
Qed.

Lemma binary_round_aux_spec s M e :
  0 <= M ->
  binary_round_aux prec emax s M e loc_Exact
  = pack s (let '(m2, e2) := round_fexp M e in trunc_fexp m2 e2).
Proof.
  intros HM. unfold binary_round_aux.
  pose proof (shr_fexp_round M e HM) as H1.
  pose proof (round_fexp_nonneg M e HM) as Hm2.
  destruct (shr_fexp prec emax M e loc_Exact) as [mrs e'].
  rewrite <- H1 in *. clear H1. cbn [fst] in Hm2.
  pose proof (shr_fexp_trunc _ e' Hm2) as H2.
  destruct (shr_fexp prec emax _ e' loc_Exact) as [mrs' e''].
  rewrite <- H2. reflexivity.
Qed.

(** *** Normal form of a rounded positive integer *)

Lemma Zdigits2_bounds M : 0 < M -> 2 ^ (Zdigits2 M - 1) <= M < 2 ^ Zdigits2 M.
Proof. destruct M as [|p|p]; try lia. intros _. apply digits_bounds. Qed.

Lemma Zdigits2_unique M d : 0 < M -> 2 ^ (d - 1) <= M < 2 ^ d -> Zdigits2 M = d.
Proof. destruct M as [|p|p]; try lia. intros _. apply digits_unique. Qed.

Lemma Zdigits2_pos_lt M : 0 < M -> 0 < Zdigits2 M.
Proof. destruct M; cbn; lia. Qed.

Lemma Zdigits2_shift M j : 0 < M -> 0 <= j -> Zdigits2 (M * 2 ^ j) = Zdigits2 M + j.
Proof.
  intros HM Hj. pose proof (Zdigits2_bounds M HM) as [H1 H2].
  pose proof (Zdigits2_pos_lt M HM).
  apply Zdigits2_unique; [lia|].
  replace (Zdigits2 M + j - 1) with (Zdigits2 M - 1 + j) by lia.
  rewrite !Z.pow_add_r by lia. nia.
Qed.

Lemma Zdigits2_mono M1 M2 : 0 < M1 -> M1 <= M2 -> Zdigits2 M1 <= Zdigits2 M2.
Proof.
  intros H1 H12. pose proof (Zdigits2_bounds M1 H1) as [Ha Hb].
  pose proof (Zdigits2_bounds M2 ltac:(lia)) as [Hc Hd].
  destruct (Z.le_gt_cases (Zdigits2 M1) (Zdigits2 M2)) as [|Hgt]; [done|].
  assert (2 ^ Zdigits2 M2 <= 2 ^ (Zdigits2 M1 - 1)) by (apply Z.pow_le_mono_r; lia).
  lia.
Qed.

Lemma mant_bounds M e : 0 < M -> 0 <= mant M e <= 2 ^ 53.
Proof.
  intros HM. unfold mant. cbn zeta. rewrite fexp64_eq.
  pose proof (Zdigits2_bounds M HM) as [H1 H2]. pose proof (Zdigits2_pos_lt M HM) as Hd.
  set (d := Zdigits2 M) in *. set (E := Z.max (d + e - 53) (-1074)).
  destruct (Z.leb_spec e E) as [Hle | Hgt].
  - pose proof (rne_bounds (E - e) M ltac:(lia)) as [Hl Hu].
    assert (0 <= M / 2 ^ (E - e)) by (apply Z.div_pos; lia).
    assert (M / 2 ^ (E - e) < 2 ^ 53).
    { apply Z.div_lt_upper_bound; [lia|].
      rewrite <- Z.pow_add_r by lia.
      assert (2 ^ d <= 2 ^ (E - e + 53)) by (apply Z.pow_le_mono_r; lia). lia. }
    lia.
  - split; [lia|].
    assert (M * 2 ^ (e - E) < 2 ^ d * 2 ^ (e - E)) by (apply Z.mul_lt_mono_pos_r; lia).
    rewrite <- Z.pow_add_r in * by lia.
    assert (2 ^ (d + (e - E)) <= 2 ^ 53) by (apply Z.pow_le_mono_r; lia). lia.
Qed.

Lemma trunc_fexp_normal m E :
  0 <= m <= 2 ^ 53 -> -1074 <= E -> trunc_fexp m E = normal_form m E.
Proof.
  intros [H0 H53] HE. unfold trunc_fexp, normal_form. cbn zeta. rewrite fexp64_eq.
  destruct (Z.eqb_spec m (2 ^ 53)) as [-> | Hne].
  - change (Zdigits2 (2 ^ 53)) with 54.
    replace (Z.max (54 + E - 53) (-1074) - E) with 1 by lia.
    reflexivity.
  - destruct (Z.eq_dec m 0) as [-> | Hm0].
    + cbn [Zdigits2]. destruct (Z.ltb_spec 0 (Z.max (0 + E - 53) (-1074) - E)); [lia|done].
    + assert (Hd : Zdigits2 m <= 53).
      { pose proof (Zdigits2_bounds m ltac:(lia)) as [Hl _].
        destruct (Z.le_gt_cases (Zdigits2 m) 53) as [|Hgt]; [done|].
        assert (2 ^ 53 <= 2 ^ (Zdigits2 m - 1)) by (apply Z.pow_le_mono_r; lia). lia. }
      destruct (Z.ltb_spec 0 (Z.max (Zdigits2 m + E - 53) (-1074) - E)); [lia|done].
Qed.

Lemma binary_round_aux_regime s M e :
  0 < M -> e <= fexp64 (Zdigits2 M + e) ->
  binary_round_aux prec emax s M e loc_Exact = pack s (RN M e).
Proof.
  intros HM He. rewrite binary_round_aux_spec by lia. f_equal.
  unfold RN, mant. cbn zeta.
  replace (e <=? fexp64 (Zdigits2 M + e)) with true by (symmetry; apply Z.leb_le; lia).
  assert (HE : -1074 <= fexp64 (Zdigits2 M + e)) by (rewrite fexp64_eq; lia).
  pose proof (mant_bounds M e HM) as Hb. unfold mant in Hb. cbn zeta in Hb.
  replace (e <=? fexp64 (Zdigits2 M + e)) with true in Hb by (symmetry; apply Z.leb_le; lia).
  unfold round_fexp. cbn zeta.
  destruct (Z.ltb_spec 0 (fexp64 (Zdigits2 M + e) - e)) as [Hk | Hk].
  - replace (e + (fexp64 (Zdigits2 M + e) - e)) with (fexp64 (Zdigits2 M + e)) by lia.
    by apply trunc_fexp_normal.
  - assert (Heq : fexp64 (Zdigits2 M + e) = e) by lia.
    rewrite Heq in *. rewrite Z.sub_diag, rne_0 in *.
    by apply trunc_fexp_normal.
Qed.

Lemma shl_align_spec mx ex ex' :
  (Zpos (fst (shl_align mx ex ex')), snd (shl_align mx ex ex'))
  = if ex' <? ex then (Zpos mx * 2 ^ (ex - ex'), ex') else (Zpos mx, ex).
Proof.
  unfold shl_align.
  destruct (ex' - ex) as [|d|d] eqn:Hd.
  - replace (ex' <? ex) with false by (symmetry; apply Z.ltb_ge; lia). reflexivity.
  - replace (ex' <? ex) with false by (symmetry; apply Z.ltb_ge; lia). reflexivity.
  - replace (ex' <? ex) with true by (symmetry; apply Z.ltb_lt; lia). cbn [fst snd].
    f_equal. change (Pos.iter xO mx d) with (shift_pos d mx).
    rewrite shift_pos_correct. replace (ex - ex') with (Zpos d) by lia.
    rewrite Z.mul_comm. reflexivity.
Qed.

Lemma binary_round_spec s (m : positive) e :
  binary_round prec emax s m e = pack s (RN (Zpos m) e).
Proof.
  unfold binary_round.
  pose proof (shl_align_spec m e (fexp64 (Zpos (digits2_pos m) + e))) as Hs.
  destruct (shl_align m e _) as [mz ez]. cbn [fst snd] in Hs.
  change (Zpos (digits2_pos m)) with (Zdigits2 (Zpos m)) in *.
  set (E := fexp64 (Zdigits2 (Zpos m) + e)) in *.
  destruct (Z.ltb_spec E e) as [Hlt | Hge].
  - injection Hs as Hmz Hez. subst ez.
    assert (HD : Zdigits2 (Zpos mz) + E = Zdigits2 (Zpos m) + e).
    { rewrite Hmz, Zdigits2_shift by lia. lia. }
    rewrite binary_round_aux_regime; [|lia|rewrite HD; fold E; lia].
    f_equal. unfold RN, mant. cbn zeta. rewrite HD. fold E.
    rewrite Z.leb_refl, Z.sub_diag, rne_0.
    replace (e <=? E) with false by (symmetry; apply Z.leb_gt; lia).
    by rewrite Hmz.
  - injection Hs as Hmz Hez. subst ez. rewrite Hmz.
    rewrite binary_round_aux_regime; [done|lia|fold E; lia].
Qed.

(** *** Rounding depends on the value only, is monotone and idempotent *)

Lemma RN_shift M e j : 0 < M -> 0 <= j -> RN (M * 2 ^ j) (e - j) = RN M e.
Proof.
  intros HM Hj. unfold RN, mant. cbn zeta.
  rewrite Zdigits2_shift by lia.
  replace (Zdigits2 M + j + (e - j)) with (Zdigits2 M + e) by lia.
  set (E := fexp64 (Zdigits2 M + e)).
  f_equal.
  destruct (Z.leb_spec (e - j) E) as [H1 | H1], (Z.leb_spec e E) as [H2 | H2]; try lia.
  - replace (E - (e - j)) with (E - e + j) by lia. apply rne_scale; lia.
  - replace (M * 2 ^ j) with (M * 2 ^ (e - E) * 2 ^ (E - (e - j))).
    + apply rne_exact. lia.
    + rewrite <- Z.mul_assoc, <- Z.pow_add_r by lia. do 2 f_equal. lia.
  - rewrite <- Z.mul_assoc, <- Z.pow_add_r by lia. do 2 f_equal. lia.
Qed.

Lemma SFleb_pack m1 e1 m2 e2 :
  0 <= m1 -> 0 <= m2 ->
  m1 = 0 \/ (e1 < e2 /\ 0 < m2) \/ (e1 = e2 /\ m1 <= m2) ->
  SFleb (pack false (m1, e1)) (pack false (m2, e2)) = true.
Proof.
  intros H1 H2 H. unfold pack. cbn [fst snd].
  destruct m1 as [|p1|p1]; try lia; destruct m2 as [|p2|p2]; try lia.
  - reflexivity.
  - by destruct (e2 <=? emax - prec).
  - destruct H as [H | [[H _] | [-> H]]]; [lia| |].
    + destruct (Z.leb_spec e1 (emax - prec)), (Z.leb_spec e2 (emax - prec)); try reflexivity.
      * unfold SFleb, SFcompare. by replace (e1 ?= e2) with Lt by (symmetry; apply Z.compare_lt_iff; lia).
      * lia.
    + destruct (Z.leb_spec e2 (emax - prec)); [|reflexivity].
      unfold SFleb, SFcompare. rewrite Z.compare_refl.
      change (Pos.compare_cont Eq p1 p2) with (Pos.compare p1 p2).
      destruct (Pos.compare_spec p1 p2); try reflexivity. lia.
Qed.

Lemma fexp64_mono D1 D2 : D1 <= D2 -> fexp64 D1 <= fexp64 D2.
Proof. rewrite !fexp64_eq. lia. Qed.

(** In the normal range the mantissa has its leading bit. *)
Lemma mant_normal M e :
  0 < M -> -1074 < fexp64 (Zdigits2 M + e) -> 2 ^ 52 <= mant M e.
Proof.
  intros HM HE. unfold mant. cbn zeta. rewrite fexp64_eq in *.
  pose proof (Zdigits2_bounds M HM) as [H1 H2].
  pose proof (Zdigits2_pos_lt M HM) as Hd.
  set (d := Zdigits2 M) in *.
  assert (HEe : Z.max (d + e - 53) (-1074) = d + e - 53) by lia. rewrite HEe.
  destruct (Z.leb_spec e (d + e - 53)) as [Hle | Hgt].
  - pose proof (rne_bounds (d + e - 53 - e) M ltac:(lia)) as [Hl _].
    assert (2 ^ 52 <= M / 2 ^ (d + e - 53 - e)); [|lia].
    apply Z.div_le_lower_bound; [lia|].
    rewrite <- Z.pow_add_r by lia.
    replace (d + e - 53 - e + 52) with (d - 1) by lia. done.
  - replace (e - (d + e - 53)) with (53 - d) by lia.
    assert (Hp : 2 ^ (d - 1) * 2 ^ (53 - d) <= M * 2 ^ (53 - d))
      by (apply Z.mul_le_mono_nonneg_r; lia).
    rewrite <- Z.pow_add_r in Hp by lia.
    replace (d - 1 + (53 - d)) with 52 in Hp by lia. done.
Qed.

Lemma mant_mono M1 M2 e :
  0 < M1 -> M1 <= M2 -> fexp64 (Zdigits2 M1 + e) = fexp64 (Zdigits2 M2 + e) ->
  mant M1 e <= mant M2 e.
Proof.
  intros H1 H12 HE. unfold mant. cbn zeta. rewrite HE.
  set (E := fexp64 (Zdigits2 M2 + e)).
  destruct (Z.leb_spec e E).
  - apply rne_mono; lia.
  - apply Z.mul_le_mono_nonneg_r; lia.
Qed.

Lemma RN_mono M1 M2 e :
  0 < M1 -> M1 <= M2 ->
  SFleb (pack false (RN M1 e)) (pack false (RN M2 e)) = true.
Proof.
  intros H1 H12. assert (H2 : 0 < M2) by lia.
  pose proof (mant_bounds M1 e H1) as Hb1. pose proof (mant_bounds M2 e H2) as Hb2.
  pose proof (Zdigits2_mono M1 M2 H1 H12) as Hd.
  pose proof (fexp64_mono (Zdigits2 M1 + e) (Zdigits2 M2 + e) ltac:(lia)) as HE.
  unfold RN.
  set (E1 := fexp64 (Zdigits2 M1 + e)) in *. set (E2 := fexp64 (Zdigits2 M2 + e)) in *.
  set (m1 := mant M1 e) in *. set (m2 := mant M2 e) in *.
  assert (HE1 : -1074 <= E1) by (subst E1; rewrite fexp64_eq; lia).
  destruct (Z.eq_dec E1 E2) as [Heq | Hne].
  - assert (Hm : m1 <= m2) by (by apply mant_mono).
    unfold normal_form. rewrite <- Heq.
    destruct (Z.eqb_spec m1 (2 ^ 53)), (Z.eqb_spec m2 (2 ^ 53));
      apply SFleb_pack; lia.
  - assert (Hn2 : 2 ^ 52 <= m2) by (apply mant_normal; [done | fold E2; lia]).
    unfold normal_form.
    destruct (Z.eqb_spec m1 (2 ^ 53)), (Z.eqb_spec m2 (2 ^ 53));
      apply SFleb_pack; lia.
Qed.

Lemma RN_canonical (m : positive) e :
  canonical_mantissa prec emax m e = true -> RN (Zpos m) e = (Zpos m, e).
Proof.
  unfold canonical_mantissa. intros H. apply Z.eqb_eq in H.
  change (Zpos (digits2_pos m)) with (Zdigits2 (Zpos m)) in H.
  unfold RN, mant. cbn zeta. rewrite H, Z.leb_refl, Z.sub_diag, rne_0.
  unfold normal_form.
  destruct (Z.eqb_spec (Zpos m) (2 ^ 53)) as [Hm | Hm]; [|done].
  exfalso. rewrite Hm in H. change (Zdigits2 (2 ^ 53)) with 54 in H.
  rewrite fexp64_eq in H. lia.
Qed.

Lemma pack_valid s (m : positive) e :
  valid_binary (S754_finite s m e) = true -> pack s (RN (Zpos m) e) = S754_finite s m e.
Proof.
  cbn [SpecFloat.valid_binary]. unfold bounded. intros H.
  apply andb_true_iff in H as [Hc Hb].
  rewrite (RN_canonical m e Hc). unfold pack. cbn [fst snd].
  by rewrite Hb.
Qed.

(** Validity of the rounded result *)

Lemma RN_fst_nonneg M e : 0 < M -> 0 <= fst (RN M e).
Proof.
  intros HM. pose proof (mant_bounds M e HM). unfold RN, normal_form.
  destruct (mant M e =? 2 ^ 53); cbn [fst]; lia.
Qed.

Lemma RN_canonical_out M e (m : positive) ef :
  0 < M -> RN M e = (Zpos m, ef) -> canonical_mantissa prec emax m ef = true.
Proof.
  intros HM HR. unfold canonical_mantissa. apply Z.eqb_eq.
  change (Zpos (digits2_pos m)) with (Zdigits2 (Zpos m)).
  unfold RN, normal_form in HR.
  pose proof (mant_bounds M e HM) as [Hb0 Hb1].
  set (E := fexp64 (Zdigits2 M + e)) in *.
  assert (HE : -1074 <= E) by (subst E; rewrite fexp64_eq; lia).
  destruct (Z.eqb_spec (mant M e) (2 ^ 53)) as [Hc | Hc].
  - assert (Hm : Zpos m = 2 ^ 52) by congruence.
    assert (Hef : ef = E + 1) by congruence.
    rewrite Hm, Hef. change (Zdigits2 (2 ^ 52)) with 53.
    rewrite fexp64_eq. lia.
  - assert (Hm : mant M e = Zpos m) by congruence.
    assert (Hef : ef = E) by congruence. rewrite Hef. clear HR.
    assert (Hlt : Zpos m < 2 ^ 53) by lia.
    assert (Hd : Zdigits2 (Zpos m) <= 53).
    { pose proof (Zdigits2_bounds (Zpos m) ltac:(lia)) as [Hl _].
      destruct (Z.le_gt_cases (Zdigits2 (Zpos m)) 53) as [|Hgt]; [done|].
      assert (2 ^ 53 <= 2 ^ (Zdigits2 (Zpos m) - 1)) by (apply Z.pow_le_mono_r; lia). lia. }
    destruct (Z.eq_dec E (-1074)) as [HEq | HEn].
    + rewrite fexp64_eq. lia.
    + assert (Hn : 2 ^ 52 <= mant M e) by (apply mant_normal; [done | fold E; lia]).
      rewrite Hm in Hn.
      assert (Zdigits2 (Zpos m) = 53); [|rewrite fexp64_eq; lia].
      apply Zdigits2_unique; [lia|]. change (53 - 1) with 52. lia.
Qed.

Lemma pack_RN_valid s M e : 0 < M -> valid_binary (pack s (RN M e)) = true.
Proof.
  intros HM. unfold pack.
  destruct (RN M e) as [mf ef] eqn:HR. cbn [fst snd].
  destruct mf as [|m|m]; try reflexivity.
  destruct (Z.leb_spec ef (emax - prec)) as [Hle | Hgt]; [|reflexivity].
  cbn [SpecFloat.valid_binary]. unfold bounded.
  rewrite (RN_canonical_out M e m ef HM HR). cbn [andb]. by apply Z.leb_le.
Qed.

Lemma pack_shape m e : 0 <= m -> nonneg_shape (pack false (m, e)).
Proof.
  intros Hm. unfold pack. cbn [fst snd].
  destruct m; try lia; [constructor|]. destruct (_ <=? _); constructor.
Qed.

(** *** Values as integers *)

Lemma RN_val M e : 0 < M -> -2200 <= e -> RN (val M e) (-2200) = RN M e.
Proof.
  intros HM He. unfold val.
  replace (-2200) with (e - (e + 2200)) by lia. apply RN_shift; lia.
Qed.

Lemma val_pos M e : 0 < M -> -2200 <= e -> 0 < val M e.
Proof. intros. unfold val. apply Z.mul_pos_pos; [done|]. apply Z.pow_pos_nonneg; lia. Qed.

(** A number kept at a lower exponent has the same value. *)
Lemma val_shift M e j : 0 <= j -> -2200 <= e - j -> val (M * 2 ^ j) (e - j) = val M e.
Proof.
  intros Hj He. unfold val. rewrite <- Z.mul_assoc, <- Z.pow_add_r by lia.
  do 2 f_equal. lia.
Qed.

Lemma pack_mono M1 e1 M2 e2 :
  0 < M1 -> -2200 <= e1 -> -2200 <= e2 -> val M1 e1 <= val M2 e2 ->
  SFleb (pack false (RN M1 e1)) (pack false (RN M2 e2)) = true.
Proof.
  intros H1 He1 He2 Hv.
  assert (H2 : 0 < M2).
  { pose proof (val_pos M1 e1 H1 He1). unfold val in *.
    assert (0 < 2 ^ (e2 + 2200)) by (apply Z.pow_pos_nonneg; lia). nia. }
  rewrite <- (RN_val M1 e1), <- (RN_val M2 e2) by done.
  apply RN_mono; [by apply val_pos | done].
Qed.

(** Order of finite positive floats *)

Lemma SFcompare_finite m1 e1 m2 e2 :
  SFcompare (S754_finite false m1 e1) (S754_finite false m2 e2)
  = Some (match e1 ?= e2 with Lt => Lt | Gt => Gt | Eq => (m1 ?= m2)%positive end).
Proof. reflexivity. Qed.

Lemma valid_finite_ge s m e : valid_binary (S754_finite s m e) = true -> -1074 <= e.
Proof.
  cbn [SpecFloat.valid_binary]. unfold bounded, canonical_mantissa.
  intros H. apply andb_true_iff in H as [H _]. apply Z.eqb_eq in H.
  rewrite fexp64_eq in H. lia.
Qed.

Lemma SFleb_val m1 e1 m2 e2 :
  valid_binary (S754_finite false m1 e1) = true ->
  valid_binary (S754_finite false m2 e2) = true ->
  SFleb (S754_finite false m1 e1) (S754_finite false m2 e2) = true
  <-> val (Zpos m1) e1 <= val (Zpos m2) e2.
Proof.
  intros Hv1 Hv2.
  pose proof (valid_finite_ge _ _ _ Hv1). pose proof (valid_finite_ge _ _ _ Hv2).
  assert (Hle : forall ma ea mb eb,
             valid_binary (S754_finite false ma ea) = true ->
             valid_binary (S754_finite false mb eb) = true ->
             val (Zpos ma) ea <= val (Zpos mb) eb ->
             SFleb (S754_finite false ma ea) (S754_finite false mb eb) = true).
  { intros ma ea mb eb Ha Hb Hv.
    rewrite <- (pack_valid false ma ea Ha), <- (pack_valid false mb eb Hb).
    apply pack_mono; try done; eapply Z.le_trans; [|by eapply valid_finite_ge| |by eapply valid_finite_ge]; lia. }
  split; [|by apply Hle].
  intros H12. destruct (Z.le_gt_cases (val (Zpos m1) e1) (val (Zpos m2) e2)) as [|Hgt]; [done|].
  exfalso. assert (H21 := Hle m2 e2 m1 e1 Hv2 Hv1 ltac:(lia)).
  unfold SFleb in *. rewrite SFcompare_finite in *.
  destruct (Z.compare_spec e1 e2) as [He | He | He];
    destruct (Z.compare_spec e2 e1) as [He' | He' | He']; try lia; try discriminate.
  subst e2. destruct (Pos.compare_spec m1 m2) as [Hm | Hm | Hm];
    destruct (Pos.compare_spec m2 m1) as [Hm' | Hm' | Hm']; try lia; try discriminate.
  subst m2. lia.
Qed.

Lemma SFltb_not_leb m1 e1 m2 e2 :
  SFltb (S754_finite false m1 e1) (S754_finite false m2 e2)
  = negb (SFleb (S754_finite false m2 e2) (S754_finite false m1 e1)).
Proof.
  unfold SFltb, SFleb. rewrite !SFcompare_finite.
  rewrite (Z.compare_antisym e1 e2), (Pos.compare_antisym m1 m2).
  destruct (e1 ?= e2); cbn; try reflexivity.
  destruct (m1 ?= m2)%positive; reflexivity.
Qed.

Lemma SFltb_val m1 e1 m2 e2 :
  valid_binary (S754_finite false m1 e1) = true ->
  valid_binary (S754_finite false m2 e2) = true ->
  SFltb (S754_finite false m1 e1) (S754_finite false m2 e2) = true
  <-> val (Zpos m1) e1 < val (Zpos m2) e2.
Proof.
  intros Hv1 Hv2. rewrite SFltb_not_leb, negb_true_iff.
  pose proof (SFleb_val m2 e2 m1 e1 Hv2 Hv1) as H.
  destruct (SFleb (S754_finite false m2 e2) (S754_finite false m1 e1)).
  - split; [discriminate|]. intros. assert (val (Zpos m2) e2 <= val (Zpos m1) e1) by by apply H. lia.
  - split; [|done]. intros _.
    destruct (Z.le_gt_cases (val (Zpos m2) e2) (val (Zpos m1) e1)) as [Hc|]; [|lia].
    apply H in Hc. discriminate.
Qed.

(** *** Sum and difference of two positive doubles *)

Lemma aligned_mantissa mx ex ez :
  ez <= ex -> Zpos (fst (shl_align mx ex ez)) = Zpos mx * 2 ^ (ex - ez).
Proof.
  intros Hz. pose proof (shl_align_spec mx ex ez) as H.
  destruct (Z.ltb_spec ez ex).
  - by injection H as ->.
  - injection H as -> _. replace (ex - ez) with 0 by lia. lia.
Qed.

Lemma val_aligned mx ex ez :
  ez <= ex -> -2200 <= ez -> val (Zpos mx * 2 ^ (ex - ez)) ez = val (Zpos mx) ex.
Proof.
  intros Hz Hb. replace ez with (ex - (ex - ez)) at 2 by lia. apply val_shift; lia.
Qed.

Lemma SFadd_finite mx ex my ey :
  let ez := Z.min ex ey in
  let S := Zpos mx * 2 ^ (ex - ez) + Zpos my * 2 ^ (ey - ez) in
  SF64add (S754_finite false mx ex) (S754_finite false my ey) = pack false (RN S ez)
  /\ 0 < S
  /\ (-2200 <= ez -> val S ez = val (Zpos mx) ex + val (Zpos my) ey).
Proof.
  intros ez S. subst S.
  rewrite <- !aligned_mantissa by lia.
  split; [|split].
  - unfold SF64add, SFadd. cbn [cond_Zopp]. fold ez.
    rewrite <- Pos2Z.inj_add. cbn [binary_normalize]. by rewrite binary_round_spec.
  - lia.
  - intros Hb. rewrite !aligned_mantissa by lia. unfold val at 1.
    rewrite Z.mul_add_distr_r. fold (val (Zpos mx * 2 ^ (ex - ez)) ez).
    fold (val (Zpos my * 2 ^ (ey - ez)) ez).
    rewrite !val_aligned by lia. reflexivity.
Qed.

Lemma SFsub_finite mx ex my ey :
  let ez := Z.min ex ey in
  let D := Zpos mx * 2 ^ (ex - ez) - Zpos my * 2 ^ (ey - ez) in
  (-2200 <= ez -> val D ez = val (Zpos mx) ex - val (Zpos my) ey)
  /\ (0 < D -> SF64sub (S754_finite false mx ex) (S754_finite false my ey) = pack false (RN D ez))
  /\ (D = 0 -> SF64sub (S754_finite false mx ex) (S754_finite false my ey) = S754_zero false).
Proof.
  intros ez D. subst D.
  split; [|split].
  - intros Hb. unfold val at 1.
    rewrite Z.mul_sub_distr_r. fold (val (Zpos mx * 2 ^ (ex - ez)) ez).
    fold (val (Zpos my * 2 ^ (ey - ez)) ez).
    rewrite !val_aligned by lia. reflexivity.
  - rewrite <- !aligned_mantissa by lia. intros HD.
    unfold SF64sub, SFsub. cbn [cond_Zopp]. fold ez.
    destruct (Zpos (fst (shl_align mx ex ez)) - Zpos (fst (shl_align my ey ez))) as [|d|d] eqn:Hd;
      try lia.
    cbn [binary_normalize]. by rewrite binary_round_spec.
  - rewrite <- !aligned_mantissa by lia. intros HD.
    unfold SF64sub, SFsub. cbn [cond_Zopp]. fold ez. by rewrite HD.
Qed.

(** The mantissa of a double has at most 53 bits, and exactly 53 above the
    subnormal range. *)
Lemma valid_mantissa s m e :
  valid_binary (S754_finite s m e) = true ->
  (-1074 <= e)%Z /\ (Zpos m < 2 ^ 53)%Z /\ ((-1074 < e)%Z -> (2 ^ 52 <= Zpos m)%Z).
Proof.
  cbn [SpecFloat.valid_binary]. unfold bounded, canonical_mantissa.
  intros H. apply andb_true_iff in H as [H _]. apply Z.eqb_eq in H.
  rewrite fexp64_eq in H. pose proof (digits_bounds m) as [Hl Hu].
  split; [lia|]. split.
  - assert (2 ^ Zpos (digits2_pos m) <= 2 ^ 53)%Z by (apply Z.pow_le_mono_r; lia). lia.
  - intros He. assert (Zpos (digits2_pos m) = 53)%Z as Hd by lia.
    rewrite Hd in Hl. exact Hl.
Qed.

Lemma trunc_fexp_nonneg M e : (0 <= M)%Z -> (0 <= fst (trunc_fexp M e))%Z.
Proof.
  intros HM. unfold trunc_fexp. cbv zeta.
  destruct (0 <? _)%Z eqn:Hk; cbn [fst]; [|done].
  apply Z.ltb_lt in Hk.
  apply Z.div_pos; [done|]. apply Z.pow_pos_nonneg; lia.
Qed.

(** Bounds of the value of a double by its exponent. *)
Lemma val_upper s m e :
  valid_binary (S754_finite s m e) = true -> (val (Zpos m) e < 2 ^ (e + 53 + 2200))%Z.
Proof.
  intros V. destruct (valid_mantissa _ _ _ V) as (He & Hm & _). unfold val.
  replace (e + 53 + 2200)%Z with (53 + (e + 2200))%Z by lia.
  rewrite (Z.pow_add_r 2 53 (e + 2200)) by lia.
  apply Z.mul_lt_mono_pos_r; [apply Z.pow_pos_nonneg; lia | done].
Qed.

Lemma val_lower s m e :
  valid_binary (S754_finite s m e) = true -> (-1074 < e)%Z ->
  (2 ^ (e + 52 + 2200) <= val (Zpos m) e)%Z.
Proof.
  intros V He. destruct (valid_mantissa _ _ _ V) as (_ & _ & Hm). unfold val.
  replace (e + 52 + 2200)%Z with (52 + (e + 2200))%Z by lia.
  rewrite (Z.pow_add_r 2 52 (e + 2200)) by lia.
  apply Z.mul_le_mono_nonneg_r; [apply Z.pow_nonneg; lia | by apply Hm].
Qed.

(** The next double above a positive one. *)
Lemma succ_repr m e :
  valid_binary (S754_finite false m e) = true ->
  exists m' e',
    RN (Zpos m + 1) e = (Zpos m', e')
    /\ val (Zpos m') e' = val (Zpos m + 1) e
    /\ canonical_mantissa prec emax m' e' = true.
Proof.
  intros V. destruct (valid_mantissa _ _ _ V) as (He & Hm & Hn).
  destruct (Z.eq_dec (Zpos m + 1) (2 ^ 53)) as [Htop | Htop].
  - exists 4503599627370496%positive, (e + 1)%Z.
    assert (Hc : canonical_mantissa prec emax 4503599627370496 (e + 1) = true).
    { unfold canonical_mantissa. apply Z.eqb_eq.
      change (Zpos (digits2_pos 4503599627370496)) with 53%Z. rewrite fexp64_eq. lia. }
    split; [|split; [|done]].
    + rewrite Htop. change (2 ^ 53)%Z with (2 ^ 52 * 2 ^ 1)%Z.
      replace e with (e + 1 - 1)%Z at 1 by lia.
      rewrite RN_shift by lia. by apply RN_canonical.
    + rewrite Htop. unfold val. replace (e + 1 + 2200)%Z with (1 + (e + 2200))%Z by lia.
      rewrite (Z.pow_add_r 2 1 (e + 2200)) by lia. change (2 ^ 53)%Z with (2 ^ 52 * 2 ^ 1)%Z.
      change (Zpos 4503599627370496) with (2 ^ 52)%Z. ring.
  - exists (m + 1)%positive, e. rewrite Pos2Z.inj_add.
    assert (Hc : canonical_mantissa prec emax (m + 1) e = true).
    { cbn [valid_binary] in V. unfold bounded in V. apply andb_true_iff in V as [V _].
      unfold canonical_mantissa in *. apply Z.eqb_eq in V. apply Z.eqb_eq.
      change (Zpos (digits2_pos ?p)) with (Zdigits2 (Zpos p)) in *.
      rewrite fexp64_eq in *.
      assert (Zdigits2 (Zpos m) <= Zdigits2 (Zpos (m + 1)))%Z
        by (apply Zdigits2_mono; lia).
      assert (Zdigits2 (Zpos (m + 1)) <= 53)%Z.
      { change 53%Z with (Zdigits2 (2 ^ 53 - 1)). apply Zdigits2_mono; lia. }
      lia. }
    split; [|split; [reflexivity|done]].
    rewrite <- Pos2Z.inj_add. by apply RN_canonical.
Qed.

Lemma pack_sign s me :
  pack s me = match pack false me with
              | S754_zero _ => S754_zero s
              | S754_infinity _ => S754_infinity s
              | S754_finite _ m e => S754_finite s m e
              | S754_nan => S754_nan
              end.
Proof. unfold pack. destruct (fst me); [done| |done]. by destruct (_ <=? _)%Z. Qed.

Lemma pack_max_int : pack false (RN max_int 0) = S754_finite false 9007199254740991 971.
Proof. vm_compute. reflexivity. Qed.

Lemma max_int_overflow : float_overflow = max_int + 2 ^ 970.
Proof. reflexivity. Qed.

Lemma pack_below_overflow :
  pack false (RN (float_overflow - 1) 0) = S754_finite false 9007199254740991 971.
Proof. vm_compute. reflexivity. Qed.

Lemma pack_at_overflow : pack false (RN float_overflow 0) = S754_infinity false.
Proof. vm_compute. reflexivity. Qed.

Lemma pack_int_finite z :
  (0 < z < float_overflow)%Z -> exists m e, pack false (RN z 0) = S754_finite false m e.
Proof.
  intros Hz.
  assert (Hle : SFleb (pack false (RN z 0)) (pack false (RN (float_overflow - 1) 0)) = true).
  { apply pack_mono; try lia. unfold val.
    apply Z.mul_le_mono_nonneg_r; [apply Z.pow_nonneg|]; lia. }
  rewrite pack_below_overflow in Hle.
  pose proof (pack_shape (fst (RN z 0)) (snd (RN z 0)) (RN_fst_nonneg z 0 ltac:(lia))) as Hsh.
  rewrite <- surjective_pairing in Hsh.
  assert (Hnz : pack false (RN z 0) <> S754_zero false).
  { assert (H1 : SFleb (pack false (RN 1 0)) (pack false (RN z 0)) = true).
    { apply pack_mono; try lia. unfold val.
      apply Z.mul_le_mono_nonneg_r; [apply Z.pow_nonneg|]; lia. }
    intros E. rewrite E in H1. vm_compute in H1. discriminate. }
  destruct Hsh; [done | eauto | discriminate].
Qed.

Lemma pack_int_infinite z :
  (float_overflow <= z)%Z -> pack false (RN z 0) = S754_infinity false.
Proof.
  intros Hz.
  assert (Hpos : (0 < float_overflow)%Z) by reflexivity.
  assert (Hle : SFleb (pack false (RN float_overflow 0)) (pack false (RN z 0)) = true).
  { apply pack_mono; try lia. unfold val.
    apply Z.mul_le_mono_nonneg_r; [apply Z.pow_nonneg|]; lia. }
  rewrite pack_at_overflow in Hle.
  pose proof (pack_shape (fst (RN z 0)) (snd (RN z 0)) (RN_fst_nonneg z 0 ltac:(lia))) as Hsh.
  rewrite <- surjective_pairing in Hsh.
  destruct Hsh; [discriminate | discriminate | reflexivity].
Qed.

(** Rounding to nearest is off by at most half a unit. *)
Lemma rne_half k M : 0 <= k -> 2 * Z.abs (rne k M * 2 ^ k - M) <= 2 ^ k.
Proof.
  intros Hk. unfold rne. cbv zeta.
  assert (Hp : 0 < 2 ^ k) by (apply Z.pow_pos_nonneg; lia).
  pose proof (Z.div_mod M (2 ^ k) ltac:(lia)) as Hdm.
  pose proof (Z.mod_pos_bound M (2 ^ k) Hp) as Hb.
  set (q := M / 2 ^ k) in *. set (r := M mod 2 ^ k) in *.
  destruct (Z.eqb_spec r 0) as [Hr | Hr]; [nia|].
  destruct (Z.compare_spec (2 * r) (2 ^ k)) as [Hc | Hc | Hc]; [|nia|nia].
  destruct (Z.even q); nia.
Qed.

Lemma normal_form_val m E : -2200 <= E -> pval (normal_form m E) = val m E.
Proof.
  intros HE. unfold normal_form, pval.
  destruct (Z.eqb_spec m (2 ^ 53)) as [-> | _]; [|done]. cbn [fst snd]. unfold val.
  replace (E + 1 + 2200) with (1 + (E + 2200)) by lia.
  rewrite (Z.pow_add_r 2 1 (E + 2200)) by lia.
  change (2 ^ 53) with (2 ^ 52 * 2 ^ 1). ring.
Qed.

(** The error of [RN] is at most half a unit in the last place. *)
Lemma RN_error M e :
  0 < M -> -2200 <= e ->
  2 * Z.abs (pval (RN M e) - val M e) <= 2 ^ (fexp64 (Zdigits2 M + e) + 2200).
Proof.
  intros HM He. unfold RN. set (E := fexp64 (Zdigits2 M + e)).
  assert (HE : -1074 <= E) by (subst E; rewrite fexp64_eq; lia).
  rewrite normal_form_val by lia. unfold mant. fold E.
  assert (0 < 2 ^ (E + 2200)) by (apply Z.pow_pos_nonneg; lia).
  destruct (Z.leb_spec e E) as [Hle | Hgt].
  - pose proof (rne_half (E - e) M ltac:(lia)) as Hh. unfold val.
    replace (E + 2200) with ((E - e) + (e + 2200)) by lia.
    rewrite (Z.pow_add_r 2 (E - e) (e + 2200)) by lia.
    assert (0 < 2 ^ (e + 2200)) by (apply Z.pow_pos_nonneg; lia).
    replace (rne (E - e) M * (2 ^ (E - e) * 2 ^ (e + 2200)) - M * 2 ^ (e + 2200))
      with ((rne (E - e) M * 2 ^ (E - e) - M) * 2 ^ (e + 2200)) by ring.
    rewrite Z.abs_mul, (Z.abs_eq (2 ^ (e + 2200))) by lia. nia.
  - unfold val. replace (e + 2200) with ((e - E) + (E + 2200)) by lia.
    rewrite (Z.pow_add_r 2 (e - E) (E + 2200)) by lia.
    replace (M * 2 ^ (e - E) * 2 ^ (E + 2200) - M * (2 ^ (e - E) * 2 ^ (E + 2200)))
      with 0 by ring.
    cbn. lia.
Qed.

(** Two doubles of the same value are the same. *)
Lemma valid_val_inj m1 e1 m2 e2 :
  valid_binary (S754_finite false m1 e1) = true ->
  valid_binary (S754_finite false m2 e2) = true ->
  val (Zpos m1) e1 = val (Zpos m2) e2 -> m1 = m2 /\ e1 = e2.
Proof.
  intros V1 V2 Hv.
  pose proof (proj2 (SFleb_val _ _ _ _ V1 V2) ltac:(lia)) as H12.
  pose proof (proj2 (SFleb_val _ _ _ _ V2 V1) ltac:(lia)) as H21.
  unfold SFleb in H12, H21. rewrite SFcompare_finite in H12, H21.
  destruct (Z.compare_spec e1 e2) as [He | He | He].
  - subst e2. rewrite Z.compare_refl in H21.
    destruct (Pos.compare_spec m1 m2) as [Hm | Hm | Hm]; [done| |done].
    rewrite (proj2 (Pos.compare_gt_iff m2 m1) Hm) in H21. discriminate.
  - rewrite (proj2 (Z.compare_gt_iff e2 e1) He) in H21. discriminate.
  - discriminate.
Qed.

Lemma pack_finite_inv me m e :
  pack false me = S754_finite false m e -> me = (Zpos m, e).
Proof.
  unfold pack. destruct me as [[|p|p] e']; cbn [fst snd]; try discriminate.
  destruct (_ <=? _); [|discriminate]. by intros [= -> ->].
Qed.

(** *** Negative doubles *)

(** Order among negative doubles is the reverse of the order of their sizes. *)
Lemma SFleb_neg m1 e1 m2 e2 :
  SFleb (S754_finite true m1 e1) (S754_finite true m2 e2)
  = SFleb (S754_finite false m2 e2) (S754_finite false m1 e1).
Proof.
  unfold SFleb, SFcompare. rewrite (Z.compare_antisym e1 e2).
  destruct (e1 ?= e2); cbn [CompOpp]; try reflexivity.
  change (Pos.compare_cont Eq ?a ?b) with (a ?= b)%positive.
  rewrite (Pos.compare_antisym m1 m2). by destruct (m1 ?= m2)%positive.
Qed.

Lemma SFltb_neg m1 e1 m2 e2 :
  SFltb (S754_finite true m1 e1) (S754_finite true m2 e2)
  = SFltb (S754_finite false m2 e2) (S754_finite false m1 e1).
Proof.
  unfold SFltb, SFcompare. rewrite (Z.compare_antisym e1 e2).
  destruct (e1 ?= e2); cbn [CompOpp]; try reflexivity.
  change (Pos.compare_cont Eq ?a ?b) with (a ?= b)%positive.
  rewrite (Pos.compare_antisym m1 m2). by destruct (m1 ?= m2)%positive.
Qed.

(** The sum of a negative and a positive double. *)
Lemma SFadd_mixed mx ex mi ei :
  let ez := Z.min ex ei in
  let D := Zpos mx * 2 ^ (ex - ez) - Zpos mi * 2 ^ (ei - ez) in
  SF64add (S754_finite true mx ex) (S754_finite false mi ei)
  = match D with
    | Z0 => S754_zero false
    | Zpos d => pack true (RN (Zpos d) ez)
    | Zneg d => pack false (RN (Zpos d) ez)
    end
  /\ (-2200 <= ez -> val D ez = val (Zpos mx) ex - val (Zpos mi) ei).
Proof.
  intros ez D. subst D. split.
  - rewrite <- !aligned_mantissa by lia.
    unfold SF64add, SFadd. cbn [cond_Zopp]. fold ez.
    set (a := fst (shl_align mx ex ez)). set (b := fst (shl_align mi ei ez)).
    replace (- Zpos a + Zpos b) with (- (Zpos a - Zpos b)) by lia.
    destruct (Zpos a - Zpos b) as [|d|d];
      [reflexivity | change (- Zpos d) with (Zneg d) | change (- Zneg d) with (Zpos d)];
      unfold binary_normalize; by rewrite binary_round_spec.
  - intros Hb. unfold val at 1.
    rewrite Z.mul_sub_distr_r. fold (val (Zpos mx * 2 ^ (ex - ez)) ez).
    fold (val (Zpos mi * 2 ^ (ei - ez)) ez).
    rewrite !val_aligned by lia. reflexivity.
Qed.

End Rounding.

(** ** Order and arithmetic of doubles *)

Section Doubles.

Local Open Scope float_scope.

Lemma posfin_valid x m e :
  Prim2SF x = S754_finite false m e -> valid_binary (S754_finite false m e) = true.
Proof. intros <-. apply Prim2SF_valid. Qed.

Lemma ltb_leb x y : (x <? y) = true -> (x <=? y) = true.
Proof.
  rewrite ltb_spec, leb_spec. unfold SFltb, SFleb.
  by destruct (SFcompare (Prim2SF x) (Prim2SF y)) as [[]|].
Qed.

Lemma between_posfin c1 c2 x :
  posfin c1 -> posfin c2 -> (c1 <=? x) = true -> (x <=? c2) = true -> posfin x.
Proof.
  intros (m1 & e1 & H1) (m2 & e2 & H2). rewrite !leb_spec, H1, H2.
  unfold posfin. destruct (Prim2SF x) as [s|s| |s m e]; try discriminate.
  - by destruct s.
  - destruct s; [discriminate|]. eauto.
Qed.

Lemma leb_posfin_val x y mx ex my ey :
  Prim2SF x = S754_finite false mx ex -> Prim2SF y = S754_finite false my ey ->
  (x <=? y) = true <-> (val (Zpos mx) ex <= val (Zpos my) ey)%Z.
Proof.
  intros Hx Hy. rewrite leb_spec, Hx, Hy.
  apply SFleb_val; by eapply posfin_valid.
Qed.

Lemma ltb_posfin_val x y mx ex my ey :
  Prim2SF x = S754_finite false mx ex -> Prim2SF y = S754_finite false my ey ->
  (x <? y) = true <-> (val (Zpos mx) ex < val (Zpos my) ey)%Z.
Proof.
  intros Hx Hy. rewrite ltb_spec, Hx, Hy.
  apply SFltb_val; by eapply posfin_valid.
Qed.

(** Adding a non-negative number does not go below a lower bound. *)
Lemma add_keeps_lower c x i :
  posfin c -> posfin x -> Prim2SF i = S754_zero false \/ posfin i ->
  (c <=? x) = true -> (c <=? x + i) = true.
Proof.
  intros (mc & ec & Hc) (mx & ex & Hx) Hi Hcx.
  pose proof (posfin_valid _ _ _ Hc) as Vc. pose proof (posfin_valid _ _ _ Hx) as Vx.
  pose proof (proj1 (leb_posfin_val c x _ _ _ _ Hc Hx) Hcx) as Hv.
  rewrite leb_spec, add_spec, Hc, Hx.
  destruct Hi as [Hi | (mi & ei & Hi)]; rewrite Hi.
  - cbn. apply SFleb_val; done.
  - pose proof (posfin_valid _ _ _ Hi) as Vi.
    pose proof (valid_finite_ge _ _ _ Vc). pose proof (valid_finite_ge _ _ _ Vx).
    pose proof (valid_finite_ge _ _ _ Vi).
    destruct (SFadd_finite mx ex mi ei) as (-> & HS & HvS).
    rewrite <- (pack_valid false mc ec Vc).
    apply pack_mono; try lia.
    rewrite HvS by lia. pose proof (val_pos (Zpos mi) ei ltac:(lia) ltac:(lia)). lia.
Qed.

(** Adding a non-negative number does not go below the first operand. *)
Lemma add_ge_left x i :
  posfin x -> Prim2SF i = S754_zero false \/ posfin i -> (x <=? x + i) = true.
Proof.
  intros Hx Hi. apply add_keeps_lower; try done.
  destruct Hx as (mx & ex & Hx). apply (leb_posfin_val x x _ _ _ _ Hx Hx). lia.
Qed.

(** Subtraction *)

Lemma sub_posfin x y mx ex my ey :
  Prim2SF x = S754_finite false mx ex -> Prim2SF y = S754_finite false my ey ->
  (val (Zpos my) ey < val (Zpos mx) ex)%Z ->
  exists D ez, (0 < D)%Z /\ (-1074 <= ez)%Z
    /\ Prim2SF (x - y) = pack false (RN D ez)
    /\ val D ez = (val (Zpos mx) ex - val (Zpos my) ey)%Z.
Proof.
  intros Hx Hy Hv.
  pose proof (valid_finite_ge _ _ _ (posfin_valid _ _ _ Hx)).
  pose proof (valid_finite_ge _ _ _ (posfin_valid _ _ _ Hy)).
  destruct (SFsub_finite mx ex my ey) as (HvD & Hpos & _).
  set (ez := Z.min ex ey) in *.
  set (D := (Zpos mx * 2 ^ (ex - ez) - Zpos my * 2 ^ (ey - ez))%Z) in *.
  specialize (HvD ltac:(lia)).
  assert (HD : (0 < D)%Z).
  { assert (0 < val D ez)%Z by lia. unfold val in *.
    assert (0 < 2 ^ (ez + 2200))%Z by (apply Z.pow_pos_nonneg; lia). nia. }
  exists D, ez. split; [done|]. split; [lia|]. split; [|done].
  rewrite sub_spec, Hx, Hy. by apply Hpos.
Qed.

(** The larger the subtrahend, the smaller the difference. *)
Lemma sub_antitone a y1 y2 :
  posfin a -> posfin y1 -> posfin y2 ->
  (y1 <=? y2) = true -> (y2 <? a) = true -> (a - y2 <=? a - y1) = true.
Proof.
  intros (ma & ea & Ha) (m1 & e1 & H1) (m2 & e2 & H2) H12 H2a.
  apply (leb_posfin_val _ _ _ _ _ _ H1 H2) in H12.
  apply (ltb_posfin_val _ _ _ _ _ _ H2 Ha) in H2a.
  destruct (sub_posfin a y2 _ _ _ _ Ha H2 H2a) as (D2 & z2 & HD2 & Hz2 & HS2 & Hv2).
  destruct (sub_posfin a y1 _ _ _ _ Ha H1 ltac:(lia)) as (D1 & z1 & HD1 & Hz1 & HS1 & Hv1).
  rewrite leb_spec, HS1, HS2. apply pack_mono; lia.
Qed.

Lemma nnfin_leb0 x : nnfin x -> (0 <=? x) = true.
Proof.
  intros [[s Hx] | (m & e & Hx)]; rewrite leb_spec, Hx; reflexivity.
Qed.

(** A debit that passed the balance check leaves a non-negative finite
    balance, not above the old one. *)
Lemma sub_nonneg b c :
  nnfin b -> Prim2SF c = S754_zero false \/ posfin c ->
  (b <? c) = false -> nnfin (b - c).
Proof.
  intros Hb Hc Hlt. unfold nnfin, posfin. rewrite ltb_spec in Hlt. rewrite sub_spec.
  destruct Hb as [[s Hb] | (mb & eb & Hb)], Hc as [Hc | (mc & ec & Hc)];
    rewrite Hb, Hc in *.
  - left. destruct s; cbn; eauto.
  - discriminate.
  - right. cbn. eauto.
  - pose proof (posfin_valid _ _ _ Hb) as Vb. pose proof (posfin_valid _ _ _ Hc) as Vc.
    pose proof (valid_finite_ge _ _ _ Vb). pose proof (valid_finite_ge _ _ _ Vc).
    assert (Hv : (val (Zpos mc) ec <= val (Zpos mb) eb)%Z).
    { destruct (Z.le_gt_cases (val (Zpos mc) ec) (val (Zpos mb) eb)) as [|Hgt]; [done|].
      apply (SFltb_val mb eb mc ec Vb Vc) in Hgt. congruence. }
    destruct (SFsub_finite mb eb mc ec) as (HvD & Hpos & Hzero).
    set (ez := Z.min eb ec) in *.
    set (D := (Zpos mb * 2 ^ (eb - ez) - Zpos mc * 2 ^ (ec - ez))%Z) in *.
    specialize (HvD ltac:(lia)).
    assert (HD : (0 <= D)%Z).
    { assert (0 <= val D ez)%Z by lia. unfold val in *.
      assert (0 < 2 ^ (ez + 2200))%Z by (apply Z.pow_pos_nonneg; lia). nia. }
    destruct (Z.eq_dec D 0%Z) as [HD0 | HDn].
    + left. rewrite (Hzero HD0). eauto.
    + rewrite (Hpos ltac:(lia)).
      assert (Hle : SFleb (pack false (RN D ez)) (S754_finite false mb eb) = true).
      { rewrite <- (pack_valid false mb eb Vb).
        pose proof (val_pos (Zpos mc) ec ltac:(lia) ltac:(lia)).
        apply pack_mono; lia. }
      pose proof (pack_shape (fst (RN D ez)) (snd (RN D ez))
                    (RN_fst_nonneg D ez ltac:(lia))) as Hsh.
      rewrite <- surjective_pairing in Hsh.
      destruct Hsh; [left; eauto | right; eauto | discriminate].
Qed.

(** Order on positive finite floats is the order of their values. *)
Lemma leb_trans_posfin x y z :
  posfin x -> posfin y -> posfin z ->
  (x <=? y) = true -> (y <=? z) = true -> (x <=? z) = true.
Proof.
  intros (mx & ex & Hx) (my & ey & Hy) (mz & ez & Hz) H1 H2.
  apply (leb_posfin_val _ _ _ _ _ _ Hx Hy) in H1.
  apply (leb_posfin_val _ _ _ _ _ _ Hy Hz) in H2.
  apply (leb_posfin_val _ _ _ _ _ _ Hx Hz). lia.
Qed.

Lemma ltb_leb_trans_posfin x y z :
  posfin x -> posfin y -> posfin z ->
  (x <? y) = true -> (y <=? z) = true -> (x <? z) = true.
Proof.
  intros (mx & ex & Hx) (my & ey & Hy) (mz & ez & Hz) H1 H2.
  apply (ltb_posfin_val _ _ _ _ _ _ Hx Hy) in H1.
  apply (leb_posfin_val _ _ _ _ _ _ Hy Hz) in H2.
  apply (ltb_posfin_val _ _ _ _ _ _ Hx Hz). lia.
Qed.

Lemma leb_ltb_trans_posfin x y z :
  posfin x -> posfin y -> posfin z ->
  (x <=? y) = true -> (y <? z) = true -> (x <? z) = true.
Proof.
  intros (mx & ex & Hx) (my & ey & Hy) (mz & ez & Hz) H1 H2.
  apply (leb_posfin_val _ _ _ _ _ _ Hx Hy) in H1.
  apply (ltb_posfin_val _ _ _ _ _ _ Hy Hz) in H2.
  apply (ltb_posfin_val _ _ _ _ _ _ Hx Hz). lia.
Qed.

(** Multiplication *)

Lemma mul_shape x y :
  Prim2SF x = S754_zero false \/ posfin x ->
  Prim2SF y = S754_zero false \/ posfin y ->
  nonneg_shape (Prim2SF (x * y)).
Proof.
  intros Hx Hy. rewrite mul_spec.
  destruct Hx as [-> | (mx & ex & ->)], Hy as [-> | (my & ey & ->)];
    unfold SF64mul, SFmul; cbn [xorb]; try constructor.
  rewrite binary_round_aux_spec by lia.
  pose proof (round_fexp_nonneg (Zpos (mx * my)) (ex + ey) ltac:(lia)) as H1.
  destruct (round_fexp _ _) as [m2 e2]. cbn [fst] in H1.
  pose proof (trunc_fexp_nonneg m2 e2 H1) as H2.
  destruct (trunc_fexp m2 e2) as [m3 e3]. by apply pack_shape.
Qed.

(** The product with a normal number is the rounding of the exact one. *)
Lemma mul_normal c x mc ec mx ex :
  Prim2SF c = S754_finite false mc ec -> (2 ^ 52 <= Zpos mc)%Z ->
  Prim2SF x = S754_finite false mx ex ->
  Prim2SF (c * x) = pack false (RN (Zpos mc * Zpos mx) (ec + ex)).
Proof.
  intros Hc Hn Hx. rewrite mul_spec, Hc, Hx. unfold SF64mul, SFmul. cbn [xorb].
  rewrite Pos2Z.inj_mul. apply binary_round_aux_regime; [lia|].
  rewrite fexp64_eq.
  assert (53 <= Zdigits2 (Zpos mc * Zpos mx))%Z.
  { change 53%Z with (Zdigits2 (2 ^ 52)). apply Zdigits2_mono; [done|]. nia. }
  lia.
Qed.

(** A normal number times a number that is at least 1 is not below it. *)
Lemma mul_ge_left c x :
  (exists mc ec, Prim2SF c = S754_finite false mc ec /\ (2 ^ 52 <= Zpos mc)%Z) ->
  posfin x -> (1 <=? x) = true -> (c <=? c * x) = true.
Proof.
  intros (mc & ec & Hc & Hn) (mx & ex & Hx) H1.
  assert (Hone : Prim2SF 1 = S754_finite false 4503599627370496 (-52)) by reflexivity.
  apply (leb_posfin_val _ _ _ _ _ _ Hone Hx) in H1.
  pose proof (posfin_valid _ _ _ Hc) as Vc. pose proof (posfin_valid _ _ _ Hx) as Vx.
  pose proof (valid_finite_ge _ _ _ Vc). pose proof (valid_finite_ge _ _ _ Vx).
  rewrite leb_spec, (mul_normal c x _ _ _ _ Hc Hn Hx), Hc.
  rewrite <- (pack_valid false mc ec Vc).
  apply pack_mono; try lia.
  unfold val in *.
  replace (ec + ex + 2200)%Z with ((ec + 2200) + ex)%Z by lia.
  assert (Hk : (0 < 2 ^ (ec + 2200))%Z) by (apply Z.pow_pos_nonneg; lia).
  change (4503599627370496 * 2 ^ (-52 + 2200))%Z with (2 ^ 2200)%Z in H1.
  destruct (Z.le_gt_cases 0 ex) as [Hex | Hex].
  - rewrite (Z.pow_add_r 2 (ec + 2200) ex) by lia.
    assert (0 < 2 ^ ex)%Z by (apply Z.pow_pos_nonneg; lia).
    replace (Zpos mc * Zpos mx * (2 ^ (ec + 2200) * 2 ^ ex))%Z
      with (Zpos mc * 2 ^ (ec + 2200) * (Zpos mx * 2 ^ ex))%Z by ring.
    rewrite <- (Z.mul_1_r (Zpos mc * 2 ^ (ec + 2200))) at 1.
    apply Z.mul_le_mono_nonneg_l; nia.
  - replace (ex + 2200)%Z with (2200 - (- ex))%Z in H1 by lia.
    assert (Hm : (2 ^ (- ex) <= Zpos mx)%Z).
    { assert (Hs : (2 ^ 2200 = 2 ^ (2200 - - ex) * 2 ^ (- ex))%Z).
      { rewrite <- Z.pow_add_r by lia. f_equal. lia. }
      assert (0 < 2 ^ (2200 - - ex))%Z by (apply Z.pow_pos_nonneg; lia).
      rewrite Hs in H1. nia. }
    assert (ex > -53)%Z.
    { destruct (Z.le_gt_cases ex (-53)); [|lia].
      pose proof (valid_mantissa _ _ _ Vx) as (_ & ? & _).
      assert (2 ^ 53 <= 2 ^ (- ex))%Z by (apply Z.pow_le_mono_r; lia). lia. }
    replace (2 ^ (ec + 2200))%Z with (2 ^ (ec + 2200 + ex) * 2 ^ (- ex))%Z
      by (rewrite <- Z.pow_add_r by lia; f_equal; lia).
    assert (0 < 2 ^ (ec + 2200 + ex))%Z by (apply Z.pow_pos_nonneg; lia).
    assert (0 < 2 ^ (- ex))%Z by (apply Z.pow_pos_nonneg; lia). nia.
Qed.

(** Adding at least one unit in the last place strictly increases. *)
Lemma add_strict x i mx ex mi ei :
  Prim2SF x = S754_finite false mx ex -> Prim2SF i = S754_finite false mi ei ->
  (2 ^ (ex + 2200) <= val (Zpos mi) ei)%Z ->
  (x <? x + i) = true.
Proof.
  intros Hx Hi Hulp.
  pose proof (posfin_valid _ _ _ Hx) as Vx. pose proof (posfin_valid _ _ _ Hi) as Vi.
  pose proof (valid_finite_ge _ _ _ Vx). pose proof (valid_finite_ge _ _ _ Vi).
  destruct (succ_repr mx ex Vx) as (m' & e' & HRN & Hval & Hcan).
  destruct (SFadd_finite mx ex mi ei) as (Hadd & HS & HvS).
  set (ez := Z.min ex ei) in *.
  set (S := (Zpos mx * 2 ^ (ex - ez) + Zpos mi * 2 ^ (ei - ez))%Z) in *.
  specialize (HvS ltac:(lia)).
  assert (Hle : SFleb (pack false (RN (Zpos mx + 1) ex)) (pack false (RN S ez)) = true).
  { apply pack_mono; try lia. rewrite HvS. unfold val at 1.
    rewrite Z.mul_add_distr_r. fold (val (Zpos mx) ex). lia. }
  assert (Hlt : (val (Zpos mx) ex < val (Zpos m') e')%Z).
  { rewrite Hval. unfold val. rewrite Z.mul_add_distr_r.
    assert (0 < 2 ^ (ex + 2200))%Z by (apply Z.pow_pos_nonneg; lia). lia. }
  rewrite ltb_spec, add_spec, Hx, Hi, Hadd.
  pose proof (pack_RN_valid false S ez HS) as Vr.
  pose proof (pack_shape (fst (RN S ez)) (snd (RN S ez)) (RN_fst_nonneg S ez HS)) as Hsh.
  rewrite <- surjective_pairing in Hsh.
  rewrite HRN in Hle. unfold pack at 1 in Hle. cbn [fst snd] in Hle.
  destruct (e' <=? emax - prec)%Z eqn:Hb.
  - destruct Hsh as [|mr er|]; [discriminate| |reflexivity].
    apply SFltb_val; [done..|].
    apply SFleb_val in Hle; [lia| |done].
    cbn [valid_binary]. unfold bounded. by rewrite Hcan, Hb.
  - destruct Hsh; [discriminate|discriminate|reflexivity].
Qed.

(** Conversion of integers *)

Lemma float_of_int_below z :
  (Z.abs z < float_overflow)%Z -> exists q, Binary64.float_of_int z = Some q.
Proof.
  intros Hz. unfold Binary64.float_of_int. destruct z as [|p|p]; cbn [binary_normalize].
  - eauto.
  - rewrite binary_round_spec.
    destruct (pack_int_finite (Zpos p) ltac:(lia)) as (m & e & ->). eauto.
  - rewrite binary_round_spec, pack_sign.
    destruct (pack_int_finite (Zpos p) ltac:(lia)) as (m & e & ->). eauto.
Qed.

Lemma float_of_int_beyond z :
  (float_overflow <= Z.abs z)%Z -> Binary64.float_of_int z = None.
Proof.
  intros Hz. assert (Hpos : (0 < float_overflow)%Z) by reflexivity.
  unfold Binary64.float_of_int. destruct z as [|p|p]; cbn [binary_normalize].
  - lia.
  - by rewrite binary_round_spec, (pack_int_infinite (Zpos p)) by lia.
  - by rewrite binary_round_spec, pack_sign, (pack_int_infinite (Zpos p)) by lia.
Qed.

Lemma float_of_int_total z :
  (- max_int <= z <= max_int)%Z -> exists q, Binary64.float_of_int z = Some q.
Proof.
  intros Hz. apply float_of_int_below. rewrite max_int_overflow. lia.
Qed.

Lemma float_of_int_pos z q :
  (0 < z)%Z -> Binary64.float_of_int z = Some q ->
  posfin q /\ Prim2SF q = pack false (RN z 0).
Proof.
  intros Hz. unfold Binary64.float_of_int. destruct z as [|p|p]; try lia.
  cbn [binary_normalize]. rewrite binary_round_spec.
  pose proof (pack_RN_valid false (Zpos p) 0 ltac:(lia)) as V.
  pose proof (pack_shape (fst (RN (Zpos p) 0)) (snd (RN (Zpos p) 0))
                (RN_fst_nonneg (Zpos p) 0 ltac:(lia))) as Hsh.
  rewrite <- surjective_pairing in Hsh.
  assert (Hnz : pack false (RN (Zpos p) 0) <> S754_zero false).
  { assert (H1 : SFleb (pack false (RN 1 0)) (pack false (RN (Zpos p) 0)) = true).
    { apply pack_mono; try lia. unfold val.
      apply Z.mul_le_mono_nonneg_r; [apply Z.pow_nonneg|]; lia. }
    intros E. rewrite E in H1. vm_compute in H1. discriminate. }
  destruct (pack false (RN (Zpos p) 0)) as [s|s| |s m e] eqn:E;
    inversion Hsh; subst; [done|discriminate|].
  intros Hq. apply (inj Some) in Hq. subst q.
  rewrite (Prim2SF_SF2Prim _ V). split; [|done].
  exists m, e. apply (Prim2SF_SF2Prim _ V).
Qed.

Lemma float_of_int_nonneg z q :
  (0 <= z)%Z -> Binary64.float_of_int z = Some q ->
  Prim2SF q = S754_zero false \/ posfin q.
Proof.
  intros Hz Hq. destruct (Z.eq_dec z 0%Z) as [-> | Hn].
  - vm_compute in Hq. injection Hq as <-. by left.
  - right. by apply (float_of_int_pos z q ltac:(lia)).
Qed.

Lemma float_of_int_ge_one z q :
  (0 < z)%Z -> Binary64.float_of_int z = Some q -> posfin q /\ (1 <=? q) = true.
Proof.
  intros Hz Hq. destruct (float_of_int_pos z q Hz Hq) as [Hp Hsf]. split; [done|].
  rewrite leb_spec, Hsf.
  change (Prim2SF 1) with (S754_finite false 4503599627370496 (-52)).
  rewrite <- (pack_valid false 4503599627370496 (-52) eq_refl).
  apply pack_mono; try lia. unfold val.
  change (Zpos 4503599627370496 * 2 ^ (-52 + 2200))%Z with (1 * 2 ^ (0 + 2200))%Z.
  apply Z.mul_le_mono_nonneg_r; [apply Z.pow_nonneg|]; lia.
Qed.

(** Two positive doubles whose exact sum is within [2^-54] of 1 add up to
    1.0: both ends of that interval round to 1.0. *)
Lemma add_near_one x y mx ex my ey :
  Prim2SF x = S754_finite false mx ex -> Prim2SF y = S754_finite false my ey ->
  (2 ^ 2200 - 2 ^ 2146 <= val (Zpos mx) ex + val (Zpos my) ey <= 2 ^ 2200 + 2 ^ 2146)%Z ->
  x + y = 1.
Proof.
  intros Hx Hy [Hlo Hhi].
  pose proof (valid_finite_ge _ _ _ (posfin_valid _ _ _ Hx)).
  pose proof (valid_finite_ge _ _ _ (posfin_valid _ _ _ Hy)).
  destruct (SFadd_finite mx ex my ey) as (Hadd & HS & HvS).
  set (ez := Z.min ex ey) in *.
  set (S := (Zpos mx * 2 ^ (ex - ez) + Zpos my * 2 ^ (ey - ez))%Z) in *.
  specialize (HvS ltac:(lia)).
  assert (H1 : SFleb (pack false (RN (2 ^ 2200 - 2 ^ 2146) (-2200))) (pack false (RN S ez)) = true).
  { apply pack_mono; try lia. rewrite HvS. unfold val at 1.
    change (2 ^ (-2200 + 2200))%Z with 1%Z. lia. }
  assert (H2 : SFleb (pack false (RN S ez)) (pack false (RN (2 ^ 2200 + 2 ^ 2146) (-2200))) = true).
  { apply pack_mono; try lia. rewrite HvS. unfold val at 3.
    change (2 ^ (-2200 + 2200))%Z with 1%Z. lia. }
  replace (pack false (RN (2 ^ 2200 - 2 ^ 2146) (-2200)))
    with (S754_finite false 4503599627370496 (-52)) in H1 by (vm_compute; reflexivity).
  replace (pack false (RN (2 ^ 2200 + 2 ^ 2146) (-2200)))
    with (S754_finite false 4503599627370496 (-52)) in H2 by (vm_compute; reflexivity).
  pose proof (pack_RN_valid false S ez HS) as Vr.
  pose proof (pack_shape (fst (RN S ez)) (snd (RN S ez)) (RN_fst_nonneg S ez HS)) as Hsh.
  rewrite <- surjective_pairing in Hsh.
  assert (Hr : Prim2SF (x + y) = Prim2SF 1).
  { rewrite add_spec, Hx, Hy, Hadd.
    destruct (pack false (RN S ez)) as [s|s| |s mr er] eqn:E;
      inversion Hsh; subst; try discriminate.
    apply SFleb_val in H1; [|done..]. apply SFleb_val in H2; [|done..].
    destruct (valid_val_inj mr er 4503599627370496 (-52) Vr eq_refl ltac:(lia)) as [-> ->].
    reflexivity. }
  rewrite <- (SF2Prim_Prim2SF (x + y)), Hr. reflexivity.
Qed.

(** *** Adding to a negative double *)

Lemma negfin_valid x m e :
  Prim2SF x = S754_finite true m e -> valid_binary (S754_finite false m e) = true.
Proof. intros H. pose proof (Prim2SF_valid x) as V. by rewrite H in V. Qed.

(** A negative double plus a positive one is not negative, or it is minus
    the rounded difference of the two sizes. *)
Lemma add_mixed x i mx ex mi ei :
  Prim2SF x = S754_finite true mx ex -> Prim2SF i = S754_finite false mi ei ->
  nonneg_shape (Prim2SF (x + i))
  \/ exists D ez, (0 < D)%Z /\ (-1074 <= ez)%Z
       /\ Prim2SF (x + i) = pack true (RN D ez)
       /\ val D ez = (val (Zpos mx) ex - val (Zpos mi) ei)%Z.
Proof.
  intros Hx Hi.
  pose proof (valid_finite_ge _ _ _ (negfin_valid _ _ _ Hx)).
  pose proof (valid_finite_ge _ _ _ (posfin_valid _ _ _ Hi)).
  destruct (SFadd_mixed mx ex mi ei) as [Hadd Hval].
  rewrite add_spec, Hx, Hi, Hadd. clear Hadd.
  set (ez := Z.min ex ei) in *.
  set (D := (Zpos mx * 2 ^ (ex - ez) - Zpos mi * 2 ^ (ei - ez))%Z) in *.
  specialize (Hval ltac:(lia)).
  destruct D as [|d|d] eqn:HD.
  - left. constructor.
  - right. exists (Zpos d), ez. split; [lia|]. split; [lia|]. by split.
  - left. pose proof (pack_shape (fst (RN (Zpos d) ez)) (snd (RN (Zpos d) ez))
                        (RN_fst_nonneg (Zpos d) ez ltac:(lia))) as Hsh.
    by rewrite <- surjective_pairing in Hsh.
Qed.

(** What is not negative is above every negative double. *)
Lemma negfin_below m e r :
  nonneg_shape r -> SFltb (S754_finite true m e) r = true.
Proof. by intros []. Qed.

Lemma SFltb_leb x y : SFltb x y = true -> SFleb x y = true.
Proof. unfold SFltb, SFleb. by destruct (SFcompare x y) as [[]|]. Qed.

(** The rounded difference is at most the size it was taken from. *)
Lemma diff_below D ez mx ex :
  (0 < D)%Z -> (-1074 <= ez)%Z -> valid_binary (S754_finite false mx ex) = true ->
  (val D ez <= val (Zpos mx) ex)%Z ->
  pack false (RN D ez) = S754_zero false
  \/ exists m e, pack false (RN D ez) = S754_finite false m e
       /\ valid_binary (S754_finite false m e) = true
       /\ pval (RN D ez) = val (Zpos m) e
       /\ (val (Zpos m) e <= val (Zpos mx) ex)%Z.
Proof.
  intros HD Hez V Hv. pose proof (valid_finite_ge _ _ _ V).
  assert (Hle : SFleb (pack false (RN D ez)) (pack false (RN (Zpos mx) ex)) = true)
    by (apply pack_mono; lia).
  rewrite (pack_valid false mx ex V) in Hle.
  pose proof (pack_RN_valid false D ez HD) as Vr.
  pose proof (pack_shape (fst (RN D ez)) (snd (RN D ez)) (RN_fst_nonneg D ez HD)) as Hsh.
  rewrite <- surjective_pairing in Hsh.
  inversion Hsh as [E | m e E | E]; symmetry in E.
  - by left.
  - right. exists m, e. rewrite E in Hle, Vr. split; [done|]. split; [done|].
    apply pack_finite_inv in E. rewrite E. split; [done|].
    by apply SFleb_val.
  - rewrite E in Hle. discriminate.
Qed.

(** Adding a positive double to a negative one does not go below it. *)
Lemma add_neg_ge x i mx ex :
  Prim2SF x = S754_finite true mx ex -> posfin i -> (x <=? x + i) = true.
Proof.
  intros Hx (mi & ei & Hi). rewrite leb_spec.
  destruct (add_mixed x i _ _ _ _ Hx Hi) as [Hsh | (D & ez & HD & Hez & Hr & Hv)].
  - rewrite Hx. apply SFltb_leb. by apply negfin_below.
  - rewrite Hr, Hx, pack_sign.
    pose proof (posfin_valid _ _ _ Hi) as Vi. pose proof (valid_finite_ge _ _ _ Vi).
    pose proof (val_pos (Zpos mi) ei ltac:(lia) ltac:(lia)).
    destruct (diff_below D ez mx ex HD Hez (negfin_valid _ _ _ Hx) ltac:(lia))
      as [-> | (m & e & -> & V & _ & Hle)]; [reflexivity|].
    rewrite SFleb_neg. apply SFleb_val; [done | by eapply negfin_valid | done].
Qed.

(** It goes strictly above it when the positive one is more than half a unit
    in the last place of the doubles below [2^k], the size being at most
    [2^k]. *)
Lemma add_neg_strict x i mx ex mi ei k :
  Prim2SF x = S754_finite true mx ex -> Prim2SF i = S754_finite false mi ei ->
  (-1021 <= k)%Z -> (val (Zpos mx) ex <= 2 ^ (k + 2200))%Z ->
  (2 ^ (k - 53 + 2200) < 2 * val (Zpos mi) ei)%Z ->
  (x <? x + i) = true.
Proof.
  intros Hx Hi Hk Hsize Hhalf. rewrite ltb_spec.
  destruct (add_mixed x i _ _ _ _ Hx Hi) as [Hsh | (D & ez & HD & Hez & Hr & Hv)].
  - rewrite Hx. by apply negfin_below.
  - rewrite Hr, Hx, pack_sign.
    pose proof (posfin_valid _ _ _ Hi) as Vi. pose proof (valid_finite_ge _ _ _ Vi).
    pose proof (val_pos (Zpos mi) ei ltac:(lia) ltac:(lia)).
    destruct (diff_below D ez mx ex HD Hez (negfin_valid _ _ _ Hx) ltac:(lia))
      as [-> | (m & e & -> & V & Hp & Hle)]; [reflexivity|].
    rewrite SFltb_neg. apply SFltb_val; [done | by eapply negfin_valid |].
    pose proof (RN_error D ez HD ltac:(lia)) as Herr. rewrite Hp in Herr.
    assert (Hdig : (Zdigits2 D + ez <= k)%Z).
    { pose proof (Zdigits2_bounds D HD) as [Hlo _].
      pose proof (Zdigits2_pos_lt D HD).
      assert (Hpow : (2 ^ (Zdigits2 D - 1 + (ez + 2200)) < 2 ^ (k + 2200))%Z).
      { rewrite Z.pow_add_r by lia.
        assert (0 < 2 ^ (ez + 2200))%Z by (apply Z.pow_pos_nonneg; lia).
        unfold val in Hv, Hsize. nia. }
      apply Z.pow_lt_mono_r_iff in Hpow; lia. }
    assert (HE : (2 ^ (fexp64 (Zdigits2 D + ez) + 2200) <= 2 ^ (k - 53 + 2200))%Z).
    { apply Z.pow_le_mono_r; [lia|]. rewrite fexp64_eq. lia. }
    lia.
Qed.

(** Adding a non-negative double to whatever is at most a finite bound
    (a double of either sign, a zero, minus infinity) does not go below it. *)
Lemma add_ge_any x i c :
  posfin c -> (x <=? c) = true -> Prim2SF i = S754_zero false \/ posfin i ->
  (x <=? x + i) = true.
Proof.
  intros (mc & ec & Hc) Hxc Hi. rewrite leb_spec, Hc in Hxc.
  destruct (Prim2SF x) as [s|s| |s mx ex] eqn:Hx.
  - rewrite leb_spec, add_spec, Hx.
    destruct Hi as [-> | (mi & ei & ->)]; [by destruct s | reflexivity].
  - destruct s; [|discriminate]. rewrite leb_spec, add_spec, Hx.
    by destruct Hi as [-> | (mi & ei & ->)].
  - discriminate.
  - destruct s.
    + destruct Hi as [Hi | Hi]; [|by eapply add_neg_ge].
      rewrite leb_spec, add_spec, Hx, Hi. cbn [SF64add SFadd].
      rewrite SFleb_neg. apply SFleb_val; [by eapply negfin_valid..|lia].
    + apply add_ge_left; [by exists mx, ex | done].
Qed.

End Doubles.

(** ** On binary64 *)

Section Binary64Arithmetic.

#[local] Existing Instance Binary64.arith.

Context `{Uni : PyStr.Unicode}.

Local Open Scope float_scope.

Ltac const := vm_compute; first [reflexivity | by eauto | by do 2 eexists].

Lemma posfin_lit_001 : posfin (lit 0.01). Proof. const. Qed.

Lemma posfin_lit_099 : posfin (lit 0.99). Proof. const. Qed.

Lemma posfin_lit_010 : posfin (lit 0.10). Proof. const. Qed.

Lemma posfin_lit_0001 : posfin (lit 0.001). Proof. const. Qed.

Lemma posfin_lit_1 : posfin (lit 1.0). Proof. const. Qed.

Lemma in_range64_posfin p : in_range64 p -> posfin p.
Proof.
  intros [H1 H2]. exact (between_posfin _ _ p posfin_lit_001 posfin_lit_099 H1 H2).
Qed.

(** The step of a fill, [min(0.10, 0.001 * qty)], is a non-negative finite
    number. *)
Lemma impact_shape q :
  Prim2SF q = S754_zero false \/ posfin q ->
  let i := py_min (lit 0.10) (mul (lit 0.001) q) in
  Prim2SF i = S754_zero false \/ posfin i.
Proof.
  intros Hq i. subst i. unfold py_min.
  pose proof (mul_shape (lit 0.001) q (or_intror posfin_lit_0001) Hq) as Hsh.
  cbn [ltb mul lit Binary64.arith] in *.
  destruct (_ <? _) eqn:Hlt; [|right; apply posfin_lit_010].
  rewrite ltb_spec in Hlt.
  inversion Hsh as [E|m e E|E]; [by left | right; by exists m, e |].
  rewrite <- E in Hlt. vm_compute in Hlt. discriminate.
Qed.

(** For a quantity of at least 1 it is at least 0.001. *)
Lemma impact_lower q :
  posfin q -> (1 <=? q) = true ->
  (lit 0.001 <=? py_min (lit 0.10) (mul (lit 0.001) q)) = true.
Proof.
  intros Hq H1. unfold py_min. cbn [ltb mul Binary64.arith].
  destruct (_ <? _); [|const].
  apply mul_ge_left; [|done..]. do 2 eexists. split; [const|]. vm_compute. discriminate.
Qed.

(** The chosen side after the cap: [min(0.99, p + impact)]. *)
Lemma chosen_in_range p i :
  in_range64 p -> Prim2SF i = S754_zero false \/ posfin i ->
  in_range64 (py_min (lit 0.99) (add p i)).
Proof.
  intros Hp Hi. pose proof (in_range64_posfin p Hp) as Hpf. destruct Hp as [H1 H2].
  unfold py_min. cbn [ltb add lit Binary64.arith] in *.
  destruct (_ <? _) eqn:Hlt.
  - split; [by apply add_keeps_lower; [apply posfin_lit_001|..] | by apply ltb_leb].
  - split; const.
Qed.

Lemma chosen_not_below p i :
  (p <=? lit 0.99) = true -> Prim2SF i = S754_zero false \/ posfin i ->
  (p <=? py_min (lit 0.99) (add p i)) = true.
Proof.
  intros Hp Hi. unfold py_min. cbn [ltb add lit Binary64.arith] in *.
  destruct (p + i <? Binary64.float_of_literal 0.99); [|done].
  by apply (add_ge_any p i _ posfin_lit_099).
Qed.

(** An impact of at least 0.001 is more than a unit in the last place of a
    positive quote of at most 0.99, and more than half a unit in the last
    place of the doubles between [-2^44] and 0: the sum is a double above
    the quote. *)
Lemma chosen_strictly_above p i :
  (lit (-17592186044416) <=? p) = true -> (p <=? lit 0.99) = true ->
  posfin i -> (lit 0.001 <=? i) = true ->
  (p <? py_min (lit 0.99) (add p i)) = true \/ py_min (lit 0.99) (add p i) = lit 0.99.
Proof.
  intros Hlo Hhi (mi & ei & Hi) Hge.
  unfold py_min. cbn [ltb add lit Binary64.arith] in *.
  destruct (p + i <? Binary64.float_of_literal 0.99); [left | by right].
  assert (H99 : Prim2SF (Binary64.float_of_literal 0.99)
                = S754_finite false 8917127262193582 (-53)) by const.
  assert (H0001 : Prim2SF (Binary64.float_of_literal 0.001)
                = S754_finite false 4611686018427388 (-62)) by const.
  assert (H44 : Prim2SF (Binary64.float_of_literal (-17592186044416))
                = S754_finite true 4503599627370496 (-8)) by const.
  apply (leb_posfin_val _ _ _ _ _ _ H0001 Hi) in Hge.
  pose proof (val_lower _ _ _ (posfin_valid _ _ _ H0001) ltac:(lia)) as L0001.
  rewrite leb_spec, H44 in Hlo. rewrite leb_spec, H99 in Hhi.
  destruct (Prim2SF p) as [s|s| |s mp ep] eqn:Hpf.
  - by rewrite ltb_spec, add_spec, Hpf, Hi.
  - destruct s; discriminate.
  - discriminate.
  - destruct s.
    + apply (add_neg_strict p i mp ep mi ei 44 Hpf Hi); [lia| |].
      * rewrite SFleb_neg in Hlo.
        apply SFleb_val in Hlo; [|by eapply negfin_valid|done].
        assert (E : (val (Zpos 4503599627370496) (-8) = 2 ^ (44 + 2200))%Z)
          by (vm_compute; reflexivity).
        by rewrite <- E.
      * assert (H : (2 ^ (44 - 53 + 2200) < 2 * val (Zpos 4611686018427388) (-62))%Z)
          by (vm_compute; reflexivity).
        lia.
    + pose proof (posfin_valid _ _ _ Hpf) as Vp.
      apply SFleb_val in Hhi; [|done|by eapply posfin_valid].
      pose proof (val_upper _ _ _ (posfin_valid _ _ _ H99)) as U99.
      assert (Hep : (ep <= -53)%Z).
      { destruct (Z.le_gt_cases ep (-53)) as [|Hgt]; [done|]. exfalso.
        pose proof (val_lower _ _ _ Vp ltac:(lia)) as Lp.
        assert (Hpow : (2 ^ (ep + 52 + 2200) < 2 ^ (-53 + 53 + 2200))%Z) by lia.
        apply Z.pow_lt_mono_r_iff in Hpow; lia. }
      apply (add_strict p i _ _ _ _ Hpf Hi).
      assert ((2 ^ (ep + 2200) <= 2 ^ (-62 + 52 + 2200))%Z)
        by (pose proof (valid_finite_ge _ _ _ Vp); apply Z.pow_le_mono_r; lia).
      lia.
Qed.

(** The other side is one minus the chosen side: the clamp at 0.01 never
    applies, because one minus a quote of at most 0.99 is above 0.01. *)
Lemma opposite_unclamped c :
  in_range64 c ->
  py_max (lit 0.01) (sub (lit 1.0) c) = sub (lit 1.0) c
  /\ in_range64 (sub (lit 1.0) c).
Proof.
  intros Hc. pose proof (in_range64_posfin c Hc) as Hcf. destruct Hc as [H1 H2].
  unfold py_max, in_range64. cbn [ltb sub lit Binary64.arith] in *.
  set (one := Binary64.float_of_literal 1.0) in *.
  set (lo := Binary64.float_of_literal 0.01) in *.
  set (hi := Binary64.float_of_literal 0.99) in *.
  assert (Hlo : posfin lo) by apply posfin_lit_001.
  assert (Hhi : posfin hi) by apply posfin_lit_099.
  assert (Hone : posfin one) by apply posfin_lit_1.
  assert (Hup : (one - c <=? hi) = true).
  { change hi with (one - lo).
    apply sub_antitone; try done.
    apply (leb_ltb_trans_posfin c hi one); try done. }
  assert (Hdn : (one - hi <=? one - c) = true).
  { apply sub_antitone; try done. }
  assert (Hd : posfin (one - c)).
  { apply (between_posfin (one - hi) hi); try done. const. }
  assert (Hlt : (lo <? one - c) = true).
  { apply (ltb_leb_trans_posfin lo (one - hi) (one - c)); try done. const. }
  rewrite Hlt. split; [done|]. split; [by apply ltb_leb | done].
Qed.

(** A quote and one minus it add up to 1.0, whichever comes first: the
    subtraction is off by at most [2^-54], and a sum that close to 1 rounds
    to 1.0. *)
Lemma one_minus_adds_up c :
  in_range64 c ->
  add c (sub (lit 1.0) c) = lit 1.0 /\ add (sub (lit 1.0) c) c = lit 1.0.
Proof.
  intros Hc. destruct (in_range64_posfin c Hc) as (mc & ec & Hcf).
  destruct (opposite_unclamped c Hc) as [_ Hd].
  destruct (in_range64_posfin _ Hd) as (md & ed & Hdf).
  destruct Hc as [_ Hc99]. cbn [add sub lit Binary64.arith] in *.
  change (Binary64.float_of_literal 1.0) with 1 in *.
  assert (H1 : Prim2SF 1 = S754_finite false 4503599627370496 (-52)) by reflexivity.
  assert (H99 : Prim2SF (Binary64.float_of_literal 0.99)
                = S754_finite false 8917127262193582 (-53)) by (vm_compute; reflexivity).
  assert (Hlt : (val (Zpos mc) ec < 2 ^ 2200)%Z).
  { apply (leb_posfin_val _ _ _ _ _ _ Hcf H99) in Hc99.
    pose proof (val_upper _ _ _ (posfin_valid _ _ _ H99)) as U. cbn [Z.add] in U.
    change (-53 + 53 + 2200)%Z with 2200%Z in U. lia. }
  destruct (sub_posfin 1 c _ _ _ _ H1 Hcf) as (D & ez & HD & Hez & HS & HvD).
  { change (val (Zpos 4503599627370496) (-52)) with (2 ^ 2200)%Z. exact Hlt. }
  change (val (Zpos 4503599627370496) (-52)) with (2 ^ 2200)%Z in HvD.
  rewrite Hdf in HS. symmetry in HS. apply pack_finite_inv in HS.
  pose proof (posfin_valid _ _ _ Hcf) as Vc.
  pose proof (valid_finite_ge _ _ _ Vc) as Hec.
  pose proof (val_pos (Zpos mc) ec ltac:(lia) ltac:(lia)) as Hcpos.
  assert (HE : (fexp64 (Zdigits2 D + ez) <= -53)%Z).
  { rewrite fexp64_eq.
    assert (Zdigits2 D + ez <= 0)%Z; [|lia].
    pose proof (Zdigits2_bounds D HD) as [Hl _].
    pose proof (Zdigits2_pos_lt D HD).
    assert (Hp : (2 ^ (Zdigits2 D - 1 + (ez + 2200)) < 2 ^ 2200)%Z).
    { rewrite Z.pow_add_r by lia. unfold val in HvD.
      assert (0 < 2 ^ (ez + 2200))%Z by (apply Z.pow_pos_nonneg; lia). nia. }
    apply Z.pow_lt_mono_r_iff in Hp; lia. }
  pose proof (RN_error D ez HD ltac:(lia)) as Herr.
  rewrite HS in Herr. unfold pval in Herr. cbn [fst snd] in Herr.
  assert (Hpow : (2 ^ (fexp64 (Zdigits2 D + ez) + 2200) <= 2 ^ 2147)%Z).
  { apply Z.pow_le_mono_r; [lia|]. lia. }
  assert (Hb : (2 ^ 2200 - 2 ^ 2146 <= val (Zpos mc) ec + val (Zpos md) ed
                <= 2 ^ 2200 + 2 ^ 2146)%Z).
  { change (2 ^ 2147)%Z with (2 * 2 ^ 2146)%Z in Hpow. lia. }
  split.
  - by apply (add_near_one _ _ _ _ _ _ Hcf Hdf).
  - apply (add_near_one _ _ _ _ _ _ Hdf Hcf). lia.
Qed.

(** The update on a market whose quotes are in range. *)
Lemma price_impact_sound (m : Market) side (qty : Z) m' :
  in_range64 (yes_price m) -> in_range64 (no_price m) -> (0 <= qty)%Z ->
  apply_price_impact m side qty = Ok m' ->
  in_range64 (yes_price m') /\ in_range64 (no_price m')
  /\ opposite m' side = sub (lit 1.0) (quote m' side)
  /\ add (yes_price m') (no_price m') = lit 1.0.
Proof.
  intros Hy Hn Hq. unfold apply_price_impact, to_float, opposite, quote.
  cbn [of_int Binary64.arith].
  destruct (Binary64.float_of_int qty) as [q|] eqn:Hf; [|discriminate].
  pose proof (impact_shape q (float_of_int_nonneg qty q Hq Hf)) as Hi. cbv zeta in Hi.
  destruct (String.eqb side "YES"); intros [= <-]; cbn [yes_price no_price].
  - pose proof (chosen_in_range _ _ Hy Hi) as Hc.
    destruct (opposite_unclamped _ Hc) as [Hmax Ho].
    destruct (one_minus_adds_up _ Hc) as [Hs1 Hs2].
    cbn [lit add sub mul Binary64.arith] in *. by rewrite Hmax.
  - pose proof (chosen_in_range _ _ Hn Hi) as Hc.
    destruct (opposite_unclamped _ Hc) as [Hmax Ho].
    destruct (one_minus_adds_up _ Hc) as [Hs1 Hs2].
    cbn [lit add sub mul Binary64.arith] in *. by rewrite Hmax.
Qed.

(** The conversion of the quantity decides whether the update runs. *)
Lemma price_impact_overflow (m : Market) side (qty : Z) :
  (float_overflow <= Z.abs qty)%Z -> apply_price_impact m side qty = Raise OverflowError.
Proof.
  intros Hq. unfold apply_price_impact, to_float. cbn [of_int Binary64.arith].
  by rewrite (float_of_int_beyond qty Hq).
Qed.

(** C7. The update keeps both quotes in [[0.01, 0.99]], on doubles.  For
    every market whose two quotes lie in that range, every side and every
    quantity [qty >= 0]: a quantity below [float_overflow = 2^1024 - 2^970]
    is converted to a double, the update succeeds and both new quotes lie in
    the range again; a quantity from [float_overflow] on is refused by the
    conversion, and the update raises [OverflowError] before it assigns
    anything.  Moreover, after a successful update the quote of the other
    side is exactly [1.0 - new quote of the chosen side]: the chosen side was
    just capped at 0.99, one minus it is above 0.01, and the clamp at 0.01
    never applies.  The two new quotes then add up to 1.0, also after
    rounding: [yes_price + no_price == 1.0] is true after every update. *)
Theorem price_impact_in_range (m : Market) side (qty : Z) :
  in_range64 (yes_price m) -> in_range64 (no_price m) -> (0 <= qty)%Z ->
  ((qty < float_overflow)%Z ->
   exists m',
     apply_price_impact m side qty = Ok m'
     /\ in_range64 (yes_price m') /\ in_range64 (no_price m')
     /\ opposite m' side = sub (lit 1.0) (quote m' side)
     /\ add (yes_price m') (no_price m') = lit 1.0)
  /\ ((float_overflow <= qty)%Z ->
      apply_price_impact m side qty = Raise OverflowError).
Proof.
  intros Hy Hn Hq. split.
  - intros Hlt. destruct (float_of_int_below qty ltac:(lia)) as (q & Hf).
    assert (Hm : exists m', apply_price_impact m side qty = Ok m').
    { unfold apply_price_impact, to_float. cbn [of_int Binary64.arith]. rewrite Hf.
      destruct (String.eqb side "YES"); eauto. }
    destruct Hm as (m' & Hm). exists m'. split; [done|].
    by apply (price_impact_sound m side qty).
  - intros Hge. apply price_impact_overflow. lia.
Qed.

(** C2. The price impact of a fill, on doubles.  For every market and
    every quantity whose size is below [float_overflow = 2^1024 - 2^970] the
    quantity is converted to a double and the update succeeds; with
    [impact = min(0.10, 0.001 * qty)] it sets the chosen side's quote to
    [min(0.99, quote + impact)] and then the other side's quote to
    [max(0.01, 1.0 - new quote)].  For [qty > 0] and a chosen-side quote of at
    most 0.99 the new quote is not below the old one; when the old quote is
    moreover at least [-2^44] the new quote is strictly above it unless it is
    0.99.  A quantity whose size is [float_overflow] or more is refused by
    the conversion: the update raises [OverflowError] and sets nothing. *)
Theorem price_impact_moves_quote (m : Market) side (qty : Z) :
  ((Z.abs qty < float_overflow)%Z ->
   exists q m',
     to_float qty = Ok q
     /\ apply_price_impact m side qty = Ok m'
     /\ quote m' side
        = py_min (lit 0.99) (add (quote m side) (py_min (lit 0.10) (mul (lit 0.001) q)))
     /\ opposite m' side = py_max (lit 0.01) (sub (lit 1.0) (quote m' side))
     /\ ((0 < qty)%Z -> (quote m side <=? lit 0.99) = true ->
         (quote m side <=? quote m' side) = true
         /\ ((lit (-17592186044416) <=? quote m side) = true ->
             (quote m side <? quote m' side) = true \/ quote m' side = lit 0.99)))
  /\ ((float_overflow <= Z.abs qty)%Z ->
      apply_price_impact m side qty = Raise OverflowError).
Proof.
  split; [|apply price_impact_overflow].
  intros Hq. destruct (float_of_int_below qty Hq) as (q & Hf).
  exists q. unfold apply_price_impact, to_float. cbn [of_int Binary64.arith]. rewrite Hf.
  assert (Hmono : (0 < qty)%Z -> forall p, (p <=? lit 0.99) = true ->
            let c := py_min (lit 0.99) (add p (py_min (lit 0.10) (mul (lit 0.001) q))) in
            (p <=? c) = true
            /\ ((lit (-17592186044416) <=? p) = true -> (p <? c) = true \/ c = lit 0.99)).
  { intros Hpos p Hp c. subst c.
    destruct (float_of_int_ge_one qty q Hpos Hf) as [Hqf H1].
    pose proof (impact_shape q (or_intror Hqf)) as Hi. cbv zeta in Hi.
    pose proof (impact_lower q Hqf H1) as Hl.
    split; [by apply chosen_not_below|].
    intros Hlo. apply chosen_strictly_above; [done|done| |done].
    destruct Hi as [Hz|]; [|done].
    exfalso. rewrite leb_spec, Hz in Hl. vm_compute in Hl. discriminate. }
  unfold quote, opposite.
  destruct (String.eqb side "YES"); eexists; (split; [reflexivity|]);
    (split; [reflexivity|]); cbn [yes_price no_price];
    (split; [reflexivity|]); (split; [reflexivity|]); intros Hpos Hp;
    by apply Hmono.
Qed.

(** Every ledger step of a non-negative quantity keeps balances finite and
    non-negative and quotes in range. *)
Lemma ledger_step_sound env n db db' :
  (0 <= n)%Z -> ledger_step env n db db' -> sound_ledger db -> sound_ledger db'.
Proof.
  intros Hn [wa Hnew -> | wa u mid m m' sd q Hu Hm Ho Hsd Hq Hb Hm' ->] [Hus Hms];
    split; cbn [users markets with_new_user filled]; try done.
  - apply map_Forall_insert_2; [|done]. right. const.
  - apply map_Forall_insert_2; [|done]. cbn [balance with_balance].
    specialize (Hus _ _ Hu). specialize (Hms _ _ Hm). cbn beta in Hus, Hms.
    assert (Hp : posfin (quote m sd)).
    { unfold quote. destruct (String.eqb sd "YES"); apply in_range64_posfin; tauto. }
    unfold to_float in Hq. cbn [of_int Binary64.arith] in Hq.
    destruct (Binary64.float_of_int n) as [q'|] eqn:Hf; [|discriminate].
    injection Hq as ->.
    pose proof (mul_shape q (quote m sd) (float_of_int_nonneg n q Hn Hf) (or_intror Hp)) as Hsh.
    cbn [sub mul ltb Binary64.arith] in *.
    apply sub_nonneg; [done| |done].
    inversion Hsh as [E|mc ec E|E]; [by left | right; by exists mc, ec |].
    exfalso. rewrite ltb_spec, <- E in Hb.
    destruct Hus as [[s Hz] | (mb & eb & Hz)]; rewrite Hz in Hb; discriminate.
  - apply map_Forall_insert_2; [|done].
    specialize (Hms _ _ Hm). cbn beta in Hms. destruct Hms as [Hy Hno].
    destruct (price_impact_sound m sd n m' Hy Hno Hn Hm') as (? & ? & _). done.
Qed.

Lemma initial_store_sound : sound_ledger initial_store.
Proof.
  split.
  - unfold initial_store. rewrite seed_keeps_users. apply map_Forall_empty.
  - unfold initial_store, seeded. cbn [foldl seed_markets]. unfold add_market.
    cbn [markets empty_db].
    repeat (apply map_Forall_insert_2; [split; split; const|]).
    apply map_Forall_empty.
Qed.

Lemma empty_store_sound : sound_ledger empty_db.
Proof. split; apply map_Forall_empty. Qed.

Lemma reachable_sound w : reachable w -> sound_ledger (store w).
Proof.
  apply (reachable_ind_ledger sound_ledger);
    [apply empty_store_sound | apply initial_store_sound |].
  intros env db db'. by apply ledger_step_sound.
Qed.

(** C9. Balances are never negative, on doubles: in every world reachable
    from the empty or the seeded database through webhook requests, every
    user's balance
    satisfies [balance >= 0].  Users start at 1000.0; quotes stay in
    [[0.01, 0.99]], so the cost [10 * price] of a fill is a positive finite
    number, and the fill debits it only after the check [balance < cost]
    failed. *)
Theorem balances_never_negative w :
  reachable w -> balances_nonneg64 (store w).
Proof.
  intros Hw. destruct (reachable_sound w Hw) as [Hus _].
  intros k u Hu. apply nnfin_leb0. by apply (Hus k u).
Qed.

End Binary64Arithmetic.

(** ** Concrete runs *)

Section RunsBinary64.

#[local] Existing Instance Binary64.arith.

#[local] Existing Instance PyStr.latin1.

(** The scenario of the seeded market 1 at 0.50 / 0.50: ten units of YES
    cost 5.00, leave the balance at 995.00 and the quotes at 0.51 / 0.49, and
    record one bet at 0.50.  Computed in binary64. *)
Example first_bet_binary64 :
  let out := inbound demo_env
               (Body (webhook_body (button_message "u1" "BET|1|YES"))) fresh in
  fst out = Ok AckOk
  /\ users (store (snd out)) !! "u1" = Some {| wa_id := "u1"; balance := 995%float |}
  /\ markets (store (snd out)) !! 1
     = Some {| m_id := 1; question := "Will India win the next match?"; is_open := true;
               yes_price := 0.51%float; no_price := 0.49%float |}
  /\ bets (store (snd out))
     = [{| b_id := 1; b_wa_id := "u1"; market_id := 1; side := "YES";
           price := 0.5%float; qty := 10; ts := 1700000000 |}].
Proof. vm_compute. repeat split. Qed.

(** The literals of the source, read as doubles. *)
Example literals_binary64 :
  lit 0.99 = 0.99%float /\ lit 0.01 = 0.01%float /\ lit 0.10 = 0.1%float
  /\ lit 0.001 = 0.001%float /\ lit 1000.0 = 1000%float /\ lit 0.45 = 0.45%float.
Proof. vm_compute. repeat split. Qed.

(** Witness of C1: the first bet of a new sender on the seeded market 1. *)
Lemma place_bet_fill_witness :
  let u := new_user "u1" in
  let w1 := snd (get_or_create_user "u1" fresh) in
  let m := market_at true 0.50 0.50 in
  let out := place_bet demo_env "u1" 1 "yes" 10 fresh in
  (get_or_create_user "u1" fresh = (Ok u, w1)
   /\ markets (session w1) !! 1 = Some m
   /\ is_open m = true
   /\ (PyStr.upper "yes" = "YES" \/ PyStr.upper "yes" = "NO")
   /\ to_float 10 = Ok 10%float
   /\ ltb (balance u) (mul 10%float (quote m (PyStr.upper "yes"))) = false)
  /\ balance <$> users (store (snd out)) !! "u1" = Some 995%float
  /\ price <$> bets (store (snd out)) = [0.5%float]
  /\ yes_price <$> markets (store (snd out)) !! 1 = Some 0.51%float
  /\ fst out = Ok tt
  /\ posts (log (snd out)) = 1%nat.
Proof.
  intros u w1 m out.
  assert (H1 : get_or_create_user "u1" fresh = (Ok u, w1)) by (vm_compute; reflexivity).
  assert (H2 : markets (session w1) !! 1 = Some m) by (vm_compute; reflexivity).
  assert (H3 : is_open m = true) by reflexivity.
  assert (H4 : PyStr.upper "yes" = "YES" \/ PyStr.upper "yes" = "NO")
    by (left; vm_compute; reflexivity).
  assert (H5 : to_float 10 = Ok 10%float) by (vm_compute; reflexivity).
  assert (H6 : ltb (balance u) (mul 10%float (quote m (PyStr.upper "yes"))) = false)
    by (vm_compute; reflexivity).
  split; [repeat split; assumption|].
  destruct (place_bet_fill demo_env "u1" 1 "yes" 10 fresh u w1 m 10%float H1 H2 H3 H4 H5 H6)
    as (m' & Hm' & _ & _ & _ & Hc & _).
  vm_compute in Hm'. injection Hm' as <-.
  destruct (Hc eq_refl) as (Hsnd & Hok & _). subst out. rewrite Hsnd.
  split; [vm_compute; reflexivity|].
  split; [vm_compute; reflexivity|]. split; [vm_compute; reflexivity|].
  split; [|vm_compute; reflexivity].
  apply Hok. split; [vm_compute; reflexivity|].
  eexists _, _. split; [vm_compute; reflexivity|]. split; [vm_compute | ]; reflexivity.
Defined.

(** C1 as stated fails.  On doubles the balance does not decrease by
    exactly the cost: the second bet of a sender on market 1 costs
    [10 * 0.51], the balance goes from 995.0 to [995.0 - cost], and the
    difference of the two balances is not [cost].  And a confirmation is
    not always sent: with the credentials at their default, the empty
    string, the bet is filled and committed and [send_whatsapp] raises
    before any request. *)
Lemma fill_is_not_an_exact_debit :
  (let w := snd (inbound demo_env
                   (Body (webhook_body (button_message "u1" "BET|1|YES"))) fresh) in
   let out := place_bet demo_env "u1" 1 "YES" 10 w in
   let cost := mul 10%float 0.51%float in
   balance <$> users (store w) !! "u1" = Some 995%float
   /\ yes_price <$> markets (store w) !! 1 = Some 0.51%float
   /\ fst out = Ok tt
   /\ balance <$> users (store (snd out)) !! "u1" = Some (sub 995%float cost)
   /\ PrimFloat.eqb (sub 995%float (sub 995%float cost)) cost = false)
  /\ (let out := place_bet silent_env "u1" 1 "YES" 10 fresh in
      fst out = Raise (RuntimeError "Missing WHATSAPP_TOKEN or PHONE_NUMBER_ID env vars")
      /\ qty <$> bets (store (snd out)) = [10]
      /\ posts (log (snd out)) = 0%nat).
Proof. vm_compute. repeat split. Qed.

(** Witness of C3: a sender with 1.00 asks for ten units at 0.50. *)
Lemma place_bet_rejected_witness :
  let u := {| wa_id := "u1"; balance := 1%float |} in
  let w := at_rest (db_with (market_at true 0.50 0.50) [u]) [] in
  let msg := "Insufficient balance. Need 5.00, you have 1.00" in
  let out := place_bet demo_env "u1" 1 "YES" 10 w in
  get_or_create_user "u1" w = (Ok u, w)
  /\ rejection (session w) u 1 "YES" 10 msg
  /\ store (snd out) = store w
  /\ log (snd out) = [Posted (text_payload "u1" msg)]
  /\ fst out = Ok tt.
Proof.
  intros u w msg out.
  assert (H1 : get_or_create_user "u1" w = (Ok u, w)) by (vm_compute; reflexivity).
  assert (H2 : rejection (session w) u 1 "YES" 10 msg).
  { replace msg with ("Insufficient balance. Need "
                        ++ fmt2 (mul 10%float (quote (market_at true 0.50 0.50)
                                                 (PyStr.upper "YES")))
                        ++ ", you have " ++ fmt2 (balance u)) by (vm_compute; reflexivity).
    apply (InsufficientBalance (session w) u 1 "YES" 10 (market_at true 0.50 0.50) 10%float);
      try (vm_compute; reflexivity).
    left. vm_compute. reflexivity. }
  split; [exact H1|]. split; [exact H2|].
  destruct (place_bet_rejected demo_env "u1" 1 "YES" 10 w u w H1) as (Hr & _).
  destruct (Hr msg H2) as [Hc _]. destruct (Hc eq_refl) as (Hsnd & Hok & _).
  subst out. rewrite Hsnd. split; [reflexivity|]. split; [reflexivity|].
  apply Hok. split; [vm_compute; reflexivity|].
  eexists _, _. split; [vm_compute; reflexivity|]. split; [vm_compute | ]; reflexivity.
Defined.

(** C3 as stated fails: a bet that fails is not always answered with a
    message.  No market has the id [2^63], and the call raises
    [OverflowError] where the key is bound, before the "not found" text;
    and with the credentials at their default, the empty string, the
    rejection of an unknown market raises in [send_whatsapp] before any
    request.  In both cases nothing is posted. *)
Lemma failed_bet_without_message :
  (let out := place_bet demo_env "u1" (2 ^ 63) "YES" 10 fresh in
   markets (store fresh) !! (2 ^ 63) = None
   /\ fst out = Raise OverflowError
   /\ posts (log (snd out)) = 0%nat)
  /\ (let out := place_bet silent_env "u1" 7 "YES" 10 fresh in
      markets (store fresh) !! 7 = None
      /\ fst out = Raise (RuntimeError "Missing WHATSAPP_TOKEN or PHONE_NUMBER_ID env vars")
      /\ posts (log (snd out)) = 0%nat).
Proof. vm_compute. repeat split. Qed.

(** C2 as stated fails, at three places.  A quote above 0.99 falls: a
    market quoted at 0.995 / 0.005 takes ten units of YES, and the new YES
    quote is [min(0.99, 1.005) = 0.99], below the old one.  Far below zero
    the impact is lost in rounding: at the first double below [-2^44], one
    unit of YES leaves the quote as it is, neither above the old one nor at
    0.99, while at [-2^44] itself the quote still rises.  And not every
    quantity gets as far as the formula: [2^1024 - 2^970], of either sign, is
    refused by the conversion to a double and no quote is set, while the
    quantity just before it still goes through. *)
Lemma quote_above_cap_falls :
  (let m := market_at true 0.995 0.005 in
   exists m',
     apply_price_impact m "YES" 10 = Ok m'
     /\ yes_price m' = 0.99%float
     /\ ltb (yes_price m') (yes_price m) = true)
  /\ (let m := market_at true (-4503599627370497 # 256) 0.50 in
      exists m',
        apply_price_impact m "YES" 1 = Ok m'
        /\ PrimFloat.leb (yes_price m) (lit 0.99) = true
        /\ PrimFloat.ltb (yes_price m) (lit (-17592186044416)) = true
        /\ yes_price m' = yes_price m
        /\ ltb (yes_price m) (yes_price m') = false
        /\ PrimFloat.eqb (yes_price m') (lit 0.99) = false)
  /\ (let m := market_at true (-17592186044416) 0.50 in
      exists m',
        apply_price_impact m "YES" 1 = Ok m'
        /\ ltb (yes_price m) (yes_price m') = true)
  /\ (let m := market_at true 0.50 0.50 in
      apply_price_impact m "YES" float_overflow = Raise OverflowError
      /\ apply_price_impact m "YES" (- float_overflow) = Raise OverflowError
      /\ exists m', apply_price_impact m "YES" (float_overflow - 1) = Ok m').
Proof.
  split; [eexists; vm_compute; repeat split|].
  split; [eexists; vm_compute; repeat split|].
  split; [eexists; vm_compute; repeat split|].
  split; [vm_compute; reflexivity|]. split; [vm_compute; reflexivity|].
  eexists. vm_compute. reflexivity.
Qed.

(** Witness of C4: the text [" 1 "] in a body as the Cloud API sends it,
    on the seeded database. *)
Lemma digit_text_reply_witness :
  let md := cloud_text "u1" " 1 " in
  let data := cloud_text_body "u1" " 1 " in
  let out := inbound demo_env (Body data) fresh in
  (carries data (JDict md)
   /\ assoc "from" md = Some (JStr "u1") /\ "u1" <> ""
   /\ assoc "type" md = Some (JStr "text")
   /\ assoc "text" md = Some (JDict [("body", JStr " 1 ")])
   /\ PyStr.isdigit (PyStr.lower (PyStr.strip " 1 ")) = true)
  /\ exists m,
       markets (store fresh) !! 1 = Some m
       /\ fst out = Ok AckOk
       /\ log (snd out)
          = [Committed (with_new_user "u1" initial_store); Posted (buttons_payload "u1" m)].
Proof.
  intros md data out.
  assert (H0 : carries data (JDict md)).
  { eexists _, _. split; [eexists _, _, _, _; repeat split; reflexivity|].
    repeat split; reflexivity. }
  assert (H1 : "u1" <> "") by discriminate.
  assert (H2 : PyStr.isdigit (PyStr.lower (PyStr.strip " 1 ")) = true) by reflexivity.
  split; [by repeat split|].
  pose proof (digit_text_reply demo_env data md [("body", JStr " 1 ")] "u1" " 1 " fresh
                H0 eq_refl H1 eq_refl eq_refl eq_refl H2) as H.
  cbv zeta in H.
  change (PyStr.int (PyStr.lower (PyStr.strip " 1 "))) with (Some 1) in H. cbv iota in H.
  destruct (markets (store fresh) !! 1) as [m|] eqn:Hm; [|vm_compute in Hm; discriminate].
  exists m. split; [reflexivity|].
  destruct H as [Hc _]. destruct (Hc eq_refl) as (Hsnd & Hok & _). fold out in Hsnd, Hok.
  vm_compute in Hm. injection Hm as <-.
  split.
  - apply Hok. split; [vm_compute; reflexivity|].
    eexists _, _. split; [vm_compute; reflexivity|]. split; [vm_compute | ]; reflexivity.
  - rewrite Hsnd. vm_compute. reflexivity.
Defined.

(** C4 as stated fails.  The prompt does not wait for an open market: with
    market 1 closed, the text ["1"] is still answered with the two-button
    prompt.  And a text of digits is not always answered at all: the id
    [2^63] is beyond the range of the key and the lookup raises; the
    superscript two passes [isdigit] but is refused by [int()]; and so is a
    text of 4301 digits, though it spells the number of a market that
    exists.  In these three cases nothing is sent.  Nor is anything sent
    with the credentials at their default, the empty string: the text ["7"]
    names no market, and [send_whatsapp] raises before any request. *)
Lemma closed_market_gets_prompt :
  (let m := market_at false 0.50 0.50 in
   let w := at_rest (db_with m []) [] in
   let out := inbound demo_env (Body (webhook_body (text_message "u1" "1"))) w in
   markets (store w) !! 1 = Some m
   /\ is_open m = false
   /\ fst out = Ok AckOk
   /\ log (snd out)
      = [Committed (with_new_user "u1" (db_with m [])); Posted (buttons_payload "u1" m)])
  /\ (let text := "9223372036854775808" in
      let out := inbound demo_env (Body (webhook_body (text_message "u1" text))) fresh in
      PyStr.isdigit text = true
      /\ markets (store fresh) !! (2 ^ 63) = None
      /\ fst out = Ok (AckFail OverflowError)
      /\ posts (log (snd out)) = 0%nat)
  /\ (let text := "²" in
      let out := inbound demo_env (Body (webhook_body (text_message "u1" text))) fresh in
      PyStr.isdigit text = true
      /\ fst out = Ok (AckFail ValueError)
      /\ posts (log (snd out)) = 0%nat)
  /\ (let text := padded_one in
      let out := inbound demo_env (Body (webhook_body (text_message "u1" text))) fresh in
      PyStr.isdigit text = true
      /\ PyStr.int_literal text = Some 1
      /\ markets (store fresh) !! 1 <> None
      /\ fst out = Ok (AckFail ValueError)
      /\ posts (log (snd out)) = 0%nat)
  /\ (let out := inbound silent_env (Body (webhook_body (text_message "u1" "7"))) fresh in
      markets (store fresh) !! 7 = None
      /\ fst out = Ok (AckFail (RuntimeError
                                  "Missing WHATSAPP_TOKEN or PHONE_NUMBER_ID env vars"))
      /\ posts (log (snd out)) = 0%nat).
Proof.
  split; [vm_compute; repeat split|].
  split; [vm_compute; repeat split|].
  split; [vm_compute; repeat split|].
  split; [|vm_compute; repeat split].
  cbv zeta. split; [vm_compute; reflexivity|]. split; [vm_compute; reflexivity|].
  split; [vm_compute; discriminate|]. split; vm_compute; reflexivity.
Qed.

(** Witness of C5: a delivery-status callback as the Cloud API sends it. *)
Lemma no_messages_acknowledged_witness :
  let data := cloud_body cloud_status in
  exists v,
    (resolves data v /\ py_get v "messages" = Ok JNull /\ truthy JNull = false)
    /\ inbound demo_env (Body data) fresh = (Ok AckOk, fresh).
Proof.
  intros data. eexists.
  assert (H1 : resolves data (JDict (("messaging_product", JStr "whatsapp")
                                       :: ("metadata",
                                           JDict [("display_phone_number", JStr "15550001111");
                                                  ("phone_number_id", JStr "106540352242922")])
                                       :: cloud_status)))
    by (eexists _, _, _, _; repeat split; reflexivity).
  split; [split; [exact H1 | split; reflexivity]|].
  destruct (no_messages_acknowledged demo_env fresh) as (_ & _ & H & _).
  exact (H data _ JNull H1 eq_refl eq_refl).
Defined.

(** C5 as stated fails: a body without [entry] is not answered with
    [{"ok": True}].  The empty object gets
    [{"ok": False, "error": "list index out of range"}]. *)
Lemma missing_entry_is_soft_failure :
  inbound demo_env (Body (JDict [])) fresh = (Ok (AckFail IndexError), fresh).
Proof. reflexivity. Qed.

(** Witness of C10: the world after the first bet. *)
Lemma webhook_bets_witness :
  let w := snd (inbound demo_env
                  (Body (webhook_body (button_message "u1" "BET|1|YES"))) fresh) in
  reachable w /\ all_bets_of_ten (store w).
Proof.
  intros w. assert (Hw : reachable w) by (apply reach_request, reach_start).
  split; [exact Hw | exact (webhook_bets_have_qty_10 w Hw)].
Defined.

(** C7 as stated fails on its last clause: clamping at a boundary does
    not break the sum.  After every update of a market in range
    [yes_price + no_price == 1.0] holds; and at the boundary, where a market
    at 0.99 / 0.01 takes ten more units of YES, the cap puts the YES quote
    back at 0.99, the NO quote is [1.0 - 0.99], which the clamp at 0.01
    leaves alone, and the two add up to 1.0.  Nor is every quantity
    [qty >= 0] applied: [2^1024 - 2^970] is refused by the conversion to a
    double, while the quantity just before it is the last that updates the
    quotes. *)
Lemma clamping_keeps_sum :
  (forall (m : Market) side qty m',
      in_range64 (yes_price m) -> in_range64 (no_price m) -> 0 <= qty ->
      apply_price_impact m side qty = Ok m' ->
      add (yes_price m') (no_price m') = 1%float)
  /\ (exists m',
       apply_price_impact (market_at true 0.99 0.01) "YES" 10 = Ok m'
       /\ yes_price m' = 0.99%float
       /\ no_price m' = sub 1%float 0.99%float
       /\ ltb 0.01%float (no_price m') = true
       /\ add (yes_price m') (no_price m') = 1%float)
  /\ apply_price_impact (market_at true 0.50 0.50) "YES" float_overflow
     = Raise OverflowError
  /\ exists m',
       apply_price_impact (market_at true 0.50 0.50) "YES" (float_overflow - 1) = Ok m'
       /\ yes_price m' = 0.6%float /\ no_price m' = 0.4%float.
Proof.
  split; [|split; [|split]].
  - intros m side qty m' Hy Hn Hq Hm.
    by destruct (price_impact_sound m side qty m' Hy Hn Hq Hm) as (_ & _ & _ & Hs).
  - eexists. vm_compute. repeat split.
  - vm_compute. reflexivity.
  - eexists. vm_compute. repeat split.
Qed.

(** Witness of C7: a market at the boundary 0.99 / 0.01 takes ten units of
    YES, and then [2^1024] units. *)
Lemma price_impact_in_range_witness :
  let m := market_at true 0.99 0.01 in
  (in_range64 (yes_price m) /\ in_range64 (no_price m)
   /\ 0 <= 10 < float_overflow /\ float_overflow <= 2 ^ 1024)
  /\ (exists m',
        apply_price_impact m "YES" 10 = Ok m'
        /\ in_range64 (yes_price m') /\ in_range64 (no_price m')
        /\ no_price m' = sub (lit 1.0) (yes_price m')
        /\ add (yes_price m') (no_price m') = lit 1.0)
  /\ apply_price_impact m "YES" (2 ^ 1024) = Raise OverflowError.
Proof.
  intros m.
  assert (H1 : in_range64 (yes_price m)) by (split; vm_compute; reflexivity).
  assert (H2 : in_range64 (no_price m)) by (split; vm_compute; reflexivity).
  assert (H3 : 0 <= 10 < float_overflow) by (split; [lia | reflexivity]).
  assert (H4 : float_overflow <= 2 ^ 1024) by (vm_compute; discriminate).
  split; [by repeat split|]. split.
  - destruct (price_impact_in_range m "YES" 10 H1 H2 (proj1 H3)) as [H _].
    exact (H (proj2 H3)).
  - assert (H5 : 0 <= 2 ^ 1024) by (vm_compute; discriminate).
    destruct (price_impact_in_range m "YES" (2 ^ 1024) H1 H2 H5) as [_ H].
    exact (H H4).
Defined.

(** Witness of C2: the seeded market 1 takes ten units of YES. *)
Lemma price_impact_moves_quote_witness :
  let m := market_at true 0.50 0.50 in
  (Z.abs 10 < float_overflow /\ 0 < 10
   /\ PrimFloat.leb (quote m "YES") (lit 0.99) = true
   /\ PrimFloat.leb (lit (-17592186044416)) (quote m "YES") = true)
  /\ exists m',
       apply_price_impact m "YES" 10 = Ok m'
       /\ yes_price m' = 0.51%float /\ no_price m' = 0.49%float
       /\ ltb (quote m "YES") (quote m' "YES") = true.
Proof.
  intros m.
  assert (H1 : Z.abs 10 < float_overflow) by reflexivity.
  assert (H2 : 0 < 10) by lia.
  assert (H3 : PrimFloat.leb (quote m "YES") (lit 0.99) = true) by (vm_compute; reflexivity).
  assert (H4 : PrimFloat.leb (lit (-17592186044416)) (quote m "YES") = true)
    by (vm_compute; reflexivity).
  split; [by repeat split|].
  destruct (price_impact_moves_quote m "YES" 10) as [H _].
  destruct (H H1) as (q & m' & _ & Hm' & _ & _ & Hmono).
  destruct (Hmono H2 H3) as [_ Hs]. destruct (Hs H4) as [Hlt | Hcap].
  - exists m'. split; [exact Hm'|].
    vm_compute in Hm'. injection Hm' as <-.
    split; [vm_compute; reflexivity|]. split; [vm_compute; reflexivity | exact Hlt].
  - exfalso. vm_compute in Hm'. injection Hm' as <-. vm_compute in Hcap. discriminate.
Defined.

(** Witness of C9: the world after the first bet. *)
Lemma balances_witness :
  let w := snd (inbound demo_env
                  (Body (webhook_body (button_message "u1" "BET|1|YES"))) fresh) in
  reachable w /\ balances_nonneg64 (store w).
Proof.
  intros w. assert (Hw : reachable w) by (apply reach_request, reach_start).
  split; [exact Hw | exact (balances_never_negative w Hw)].
Defined.

End RunsBinary64.

Section RunsExact.

#[local] Existing Instance Exact.arith.

#[local] Existing Instance PyStr.latin1.

Local Open Scope Q_scope.

(** The same first bet in exact arithmetic. *)
Example first_bet_exact :
  let out := inbound demo_env
               (Body (webhook_body (button_message "u1" "BET|1|YES"))) fresh in
  fst out = Ok AckOk
  /\ (exists u, users (store (snd out)) !! "u1" = Some u /\ balance u == 995)
  /\ (exists m, markets (store (snd out)) !! 1%Z = Some m
                /\ yes_price m == 0.51 /\ no_price m == 0.49).
Proof.
  split; [vm_compute; reflexivity|].
  split; eexists; (split; [vm_compute; reflexivity|]); by vm_compute.
Qed.

(** A market at the boundary 0.99 / 0.01 takes ten units of YES. *)
Example boundary_in_range_exact :
  let m := market_at true 0.99 0.01 in
  (in_range (yes_price m) /\ in_range (no_price m) /\ (0 <= 10)%Z)
  /\ exists m',
       apply_price_impact m "YES" 10 = Ok m'
       /\ in_range (yes_price m') /\ in_range (no_price m')
       /\ yes_price m' + no_price m' == 1.
Proof.
  intros m.
  assert (H1 : in_range (yes_price m)) by (split; by vm_compute).
  assert (H2 : in_range (no_price m)) by (split; by vm_compute).
  assert (H3 : (0 <= 10)%Z) by lia.
  split; [by repeat split|].
  exact (price_impact_in_range_exact m "YES" 10 H1 H2 H3).
Qed.

(** Without rounding, the two quotes sum to exactly 1 after every update,
    also at the boundary, where a market at 0.99 / 0.01 takes ten units of
    YES and stays at 0.99 / 0.01. *)
Example clamping_keeps_sum_exact :
  (forall (m : Market) side (qty : Z) m',
      apply_price_impact m side qty = Ok m' -> yes_price m' + no_price m' == 1)
  /\ exists m',
       apply_price_impact (market_at true 0.99 0.01) "YES" 10 = Ok m'
       /\ yes_price m' == 0.99 /\ no_price m' == 0.01.
Proof.
  split; [apply price_impact_sum|].
  eexists. split; [vm_compute; reflexivity|]. split; by vm_compute.
Qed.

Example quote_above_cap_falls_exact :
  let m := market_at true 0.995 0.005 in
  exists m',
    apply_price_impact m "YES" 10 = Ok m'
    /\ yes_price m' == 0.99
    /\ yes_price m' < yes_price m.
Proof. eexists. split; [vm_compute; reflexivity|]. split; by vm_compute. Qed.

(** The world after the first bet. *)
Example balances_after_first_bet_exact :
  let w := snd (inbound demo_env
                  (Body (webhook_body (button_message "u1" "BET|1|YES"))) fresh) in
  reachable w /\ balances_nonneg (store w).
Proof.
  intros w. assert (Hw : reachable w) by (apply reach_request, reach_start).
  split; [exact Hw | exact (balances_never_negative_exact w Hw)].
Qed.

End RunsExact.

(** ** Splitting *)

Lemma split_plain sep s :
  PyStr.all_chars (fun c => negb (Ascii.eqb c sep)) s = true -> PyStr.split sep s = [s].
Proof.
  induction s as [|c r IH]; [done|]. cbn [PyStr.all_chars PyStr.split]. intros H.
  apply andb_true_iff in H as [Hc Hr]. apply negb_true_iff in Hc. by rewrite Hc, (IH Hr).
Qed.

Lemma split_at sep s1 s2 :
  PyStr.all_chars (fun c => negb (Ascii.eqb c sep)) s1 = true ->
  PyStr.split sep (s1 ++ String sep s2) = s1 :: PyStr.split sep s2.
Proof.
  induction s1 as [|c r IH]; intros H.
  - change (PyStr.split sep (String sep s2) = "" :: PyStr.split sep s2).
    cbn [PyStr.split]. by rewrite Ascii.eqb_refl.
  - change (PyStr.split sep (String c (r ++ String sep s2))
            = String c r :: PyStr.split sep s2).
    cbn [PyStr.all_chars PyStr.split] in *.
    apply andb_true_iff in H as [Hc Hr]. apply negb_true_iff in Hc.
    by rewrite Hc, (IH Hr).
Qed.

Lemma digit_not_bar c : PyStr.isdigit_char c = true -> negb (Ascii.eqb c "|") = true.
Proof.
  intros Hc. apply negb_true_iff. destruct (Ascii.eqb_spec c "|") as [-> | ]; [|done].
  discriminate Hc.
Qed.

(** [str(n)] holds no [|]. *)
Lemma of_int_no_bar n :
  PyStr.all_chars (fun c => negb (Ascii.eqb c "|")) (PyStr.of_int n) = true.
Proof.
  assert (Hu : forall d, PyStr.all_chars (fun c => negb (Ascii.eqb c "|"))
                           (NilZero.string_of_uint d) = true).
  { intros d. unfold NilZero.string_of_uint.
    destruct d; [reflexivity|..];
      exact (all_chars_impl _ _ _ digit_not_bar (uint_digits _)). }
  unfold PyStr.of_int. destruct (Z.to_int n); cbn [NilZero.string_of_int PyStr.all_chars];
    [apply Hu|]. by rewrite Hu.
Qed.

Lemma split_button_id n side :
  PyStr.all_chars (fun c => negb (Ascii.eqb c "|")) side = true ->
  PyStr.split "|" ("BET|" ++ PyStr.of_int n ++ "|" ++ side) = ["BET"; PyStr.of_int n; side].
Proof.
  intros Hs. change ("BET|" ++ PyStr.of_int n ++ "|" ++ side)
    with ("BET" ++ String "|" (PyStr.of_int n ++ String "|" side)).
  rewrite split_at by reflexivity. rewrite split_at by apply of_int_no_bar.
  by rewrite split_plain.
Qed.

Section MoreGeneric.

Context {num : Type} `{A : Arith num} `{Uni : PyStr.Unicode} (env : Env (num := num)).

Ltac mstep :=
  repeat (progress (unfold mbind, M_bind, mret, M_ret, lift, raise, get_session, get_market,
                      put_session, set_user, set_market, add_bet, db_commit, emit;
                    cbn [fst snd store session log users markets bets])).

(** A tap on a button whose id reads [BET|n|side]. *)
Lemma button_tap_bet sender n side w :
  Z.abs n < 10 ^ 4300 ->
  PyStr.all_chars (fun c => negb (Ascii.eqb c "|")) side = true ->
  button_tap env sender (button_message sender ("BET|" ++ PyStr.of_int n ++ "|" ++ side)) w
  = (place_bet env sender n side 10;; mret true) w.
Proof.
  intros Hn Hs. unfold button_tap, button_message.
  unfold mbind at 1 2 3 4 5 6, M_bind at 1 2 3 4 5 6, lift. cbn [py_get assoc String.eqb Ascii.eqb Bool.eqb default py_eq_str py_or truthy py_item str_method].
  cbn. rewrite (split_button_id n side Hs). cbn [String.eqb Ascii.eqb Bool.eqb].
  unfold py_int. rewrite (int_of_int n Hn). reflexivity.
Qed.

(** X13. The prompt and the handler agree on the button ids: the two buttons
    [send_yes_no_buttons] attaches for a market carry the ids
    [BET|<id>|YES] and [BET|<id>|NO], and a tap on either is read back as a
    bet of ten units on that market and that side.  The id is read back by
    [int()], which takes a literal of up to 4300 digits; the keys of the
    table have at most 19. *)
Theorem prompt_buttons_round_trip to_wa m :
  let id_of side := "BET|" ++ PyStr.of_int (m_id m) ++ "|" ++ side in
  button_ids (buttons_payload to_wa m) = [id_of "YES"; id_of "NO"]
  /\ (Z.abs (m_id m) < 10 ^ 4300 ->
      forall sender side w,
        side = "YES" \/ side = "NO" ->
        button_tap env sender (button_message sender (id_of side)) w
        = (place_bet env sender (m_id m) side 10;; mret true) w).
Proof.
  intros id_of. split; [reflexivity|].
  intros Hn sender side w [-> | ->]; by apply button_tap_bet.
Qed.

(** A button tap from a sender goes through the lazy user lookup and then
    [place_bet] with quantity 10. *)
Lemma inbound_button sender n side w :
  Z.abs n < 10 ^ 4300 ->
  sender <> "" ->
  PyStr.all_chars (fun c => negb (Ascii.eqb c "|")) side = true ->
  inbound env (Body (webhook_body
                       (button_message sender ("BET|" ++ PyStr.of_int n ++ "|" ++ side)))) w
  = try_except
      (with_session (get_or_create_user sender;;
                     place_bet env sender n side 10;;
                     mret AckOk))
      (fun e => mret (AckFail e)) w.
Proof.
  intros Hn Hwa Hs. apply String.eqb_neq in Hwa.
  unfold inbound, process, webhook_body, value_body.
  unfold try_except, with_session, mbind, M_bind, lift.
  cbn -[button_tap get_or_create_user place_bet message_text text_command].
  rewrite Hwa. cbn -[button_tap get_or_create_user place_bet message_text text_command].
  destruct (get_or_create_user sender _) as [[u|e] w1]; [|done].
  rewrite (button_tap_bet sender n side w1 Hn Hs).
  unfold mbind, M_bind, mret, M_ret.
  destruct (place_bet env sender n side 10 w1) as [[[]|e] w2]; done.
Qed.

(** X4. Only the first message of the first change of the first entry is
    handled: whatever else the body carries, the answer and the world are
    those of the body with that one message. *)
Theorem only_first_message_handled msg more_messages more_changes more_entries w :
  inbound env (Body (batch_body msg more_messages more_changes more_entries)) w
  = inbound env (Body (webhook_body msg)) w.
Proof. reflexivity. Qed.

(** X5. A message without a sender id ([from] missing, null or empty) is
    acknowledged with [{"ok": True}]; no user is created, nothing is sent and
    nothing is written. *)
Theorem message_without_sender_ignored md w :
  truthy (default JNull (assoc "from" md)) = false ->
  inbound env (Body (webhook_body (JDict md))) w = (Ok AckOk, w).
Proof.
  intros Hf. unfold inbound, try_except, process, webhook_body, value_body. mstep.
  cbn. by rewrite Hf.
Qed.


(** *** What one request adds to the log *)

Lemma posts_app (l1 l2 : list (event (num := num))) : posts (l1 ++ l2) = (posts l1 + posts l2)%nat.
Proof. unfold posts. by rewrite List.filter_app, length_app. Qed.

Lemma commits_app (l1 l2 : list (event (num := num))) :
  commits (l1 ++ l2) = (commits l1 + commits l2)%nat.
Proof. unfold commits. by rewrite List.filter_app, length_app. Qed.

Lemma attempts_counts payload :
  commits (attempts env payload) = 0%nat /\ (posts (attempts env payload) <= 1)%nat.
Proof. unfold attempts. destruct (configured env); cbn; lia. Qed.

(** A message to a known sender's [place_bet]: at most the commit of the
    fill and the one message. *)
Lemma place_bet_log wa mid sd qty w u :
  users (session w) !! wa = Some u ->
  exists l, log (snd (place_bet env wa mid sd qty w)) = (log w ++ l)%list
            /\ (commits l <= 1)%nat /\ (posts l <= 1)%nat.
Proof.
  intros Hl. pose proof (get_or_create_user_existing wa w u Hl) as Hu.
  assert (Hsent : forall msg, rejection (session w) u mid sd qty msg ->
            exists l, log (snd (place_bet env wa mid sd qty w)) = (log w ++ l)%list
                      /\ (commits l <= 1)%nat /\ (posts l <= 1)%nat).
  { intros msg Hr. rewrite (place_bet_reject_eq _ _ _ _ _ _ _ _ _ Hu Hr), send_then_return.
    cbn [log]. eexists. split; [reflexivity|].
    destruct (attempts_counts (text_payload wa msg)). lia. }
  destruct (markets (session w) !! mid) as [m|] eqn:Hm; cycle 1.
  { destruct (int64 mid) eqn:H64; [by eapply Hsent, MarketNotFound|].
    rewrite (place_bet_bad_id_eq _ _ _ _ _ _ _ _ Hu Hm H64).
    exists []. rewrite app_nil_r. cbn. split; [done|lia]. }
  destruct (is_open m) eqn:Ho; [|by eapply Hsent, MarketClosed].
  destruct (upper_side_cases sd) as [Hsd | [H1 H2]];
    [|by eapply Hsent, InvalidSide].
  destruct (to_float_cases qty) as [[q Hq] | Hq].
  - destruct (ltb (balance u) (mul q (quote m (PyStr.upper sd)))) eqn:Hb;
      [by eapply Hsent, InsufficientBalance|].
    destruct (to_float_price_impact m (PyStr.upper sd) qty q Hq) as [m' Hm'].
    rewrite (place_bet_fill_eq _ _ _ _ _ _ _ _ _ _ _ Hu Hm Ho Hsd Hq Hb Hm'), send_then_return.
    cbn [log]. rewrite <- app_assoc. eexists. split; [reflexivity|].
    rewrite commits_app, posts_app.
    match goal with |- context [attempts env ?p] => destruct (attempts_counts p) end.
    cbn. lia.
  - rewrite (place_bet_overflow_eq _ _ _ _ _ _ _ _ _ Hu Hm Ho Hsd Hq).
    exists []. rewrite app_nil_r. cbn. split; [done|lia].
Qed.

(** The tap branch either declines, leaving the world as it is, or ends the
    handling of the request. *)
Lemma button_tap_effect wa msg w u :
  users (session w) !! wa = Some u ->
  button_tap env wa msg w = (Ok false, w)
  \/ (fst (button_tap env wa msg w) <> Ok false
      /\ exists l, log (snd (button_tap env wa msg w)) = (log w ++ l)%list
                   /\ (commits l <= 1)%nat /\ (posts l <= 1)%nat).
Proof.
  intros Hu.
  assert (Hstop : forall e, (Raise e : result bool) <> Ok false
            /\ exists l, log w = (log w ++ l)%list /\ (commits l <= 1)%nat /\ (posts l <= 1)%nat).
  { intros e. split; [done|]. exists []. rewrite app_nil_r. cbn. split; [done|lia]. }
  unfold button_tap. unfold mbind, M_bind, lift, mret, M_ret.
  repeat match goal with
         | |- context [match ?x with _ => _ end] =>
             lazymatch x with
             | place_bet _ _ _ _ _ _ => fail
             | _ => destruct x eqn:?
             end
         end; cbn [fst snd]; try (by left); try (right; by apply Hstop);
    right;
    match goal with
    | |- context [place_bet env wa ?mid ?sd 10 w] =>
        destruct (place_bet_log wa mid sd 10 w u Hu) as (l' & Hl & ?);
        destruct (place_bet env wa mid sd 10 w) as [[[]|e] w'];
        cbn [fst snd] in *; (split; [done|]); eauto
    end.
Qed.


Lemma message_text_world msg w : snd (message_text msg w) = w.
Proof.
  unfold message_text. unfold mbind, M_bind, lift, mret, M_ret.
  repeat match goal with
         | |- context [match ?x with _ => _ end] => destruct x
         end; reflexivity.
Qed.

(** The command dispatch writes nothing and posts at most one message. *)
Lemma text_command_world wa t w :
  exists l,
    snd (text_command env wa t w)
    = {| store := store w; session := session w; log := (log w ++ l)%list |}
    /\ commits l = 0%nat /\ (posts l <= 1)%nat.
Proof.
  assert (Hsend : forall payload, exists l,
            snd ((send_whatsapp env payload;; mret tt) w)
            = {| store := store w; session := session w; log := (log w ++ l)%list |}
            /\ commits l = 0%nat /\ (posts l <= 1)%nat).
  { intros payload. rewrite send_then_return. eexists. split; [reflexivity|].
    apply attempts_counts. }
  assert (Hnone : exists l,
            w = {| store := store w; session := session w; log := (log w ++ l)%list |}
            /\ commits l = 0%nat /\ (posts l <= 1)%nat).
  { exists []. rewrite app_nil_r. split; [by destruct w|]. cbn. lia. }
  unfold text_command, send_text, send_yes_no_buttons.
  destruct (_ || _); [apply Hsend|].
  destruct (String.eqb t "markets"); [mstep; apply Hsend|].
  destruct (String.eqb t "balance").
  { mstep. destruct (users (session w) !! wa); [apply Hsend | exact Hnone]. }
  destruct (PyStr.isdigit t); [|apply Hsend].
  mstep. destruct (py_int t); [|exact Hnone].
  destruct (markets (session w) !! x); [apply Hsend|].
  destruct (int64 x); [apply Hsend | exact Hnone].
Qed.


Lemma dispatch_log wa msg w :
  exists l,
    log (snd ((get_or_create_user wa;;
               tapped ← button_tap env wa msg;
               if (tapped : bool) then mret AckOk
               else text ← message_text msg;
                    text_command env wa text;;
                    mret AckOk) w))
    = (log w ++ l)%list
    /\ (commits l <= 2)%nat /\ (posts l <= 1)%nat.
Proof.
  destruct (get_or_create_user_total wa w) as (u & w1 & Hu).
  destruct (get_or_create_user_world wa w u w1 Hu) as [Hu1 Hw1].
  assert (H1 : exists l1, log w1 = (log w ++ l1)%list /\ (commits l1 <= 1)%nat /\ posts l1 = 0%nat).
  { destruct Hw1 as [-> | (_ & _ & _ & ->)].
    - exists []. rewrite app_nil_r. cbn. split; [done|lia].
    - eexists. split; [reflexivity|]. cbn. lia. }
  destruct H1 as (l1 & Hl1 & Hc1 & Hp1).
  unfold mbind at 1, M_bind at 1. rewrite Hu.
  unfold mbind at 1, M_bind at 1.
  destruct (button_tap_effect wa msg w1 u Hu1) as [-> | (Hr & l2 & Hl2 & Hc2 & Hp2)].
  - unfold mbind at 1, M_bind at 1.
    pose proof (message_text_world msg w1) as Hm.
    destruct (message_text msg w1) as [[t|e] w2]; cbn [snd] in Hm; subst w2.
    + destruct (text_command_world wa t w1) as (l3 & Hw3 & Hc3 & Hp3).
      unfold mbind, M_bind, mret, M_ret.
      destruct (text_command env wa t w1) as [[[]|e] w3]; cbn [snd] in *; subst w3;
        cbn [log]; rewrite Hl1, <- app_assoc; eexists; (split; [reflexivity|]);
        rewrite commits_app, posts_app; lia.
    + cbn [snd]. exists l1. split; [done|]. lia.
  - destruct (button_tap env wa msg w1) as [[[]|e] w2]; cbn [fst snd] in *; try done;
      unfold mret, M_ret; cbn [snd]; rewrite Hl2, Hl1, <- app_assoc;
      eexists; (split; [reflexivity|]); rewrite commits_app, posts_app; lia.
Qed.

Lemma adds_lift {T} (r : result T) : adds_at_most (num := num) 2 1 (lift r).
Proof. intros w. exists []. rewrite app_nil_r. cbn. split; [done|lia]. Qed.

Lemma adds_ret {T} (x : T) : adds_at_most (num := num) 2 1 (mret x).
Proof. intros w. exists []. rewrite app_nil_r. cbn. split; [done|lia]. Qed.

(** A step that leaves the world alone, followed by the rest. *)
Lemma adds_after_lift {T U} (r : result T) (f : T -> M (num := num) U) :
  (forall x, adds_at_most 2 1 (f x)) -> adds_at_most 2 1 (lift r ≫= f).
Proof.
  intros Hf w. unfold mbind, M_bind, lift. destruct r as [x|e]; [apply Hf|].
  exists []. rewrite app_nil_r. cbn. split; [done|lia].
Qed.

Lemma adds_with_session {T} (body : M (num := num) T) :
  adds_at_most 2 1 body -> adds_at_most 2 1 (with_session body).
Proof.
  intros Hb w. unfold with_session.
  destruct (Hb {| store := store w; session := store w; log := log w |}) as (l & Hl & ?).
  destruct (body _) as [r w']. cbn [snd log] in *. eauto.
Qed.

(** X3. One request, at most one reply: whatever the body and whatever the
    Graph API answers, a request makes at most one post to the Graph API and
    at most two commits (the new sender, the fill). *)
Theorem one_reply_per_request req : adds_at_most 2 1 (inbound env req).
Proof.
  destruct req as [|data].
  { intros w. exists []. rewrite app_nil_r. cbn. split; [done|lia]. }
  assert (Hp : adds_at_most 2 1 (process env data)).
  { unfold process.
    repeat first
      [ apply adds_ret
      | apply adds_after_lift; intros ?
      | match goal with |- adds_at_most _ _ (if ?b then _ else _) => destruct b end ].
    apply adds_with_session. apply adds_after_lift. intros wa. exact (dispatch_log wa _). }
  intros w. specialize (Hp w). unfold inbound, try_except.
  by destruct (process env data w) as [[r|e] w'].
Qed.


(** *** Text messages *)

(** X8. Text messages only read: whatever the text, the handler writes nothing
    beyond the lazy creation of the sender (no balance, quote or bet changes)
    and posts at most one message. *)
Theorem text_messages_only_read wa body w :
  wa <> "" ->
  let w1 := snd (get_or_create_user wa (at_rest (store w) (log w))) in
  let out := inbound env (Body (webhook_body (text_message wa body))) w in
  store (snd out) = store w1
  /\ exists l, log (snd out) = (log w1 ++ l)%list /\ commits l = 0%nat /\ (posts l <= 1)%nat.
Proof.
  intros Hwa w1 out. pose proof (inbound_text_through env wa body w Hwa) as H.
  cbv zeta in H. fold w1 in H.
  destruct (text_command_world wa (PyStr.lower (PyStr.strip body)) w1) as (l & Hw & Hc & Hp).
  destruct (text_command env wa (PyStr.lower (PyStr.strip body)) w1) as [r w2].
  cbn [snd] in Hw. subst out w2. rewrite H. cbn [snd store log]. eauto.
Qed.

(** X9. The [balance] command reports the sender's balance: the stored one for
    a known sender, the starting balance for a new one.  The lookup
    [db.get(User, wa_id)] of this branch never comes back empty, since the
    sender was created before the dispatch. *)
Theorem balance_command_reply wa body w :
  wa <> "" ->
  PyStr.lower (PyStr.strip body) = "balance" ->
  let u := default (new_user wa) (users (store w) !! wa) in
  let w1 := snd (get_or_create_user wa (at_rest (store w) (log w))) in
  let reply := text_payload wa ("Your balance: " ++ fmt2 (balance u)) in
  let out := inbound env (Body (webhook_body (text_message wa body))) w in
  store (snd out) = store w1
  /\ log (snd out) = (log w1 ++ attempts env reply)%list
  /\ (accepted env reply -> fst out = Ok AckOk).
Proof.
  intros Hwa Ht u w1 reply out. pose proof (inbound_text_through env wa body w Hwa) as H.
  cbv zeta in H. fold w1 in H. rewrite Ht in H.
  assert (Hu : users (session w1) !! wa = Some u).
  { subst w1 u. destruct (users (store w) !! wa) as [u0|] eqn:Hl.
    - by rewrite (get_or_create_user_existing wa (at_rest (store w) (log w)) u0 Hl).
    - rewrite (get_or_create_user_new wa (at_rest (store w) (log w)) Hl).
      cbn. apply lookup_insert_eq. }
  assert (Hc : text_command env wa "balance" w1 = (send_whatsapp env reply;; mret tt) w1).
  { unfold text_command. cbn [String.eqb Ascii.eqb Bool.eqb orb]. mstep. by rewrite Hu. }
  rewrite Hc in H.
  pose proof (send_then_return env reply w1) as Hw.
  pose proof (send_then_return_accepted env reply w1) as Ha.
  destruct ((send_whatsapp env reply;; mret tt) w1) as [[[]|e] w2];
    cbn [fst snd] in *; subst out w2; rewrite H; cbn [fst snd store log];
    (split; [done|]); (split; [done|]); intros Hacc; by specialize (Ha Hacc).
Qed.


(** *** Senders *)

Lemma ledger_step_keeps_users n db db' wa :
  ledger_step env n db db' -> is_Some (users db !! wa) -> is_Some (users db' !! wa).
Proof.
  intros [wa' Hn -> | wa' u mid m m' sd q Hu Hm Ho Hsd Hq Hb Hm' ->] Hs;
    cbn [users with_new_user filled];
    (destruct (decide (wa' = wa)) as [-> | Hne];
     [rewrite lookup_insert_eq; eauto | by rewrite lookup_insert_ne]).
Qed.

Lemma rtc_keeps_users n db db' wa :
  rtc (ledger_step env n) db db' -> is_Some (users db !! wa) -> is_Some (users db' !! wa).
Proof.
  induction 1 as [|db1 db2 db3 H12 _ IH]; [done|].
  intros Hs. apply IH. by eapply ledger_step_keeps_users.
Qed.

(** X6. Every message with a sender id registers the sender: after the request
    the user row is durable, whether or not the rest of the handling
    succeeds (unknown command, failed post, rejected bet). *)
Theorem sender_is_registered md wa w :
  assoc "from" md = Some (JStr wa) -> wa <> "" ->
  is_Some (users (store (snd (inbound env (Body (webhook_body (JDict md))) w))) !! wa).
Proof.
  intros Hf Hwa. rewrite (inbound_message env md wa w Hf Hwa).
  unfold try_except, with_session.
  set (w0 := {| store := store w; session := store w; log := log w |}).
  destruct (get_or_create_user_total wa w0) as (u & w1 & Hu).
  destruct (get_or_create_user_world wa w0 u w1 Hu) as [Hu1 Hw1].
  assert (Hs1 : synced w1).
  { destruct Hw1 as [-> | (_ & _ & Hse & _)]; [reflexivity | exact Hse]. }
  assert (Ht : tame env (tapped ← button_tap env wa (JDict md);
                         if (tapped : bool) then mret AckOk
                         else text ← message_text (JDict md);
                              text_command env wa text;;
                              mret AckOk)).
  { apply tame_bind; [apply tame_button_tap|]. intros [].
    - apply tame_ret.
    - apply tame_bind; [apply tame_message_text|]. intros t.
      apply tame_bind; [apply tame_text_command|]. intros _. apply tame_ret. }
  destruct (Ht w1 Hs1) as [_ Hr].
  unfold mbind at 1, M_bind at 1. rewrite Hu.
  match goal with
  | Hr : rtc _ _ (store (snd (?rest w1))) |- _ =>
      assert (Hfin : is_Some (users (store (snd (rest w1))) !! wa))
  end.
  { eapply rtc_keeps_users; [exact Hr|]. rewrite <- Hs1. eauto. }
  match goal with
  | |- context [match ?rest w1 with _ => _ end] => destruct (rest w1) as [[r|e] w2]
  end; exact Hfin.
Qed.


(** *** Sending *)

(** X1. What [send_whatsapp] does.  Without a token or a phone number id it
    raises before any request is made.  Otherwise it makes exactly one post
    with the payload, and returns the JSON of a response below 300; a
    response from 300 on raises [RuntimeError] with the status and the text,
    a failed request or a body that is not JSON raises as well.  It never
    touches the database. *)
Theorem send_whatsapp_outcome payload w :
  store (snd (send_whatsapp env payload w)) = store w
  /\ session (snd (send_whatsapp env payload w)) = session w
  /\ (configured env = false ->
      send_whatsapp env payload w
      = (Raise (RuntimeError "Missing WHATSAPP_TOKEN or PHONE_NUMBER_ID env vars"), w))
  /\ (configured env = true ->
      log (snd (send_whatsapp env payload w)) = (log w ++ [Posted payload])%list
      /\ fst (send_whatsapp env payload w)
         = match http_post env payload with
           | None => Raise RequestException
           | Some r =>
               if 300 <=? status_code r
               then Raise (RuntimeError ("WhatsApp send failed "
                                           ++ PyStr.of_int (status_code r) ++ ": " ++ text r))
               else match body_json r with
                    | Some j => Ok j
                    | None => Raise JSONDecodeError
                    end
           end).
Proof.
  rewrite send_whatsapp_world. cbn [store session log].
  split; [done|]. split; [done|]. unfold attempts, send_whatsapp, configured.
  destruct (String.eqb (WHATSAPP_TOKEN env) "" || String.eqb (PHONE_NUMBER_ID env) "");
    cbn [negb]; (split; [try done|]); try done.
  intros _. split; [done|]. mstep. cbn.
  destruct (http_post env payload) as [r|]; [|done].
  destruct (300 <=? status_code r); [done|]. by destruct (body_json r).
Qed.

(** X2. The confirmation comes after the commit, and its failure undoes
    nothing: when the post of the confirmation is not accepted, [place_bet]
    raises, and the debit, the bet and the new quotes are durable all the
    same. *)
Theorem fill_survives_failed_confirmation wa mid sd qty w u w1 m q m' :
  get_or_create_user wa w = (Ok u, w1) ->
  markets (session w1) !! mid = Some m ->
  is_open m = true ->
  PyStr.upper sd = "YES" \/ PyStr.upper sd = "NO" ->
  to_float qty = Ok q ->
  ltb (balance u) (mul q (quote m (PyStr.upper sd))) = false ->
  apply_price_impact m (PyStr.upper sd) qty = Ok m' ->
  let side := PyStr.upper sd in
  let cost := mul q (quote m side) in
  let db' := filled env (session w1) wa u mid m m' side qty cost in
  let note := text_payload wa (confirmation_text m' side (quote m side) qty
                                 (sub (balance u) cost)) in
  ~ accepted env note ->
  (exists e, fst (place_bet env wa mid sd qty w) = Raise e)
  /\ store (snd (place_bet env wa mid sd qty w)) = db'
  /\ In (Committed db') (log (snd (place_bet env wa mid sd qty w))).
Proof.
  intros Hu Hm Ho Hs Hq Hb Hm' side cost db' note Hn.
  rewrite (place_bet_fill_eq env _ _ _ _ _ _ _ _ _ _ Hu Hm Ho Hs Hq Hb Hm').
  fold side cost db' note.
  set (w2 := {| store := db'; session := db'; log := (log w1 ++ [Committed db'])%list |}).
  destruct (send_whatsapp_refused env note w2 Hn) as [e He].
  pose proof (send_then_return env note w2) as Hw.
  unfold mbind, M_bind in *. destruct (send_whatsapp env note w2) as [[j|e'] w3];
    cbn [fst snd] in *; [done|]. subst w3. cbn [store log].
  split; [eauto|]. split; [done|].
  apply in_or_app. left. apply in_or_app. right. by left.
Qed.


(** *** Messages the handler cannot read *)




(** X12. A bet button whose market part is not an integer places no bet: the
    conversion raises [ValueError], which the handler answers with
    [{"ok": False, ...}]; nothing is sent, and nothing is written beyond the
    lazy creation of the sender. *)
Theorem bad_market_in_button sender id p1 p2 w :
  sender <> "" ->
  PyStr.split "|" id = ["BET"; p1; p2] ->
  PyStr.int p1 = None ->
  let w1 := snd (get_or_create_user sender (at_rest (store w) (log w))) in
  inbound env (Body (webhook_body (button_message sender id))) w
  = (Ok (AckFail ValueError), at_rest (store w1) (log w1)).
Proof.
  intros Hwa Hs Hi w1. unfold button_message.
  rewrite (inbound_message env
             [("from", JStr sender); ("type", JStr "interactive");
              ("interactive",
               JDict [("type", JStr "button_reply");
                      ("button_reply", JDict [("id", JStr id)])])]
             sender w eq_refl Hwa).
  unfold try_except, with_session. fold (at_rest (store w) (log w)).
  destruct (get_or_create_user_total sender (at_rest (store w) (log w))) as (u & w1' & Hu).
  assert (Hw1 : w1 = w1') by (subst w1; by rewrite Hu). clearbody w1. subst w1'.
  unfold mbind at 1, M_bind at 1. rewrite Hu.
  unfold mbind at 1, M_bind at 1.
  assert (Ht : button_tap env sender
                 (JDict [("from", JStr sender); ("type", JStr "interactive");
                         ("interactive",
                          JDict [("type", JStr "button_reply");
                                 ("button_reply", JDict [("id", JStr id)])])]) w1
               = (Raise ValueError, w1)).
  { unfold button_tap. mstep. cbn. rewrite Hs. cbn. unfold py_int. by rewrite Hi. }
  rewrite Ht. reflexivity.
Qed.

End MoreGeneric.

(** ** More invariants of the reachable worlds *)

Section MoreInvariants.

Context {num : Type} `{A : Arith num} `{Uni : PyStr.Unicode}.

(** *** Seeding *)

Lemma seeded_markets (db : DB) :
  markets db = ∅ -> markets (seeded db) = seeded_table.
Proof.
  intros He. unfold seeded. cbn [foldl seed_markets]. unfold add_market. cbn [markets].
  rewrite He, map_to_list_empty. cbn [fmap list_fmap next_id foldr].
  rewrite insert_empty, map_to_list_singleton. cbn [fmap list_fmap fst next_id foldr].
  change (1 + 0) with 1. change (1 + Z.max 1 0) with 2.
  rewrite <- insert_empty. reflexivity.
Qed.



(** *** The three tables agree *)

Lemma initial_keyed : keyed initial_store.
Proof.
  intros k m. unfold initial_store. rewrite (seeded_markets empty_db eq_refl).
  unfold seeded_table.
  destruct (decide (k = 2)) as [-> | H2]; [rewrite lookup_insert_eq; by intros [= <-]|].
  rewrite lookup_insert_ne by done.
  destruct (decide (k = 1)) as [-> | H1]; [rewrite lookup_insert_eq; by intros [= <-]|].
  by rewrite lookup_insert_ne, lookup_empty.
Qed.

Lemma bets_of_app wa (l1 l2 : list (Bet (num := num))) :
  bets_of wa (l1 ++ l2) = (bets_of wa l1 ++ bets_of wa l2)%list.
Proof. unfold bets_of. apply List.filter_app. Qed.

(** A sender without a user row has no bets. *)
Lemma no_user_no_bets (db : DB (num := num)) wa :
  bets_refer db -> users db !! wa = None -> bets_of wa (bets db) = [].
Proof.
  unfold bets_refer, bets_of. intros Hr Hn. induction Hr as [|b l [Hu _] _ IH]; [done|].
  cbn [List.filter]. destruct (String.eqb_spec (b_wa_id b) wa) as [He | _]; [|exact IH].
  rewrite He, Hn in Hu. by destruct Hu.
Qed.

Lemma ledger_step_consistent env n db db' :
  ledger_step env n db db' -> ledger_consistent db -> ledger_consistent db'.
Proof.
  intros Hstep (Hl & Hr & Hb).
  destruct Hstep as [wa Hn -> | wa u mid m m' sd q Hu Hm Ho Hsd Hq Hbal Hm' ->];
    (split; [|split]).
  - exact Hl.
  - unfold bets_refer in *. cbn [bets users markets with_new_user].
    eapply Forall_impl; [exact Hr|]. intros b (H1 & H2 & H3). split; [|done].
    destruct (decide (wa = b_wa_id b)) as [-> | Hne];
      [rewrite lookup_insert_eq; eauto | by rewrite lookup_insert_ne].
  - intros wa' u'. cbn [users with_new_user]. unfold statement. cbn [bets with_new_user].
    destruct (decide (wa = wa')) as [<- | Hne].
    + rewrite lookup_insert_eq. intros [= <-]. split; [done|].
      by rewrite (no_user_no_bets db wa Hr Hn).
    + rewrite lookup_insert_ne by done. apply Hb.
  - intros k mk. cbn [markets filled].
    destruct (decide (mid = k)) as [<- | Hne]; [|rewrite lookup_insert_ne by done; apply Hl].
    rewrite lookup_insert_eq. intros [= <-].
    destruct (apply_price_impact_frame m sd n m' Hm') as (-> & _). by apply Hl.
  - unfold bets_refer in *. cbn [bets users markets filled].
    pose proof (Hl mid m Hm) as Hkey.
    apply Forall_app. split.
    + eapply Forall_impl; [exact Hr|]. intros b (H1 & H2 & H3). repeat split; [| |done].
      * destruct (decide (wa = b_wa_id b)) as [-> | Hne];
          [rewrite lookup_insert_eq; eauto | by rewrite lookup_insert_ne].
      * destruct (decide (mid = market_id b)) as [-> | Hne];
          [rewrite lookup_insert_eq; eauto | by rewrite lookup_insert_ne].
    + constructor; [|constructor]. cbn [b_wa_id market_id side].
      rewrite Hkey, !lookup_insert_eq. eauto.
  - intros wa' u'. cbn [users filled]. unfold statement. cbn [bets filled].
    rewrite bets_of_app. unfold bets_of at 2. cbn [List.filter b_wa_id].
    destruct (decide (wa = wa')) as [<- | Hne].
    + rewrite lookup_insert_eq, String.eqb_refl. intros [= <-].
      destruct (Hb wa u Hu) as [Hid Hst]. split; [exact Hid|].
      rewrite foldl_app. cbn [foldl with_balance balance]. unfold debit. cbn [qty price].
      unfold to_float in Hq. destruct (of_int n) as [q'|]; [|done].
      injection Hq as ->. f_equal. exact Hst.
    + rewrite lookup_insert_ne by done.
      replace (String.eqb wa wa') with false by (symmetry; by apply String.eqb_neq).
      rewrite app_nil_r. apply Hb.
Qed.

Lemma empty_consistent : ledger_consistent empty_db.
Proof.
  split; [|split].
  - intros k m. cbn [markets empty_db]. by rewrite lookup_empty.
  - constructor.
  - intros wa u. cbn [users empty_db]. by rewrite lookup_empty.
Qed.

Lemma initial_consistent : ledger_consistent initial_store.
Proof.
  split; [apply initial_keyed|]. split.
  - unfold bets_refer, initial_store. rewrite seed_keeps_bets. constructor.
  - intros wa u. unfold initial_store. rewrite seed_keeps_users. cbn [users empty_db].
    by rewrite lookup_empty.
Qed.

Lemma reachable_consistent w : reachable w -> ledger_consistent (store w).
Proof.
  apply (reachable_ind_ledger ledger_consistent);
    [apply empty_consistent | apply initial_consistent |].
  intros env db db'. apply ledger_step_consistent.
Qed.

(** *** The markets *)

Lemma only_quotes_differ_refl (db : DB (num := num)) : only_quotes_differ db db.
Proof. intros k. by destruct (markets db !! k). Qed.

Lemma only_quotes_differ_trans (db1 db2 db3 : DB (num := num)) :
  only_quotes_differ db1 db2 -> only_quotes_differ db2 db3 -> only_quotes_differ db1 db3.
Proof.
  intros H12 H23 k. specialize (H12 k). specialize (H23 k).
  destruct (markets db1 !! k), (markets db2 !! k), (markets db3 !! k); try done.
  destruct H12 as (? & ? & ?), H23 as (? & ? & ?). repeat split; congruence.
Qed.

Lemma ledger_step_listing env n db db' :
  ledger_step env n db db' -> only_quotes_differ db db'.
Proof.
  intros [wa Hn -> | wa u mid m m' sd q Hu Hm Ho Hsd Hq Hbal Hm' ->].
  - intros k. cbn [markets with_new_user]. by destruct (markets db !! k).
  - intros k. cbn [markets filled].
    destruct (decide (mid = k)) as [<- | Hne].
    + rewrite lookup_insert_eq, Hm. by apply apply_price_impact_frame in Hm'.
    + rewrite lookup_insert_ne by done. by destruct (markets db !! k).
Qed.

Lemma rtc_listing env n db db' :
  rtc (ledger_step env n) db db' -> only_quotes_differ db db'.
Proof.
  induction 1 as [db | db1 db2 db3 H12 _ IH]; [apply only_quotes_differ_refl|].
  eapply only_quotes_differ_trans; [by eapply ledger_step_listing | exact IH].
Qed.

(** X15. No request adds, removes, renames, closes or re-opens a market:
    whatever world a sequence of webhook requests starts from, the world it
    leads to has the same markets, under the same keys and with the same
    ids, questions and states; only the quotes move. *)
Theorem requests_keep_the_listing w w' :
  rtc request_step w w' -> only_quotes_differ (store w) (store w').
Proof.
  induction 1 as [w | w1 w2 w3 (env & req & ->) _ IH]; [apply only_quotes_differ_refl|].
  eapply only_quotes_differ_trans; [|exact IH].
  exact (rtc_listing env 10 _ _ (inbound_steps env req w1)).
Qed.

(** X16. Every bet names a user and a market that exist, and its side is stored
    as [YES] or [NO], in upper case whatever the case of the button id. *)
Theorem bets_refer_to_rows w : reachable w -> bets_refer (store w).
Proof. intros Hw. by destruct (reachable_consistent w Hw) as (_ & Hr & _). Qed.

(** X17. The books balance: in every reachable world a user's balance is the
    starting balance 1000.0 debited, in the order the bets were placed, by
    [qty * price] of each of the user's bets, computed as the program
    computes it.  Nothing else ever moves a balance. *)
Theorem balances_account_for_bets w : reachable w -> books_balance (store w).
Proof. intros Hw. by destruct (reachable_consistent w Hw) as (_ & _ & Hb). Qed.

End MoreInvariants.

(** ** More on rounding *)

Section MoreRounding.

(** The value of a product. *)
Lemma val_mul a ea b eb :
  -2200 <= ea -> -2200 <= eb -> -2200 <= ea + eb ->
  val (a * b) (ea + eb) * 2 ^ 2200 = val a ea * val b eb.
Proof.
  intros Ha Hb Hab. unfold val.
  replace (ea + eb + 2200) with ((ea + 2200) + (eb + 2200) - 2200) by lia.
  assert (H : 2 ^ (ea + 2200 + (eb + 2200) - 2200) * 2 ^ 2200
              = 2 ^ (ea + 2200) * 2 ^ (eb + 2200)).
  { rewrite <- !Z.pow_add_r by lia. f_equal. lia. }
  rewrite <- Z.mul_assoc, H. ring.
Qed.

(** Comparing the other way round gives the opposite answer. *)
Lemma SFcompare_antisym x y : SFcompare y x = option_map CompOpp (SFcompare x y).
Proof.
  destruct x as [sx|sx| |sx mx ex], y as [sy|sy| |sy my ey]; cbn [SFcompare option_map];
    try done; try (by destruct sx); try (by destruct sy); try (by destruct sx, sy).
  f_equal. rewrite (Z.compare_antisym ex ey), !Pos.compare_cont_spec.
  cbn [Pos.switch_Eq]. rewrite (Pos.compare_antisym mx my).
  destruct sx, sy; try done; destruct (ex ?= ey); cbn [CompOpp]; try done;
    by destruct (mx ?= my)%positive.
Qed.

Lemma SFleb_not_ltb x y : SFleb x y = true -> SFltb y x = false.
Proof.
  unfold SFleb, SFltb. rewrite (SFcompare_antisym x y).
  by destruct (SFcompare x y) as [[]|].
Qed.

End MoreRounding.

Section MoreDoubles.

Local Open Scope float_scope.

Lemma leb_not_ltb x y : (x <=? y) = true -> (y <? x) = false.
Proof. rewrite leb_spec, ltb_spec. apply SFleb_not_ltb. Qed.

(** Multiplication by a normal number is monotone. *)
Lemma mul_mono c x y :
  (exists mc ec, Prim2SF c = S754_finite false mc ec /\ (2 ^ 52 <= Zpos mc)%Z) ->
  posfin x -> posfin y -> (x <=? y) = true -> (c * x <=? c * y) = true.
Proof.
  intros (mc & ec & Hc & Hn) (mx & ex & Hx) (my & ey & Hy) Hxy.
  apply (leb_posfin_val _ _ _ _ _ _ Hx Hy) in Hxy.
  pose proof (valid_finite_ge _ _ _ (posfin_valid _ _ _ Hc)).
  pose proof (valid_finite_ge _ _ _ (posfin_valid _ _ _ Hx)).
  pose proof (valid_finite_ge _ _ _ (posfin_valid _ _ _ Hy)).
  rewrite leb_spec, (mul_normal c x _ _ _ _ Hc Hn Hx), (mul_normal c y _ _ _ _ Hc Hn Hy).
  apply pack_mono; try lia.
  pose proof (val_mul (Zpos mc) ec (Zpos mx) ex ltac:(lia) ltac:(lia) ltac:(lia)) as Hmx.
  pose proof (val_mul (Zpos mc) ec (Zpos my) ey ltac:(lia) ltac:(lia) ltac:(lia)) as Hmy.
  pose proof (val_pos (Zpos mc) ec ltac:(lia) ltac:(lia)) as Hcpos.
  assert (0 < 2 ^ 2200)%Z by (apply Z.pow_pos_nonneg; lia).
  assert (val (Zpos mc) ec * val (Zpos mx) ex <= val (Zpos mc) ec * val (Zpos my) ey)%Z
    by (apply Z.mul_le_mono_nonneg_l; lia).
  nia.
Qed.

(** Conversion of integers is monotone. *)
Lemma float_of_int_mono a b qa qb :
  (0 < a <= b)%Z ->
  Binary64.float_of_int a = Some qa -> Binary64.float_of_int b = Some qb ->
  (qa <=? qb) = true.
Proof.
  intros Hab Ha Hb.
  destruct (float_of_int_pos a qa ltac:(lia) Ha) as [_ Sa].
  destruct (float_of_int_pos b qb ltac:(lia) Hb) as [_ Sb].
  rewrite leb_spec, Sa, Sb. apply pack_mono; try lia. unfold val.
  apply Z.mul_le_mono_nonneg_r; [apply Z.pow_nonneg|]; lia.
Qed.

(** A debit that passed the balance check leaves the balance below every
    bound it was below. *)
Lemma sub_le_bound b c k :
  nnfin b -> Prim2SF c = S754_zero false \/ posfin c -> (b <? c) = false ->
  posfin k -> (b <=? k) = true -> (b - c <=? k) = true.
Proof.
  intros Hb Hc Hlt (mk & ek & Hk) Hbk.
  pose proof (posfin_valid _ _ _ Hk) as Vk.
  rewrite ltb_spec in Hlt. rewrite leb_spec, sub_spec. rewrite leb_spec in Hbk.
  destruct Hb as [[s Hb] | (mb & eb & Hb)], Hc as [Hc | (mc & ec & Hc)];
    rewrite Hb, Hc, ?Hk in *.
  - destruct s; reflexivity.
  - discriminate.
  - exact Hbk.
  - pose proof (posfin_valid _ _ _ Hb) as Vb. pose proof (posfin_valid _ _ _ Hc) as Vc.
    pose proof (valid_finite_ge _ _ _ Vb). pose proof (valid_finite_ge _ _ _ Vc).
    pose proof (valid_finite_ge _ _ _ Vk).
    assert (Hv : (val (Zpos mc) ec <= val (Zpos mb) eb)%Z).
    { destruct (Z.le_gt_cases (val (Zpos mc) ec) (val (Zpos mb) eb)) as [|Hgt]; [done|].
      apply (SFltb_val mb eb mc ec Vb Vc) in Hgt. congruence. }
    apply (SFleb_val _ _ _ _ Vb Vk) in Hbk.
    destruct (SFsub_finite mb eb mc ec) as (HvD & Hpos & Hzero).
    set (ez := Z.min eb ec) in *.
    set (D := (Zpos mb * 2 ^ (eb - ez) - Zpos mc * 2 ^ (ec - ez))%Z) in *.
    specialize (HvD ltac:(lia)).
    assert (HD : (0 <= D)%Z).
    { assert (0 <= val D ez)%Z by lia. unfold val in *.
      assert (0 < 2 ^ (ez + 2200))%Z by (apply Z.pow_pos_nonneg; lia). nia. }
    destruct (Z.eq_dec D 0%Z) as [HD0 | HDn].
    + rewrite (Hzero HD0). reflexivity.
    + rewrite (Hpos ltac:(lia)). rewrite <- (pack_valid false mk ek Vk).
      pose proof (val_pos (Zpos mc) ec ltac:(lia) ltac:(lia)).
      apply pack_mono; lia.
Qed.

End MoreDoubles.

(** ** More on binary64 *)

Section MoreBinary64.

#[local] Existing Instance Binary64.arith.

Context `{Uni : PyStr.Unicode}.

Local Open Scope float_scope.

Ltac const := vm_compute; first [reflexivity | by eauto | by do 2 eexists].

(** *** The cap of the impact *)

(** From 100 units on the impact is the cap 0.10. *)
Lemma impact_capped qty q :
  (100 <= qty)%Z -> Binary64.float_of_int qty = Some q ->
  py_min (lit 0.10) (mul (lit 0.001) q) = lit 0.10.
Proof.
  intros Hq Hf.
  assert (H100 : Binary64.float_of_int 100 = Some 100) by const.
  pose proof (float_of_int_mono 100 qty 100 q ltac:(lia) H100 Hf) as Hle.
  destruct (float_of_int_pos qty q ltac:(lia) Hf) as [Hqf _].
  assert (Hm : (lit 0.001 * 100 <=? lit 0.001 * q) = true).
  { apply mul_mono; [|const|done..]. do 2 eexists. split; [const|]. vm_compute. discriminate. }
  change (lit 0.001 * 100) with (lit 0.10) in Hm.
  unfold py_min. cbn [ltb mul lit Binary64.arith] in *.
  by rewrite (leb_not_ltb _ _ Hm).
Qed.

(** X21. The impact saturates: every quantity from 100 on moves the quotes
    exactly as 100 does. *)
Theorem impact_saturates (m : Market) side (qty : Z) :
  (100 <= qty <= max_int)%Z ->
  apply_price_impact m side qty = apply_price_impact m side 100.
Proof.
  intros Hq.
  destruct (float_of_int_total qty) as (q & Hf); [lia|].
  assert (H100 : Binary64.float_of_int 100 = Some 100) by const.
  unfold apply_price_impact, to_float. cbn [of_int Binary64.arith]. rewrite Hf, H100.
  cbv zeta. rewrite (impact_capped qty q ltac:(lia) Hf), (impact_capped 100 100 ltac:(lia) H100).
  reflexivity.
Qed.

(** X22. A quote at the cap stays there: once the chosen side stands at 0.99,
    a further fill of any quantity leaves it at 0.99 and the other side at
    [1.0 - 0.99]. *)
Theorem quote_at_cap_stays (m : Market) side (qty : Z) m' :
  quote m side = lit 0.99 -> (0 <= qty)%Z ->
  apply_price_impact m side qty = Ok m' ->
  quote m' side = lit 0.99 /\ opposite m' side = sub (lit 1.0) (lit 0.99).
Proof.
  intros Hcap Hq. unfold apply_price_impact, to_float, quote, opposite in *.
  cbn [of_int Binary64.arith].
  destruct (Binary64.float_of_int qty) as [q|] eqn:Hf; [|discriminate].
  pose proof (impact_shape q (float_of_int_nonneg qty q Hq Hf)) as Hi. cbv zeta in Hi.
  assert (Hstay : py_min (lit 0.99) (add (lit 0.99) (py_min (lit 0.10) (mul (lit 0.001) q)))
                  = lit 0.99).
  { pose proof (leb_not_ltb _ _ (add_ge_left _ _ posfin_lit_099 Hi)) as Hge.
    unfold py_min at 1. cbn [ltb add mul lit Binary64.arith] in *. by rewrite Hge. }
  assert (Hopp : py_max (lit 0.01) (sub (lit 1.0) (lit 0.99)) = sub (lit 1.0) (lit 0.99))
    by const.
  cbn [lit add sub mul Binary64.arith] in *.
  destruct (String.eqb side "YES"); intros [= <-]; cbn [yes_price no_price];
    rewrite Hcap, Hstay; by rewrite Hopp.
Qed.


(** *** The ledger on doubles *)

(** The cost of a fill that passed the balance check is zero or a positive
    finite number. *)
Lemma fill_cost_shape n q b p :
  (0 <= n)%Z -> Binary64.float_of_int n = Some q -> nnfin b -> posfin p ->
  (b <? q * p) = false ->
  Prim2SF (q * p) = S754_zero false \/ posfin (q * p).
Proof.
  intros Hn Hf Hb Hp Hlt.
  pose proof (mul_shape q p (float_of_int_nonneg n q Hn Hf) (or_intror Hp)) as Hsh.
  inversion Hsh as [E|mc ec E|E]; [by left | right; by exists mc, ec |].
  exfalso. rewrite ltb_spec, <- E in Hlt.
  destruct Hb as [[s Hz] | (mb & eb & Hz)]; rewrite Hz in Hlt; discriminate.
Qed.

Lemma ledger_step_in_order env n db db' :
  (0 <= n)%Z -> ledger_step env n db db' -> ledger_in_order db -> ledger_in_order db'.
Proof.
  intros Hn Hstep (Hsound & Hq & Hc & Hp).
  split; [by apply (ledger_step_sound env n db db')|].
  destruct Hsound as [Hus Hms].
  destruct Hstep as [wa Hnew -> | wa u mid m m' sd q Hu Hm Ho Hsd Hf Hb Hm' ->];
    (split; [|split]); cbn [users markets bets with_new_user filled]; try done.
  - apply map_Forall_insert_2; [|done]. const.
  - apply map_Forall_insert_2; [|done].
    specialize (Hms _ _ Hm). cbn beta in Hms. destruct Hms as [Hy Hno].
    destruct (price_impact_sound m sd n m' Hy Hno Hn Hm') as (? & ? & _ & ?). done.
  - apply map_Forall_insert_2; [|done]. cbn [balance with_balance].
    specialize (Hus _ _ Hu). specialize (Hms _ _ Hm). specialize (Hc _ _ Hu).
    cbn beta in Hus, Hms, Hc.
    assert (Hpf : posfin (quote m sd)).
    { unfold quote. destruct (String.eqb sd "YES"); apply in_range64_posfin; tauto. }
    unfold to_float in Hf. cbn [of_int Binary64.arith] in Hf.
    destruct (Binary64.float_of_int n) as [q'|] eqn:Hfi; [|discriminate].
    injection Hf as ->. cbn [sub mul ltb lit Binary64.arith] in *.
    apply sub_le_bound; try done.
    + by apply (fill_cost_shape n q (balance u)).
    + const.
  - apply Forall_app. split; [done|]. constructor; [|constructor]. cbn [price].
    specialize (Hms _ _ Hm). cbn beta in Hms.
    unfold quote. destruct (String.eqb sd "YES"); tauto.
Qed.

Lemma initial_in_order : ledger_in_order initial_store.
Proof.
  split; [apply initial_store_sound|]. split; [|split].
  - unfold quotes_in_order, initial_store. rewrite (seeded_markets empty_db eq_refl).
    unfold seeded_table.
    repeat (apply map_Forall_insert_2; [split; [split; const | split; [split; const | const]]|]).
    apply map_Forall_empty.
  - unfold balances_capped, initial_store. rewrite seed_keeps_users. apply map_Forall_empty.
  - unfold bet_prices_in_range, initial_store. rewrite seed_keeps_bets. constructor.
Qed.

Lemma empty_in_order : ledger_in_order empty_db.
Proof.
  split; [apply empty_store_sound|]. split; [|split].
  - apply map_Forall_empty.
  - apply map_Forall_empty.
  - constructor.
Qed.

Lemma reachable_in_order w : reachable w -> ledger_in_order (store w).
Proof.
  apply (reachable_ind_ledger ledger_in_order);
    [apply empty_in_order | apply initial_in_order |].
  intros env db db'. by apply ledger_step_in_order.
Qed.

(** X18. The quotes of every market stay in order: in every world reachable
    through webhook requests both quotes of every market lie in
    [[0.01, 0.99]] and [yes_price + no_price == 1.0]. *)
Theorem quotes_stay_in_order w : reachable w -> quotes_in_order (store w).
Proof. intros Hw. by destruct (reachable_in_order w Hw) as (_ & ? & _). Qed.

(** X19. No request credits a user: balances never exceed the starting balance
    1000.0. *)
Theorem balances_stay_capped w : reachable w -> balances_capped (store w).
Proof. intros Hw. by destruct (reachable_in_order w Hw) as (_ & _ & ? & _). Qed.

(** X20. Every bet on record was filled at a price within [[0.01, 0.99]]. *)
Theorem bet_prices_stay_in_range w : reachable w -> bet_prices_in_range (store w).
Proof. intros Hw. by destruct (reachable_in_order w Hw) as (_ & _ & _ & ?). Qed.

End MoreBinary64.

(** ** The other endpoints *)

Section Endpoints.

(** X23. Webhook verification echoes the challenge exactly when the mode is
    [subscribe], the token is the configured one and the challenge is not
    empty; every other request, a wrong or missing token included, gets
    403. *)
Theorem verify_webhook_echo token (qp : gmap string string) :
  (forall c, verify_webhook token qp = PlainText c
             <-> qp !! "hub.mode" = Some "subscribe"
                 /\ qp !! "hub.verify_token" = Some token
                 /\ qp !! "hub.challenge" = Some c /\ c <> "")
  /\ ((forall c, verify_webhook token qp <> PlainText c)
      -> verify_webhook token qp = HTTPException 403 "Webhook verification failed").
Proof.
  unfold verify_webhook, param_is. split.
  - intros c.
    destruct (qp !! "hub.challenge") as [c'|]; [|split; [done | by intros (_ & _ & ? & _)]].
    destruct (qp !! "hub.mode") as [md|]; cbn [andb];
      [|split; [done | by intros (? & _)]].
    destruct (String.eqb_spec md "subscribe") as [-> | Hm]; cbn [andb];
      [|split; [done | intros ([= ?] & _); done]].
    destruct (qp !! "hub.verify_token") as [tk|]; cbn [andb];
      [|split; [done | by intros (_ & ? & _)]].
    destruct (String.eqb_spec tk token) as [-> | Ht]; cbn [andb];
      [|split; [done | intros (_ & [= ?] & _); done]].
    destruct (String.eqb_spec c' "") as [-> | Hc]; cbn [negb].
    + split; [done | intros (_ & _ & [= <-] & ?); done].
    + split; [by intros [= <-] | by intros (_ & _ & [= <-] & _)].
  - intros Hno. destruct (qp !! "hub.challenge") as [c'|]; [|done].
    destruct (_ && _); [by destruct (Hno c') | done].
Qed.

End Endpoints.

(** ** The market list *)

Section MarketList.

Context {num : Type} `{A : Arith num} `{Uni : PyStr.Unicode}.

Lemma insert_by_id_perm (m : Market (num := num)) l : insert_by_id m l ≡ₚ m :: l.
Proof.
  induction l as [|x r IH]; [done|]. cbn [insert_by_id].
  destruct (m_id m <=? m_id x); [done|]. rewrite IH. apply Permutation_swap.
Qed.

Lemma insert_by_id_hd (m : Market (num := num)) l a :
  by_id a m -> HdRel by_id a l -> HdRel by_id a (insert_by_id m l).
Proof.
  intros Ham Hl. destruct l as [|x r]; cbn [insert_by_id]; [by constructor|].
  destruct (m_id m <=? m_id x); constructor; [done|]. by inversion Hl.
Qed.

Lemma insert_by_id_sorted (m : Market (num := num)) l :
  Sorted by_id l -> Sorted by_id (insert_by_id m l).
Proof.
  induction 1 as [|x r Hs IH Hh]; cbn [insert_by_id]; [by repeat constructor|].
  destruct (Z.leb_spec (m_id m) (m_id x)) as [Hle | Hgt].
  - constructor; [by constructor|]. by constructor.
  - constructor; [exact IH|]. apply insert_by_id_hd; [unfold by_id; lia | exact Hh].
Qed.

(** X24. The market list shows every market of the table exactly once, in
    ascending order of id, one line each, between the header and the line of
    commands. *)
Theorem markets_listed_in_order (db : DB (num := num)) :
  market_rows db ≡ₚ (snd <$> map_to_list (markets db))
  /\ Sorted by_id (market_rows db)
  /\ list_markets_text db
     = PyStr.join PyStr.nl
         ("Available markets (send the market number):"
            :: (market_line <$> market_rows db)
            ++ [String.append PyStr.nl "Commands: markets | balance | <market_id>"])%list.
Proof.
  split; [|split; [|reflexivity]]; unfold market_rows.
  - induction (snd <$> map_to_list (markets db)) as [|m l IH]; [done|].
    cbn [foldr]. by rewrite insert_by_id_perm, IH.
  - induction (snd <$> map_to_list (markets db)) as [|m l IH]; [constructor|].
    cbn [foldr]. by apply insert_by_id_sorted.
Qed.

End MarketList.

(** ** More concrete runs *)

Section MoreRuns.

#[local] Existing Instance Binary64.arith.

#[local] Existing Instance PyStr.latin1.

(** The world after the first bet of a new sender. *)
Lemma after_first_bet_reachable :
  reachable (snd (inbound demo_env
                    (Body (webhook_body (button_message "u1" "BET|1|YES"))) fresh)).
Proof. apply reach_request, reach_start. Qed.

(** Witness of X5. *)
Lemma message_without_sender_ignored_witness :
  let md := [("type", JStr "text"); ("text", JDict [("body", JStr "hi")])] in
  truthy (default JNull (assoc "from" md)) = false
  /\ inbound demo_env (Body (webhook_body (JDict md))) fresh = (Ok AckOk, fresh).
Proof.
  intros md. assert (H : truthy (default JNull (assoc "from" md)) = false) by reflexivity.
  split; [exact H | exact (message_without_sender_ignored demo_env md fresh H)].
Defined.

(** Witness of X8. *)
Lemma text_messages_only_read_witness :
  let w1 := snd (get_or_create_user "u1" (at_rest (store fresh) (log fresh))) in
  let out := inbound demo_env (Body (webhook_body (text_message "u1" "what?"))) fresh in
  "u1" <> ""
  /\ store (snd out) = store w1
  /\ exists l, log (snd out) = (log w1 ++ l)%list /\ commits l = 0%nat /\ (posts l <= 1)%nat.
Proof.
  intros w1 out. assert (H : "u1" <> "") by discriminate.
  split; [exact H | exact (text_messages_only_read demo_env "u1" "what?" fresh H)].
Defined.

(** Witness of X9. *)
Lemma balance_command_reply_witness :
  let u := default (new_user "u1") (users (store fresh) !! "u1") in
  let w1 := snd (get_or_create_user "u1" (at_rest (store fresh) (log fresh))) in
  let reply := text_payload "u1" ("Your balance: " ++ fmt2 (balance u)) in
  let out := inbound demo_env (Body (webhook_body (text_message "u1" " Balance "))) fresh in
  ("u1" <> "" /\ PyStr.lower (PyStr.strip " Balance ") = "balance")
  /\ reply = text_payload "u1" "Your balance: 1000.00"
  /\ store (snd out) = store w1
  /\ log (snd out) = (log w1 ++ attempts demo_env reply)%list
  /\ (accepted demo_env reply -> fst out = Ok AckOk).
Proof.
  intros u w1 reply out. assert (H1 : "u1" <> "") by discriminate.
  assert (H2 : PyStr.lower (PyStr.strip " Balance ") = "balance") by reflexivity.
  split; [by split|]. split; [vm_compute; reflexivity|].
  exact (balance_command_reply demo_env "u1" " Balance " fresh H1 H2).
Defined.

(** Witness of X6. *)
Lemma sender_is_registered_witness :
  let md := [("from", JStr "u1"); ("type", JStr "sticker")] in
  (assoc "from" md = Some (JStr "u1") /\ "u1" <> "")
  /\ is_Some (users (store (snd (inbound silent_env (Body (webhook_body (JDict md))) fresh)))
                !! "u1").
Proof.
  intros md. assert (H1 : assoc "from" md = Some (JStr "u1")) by reflexivity.
  assert (H2 : "u1" <> "") by discriminate.
  split; [by split | exact (sender_is_registered silent_env md "u1" fresh H1 H2)].
Defined.

(** Witness of X2. *)
Lemma fill_survives_failed_confirmation_witness :
  let u := new_user "u1" in
  let w1 := snd (get_or_create_user "u1" fresh) in
  let m := market_at true 0.50 0.50 in
  let out := place_bet silent_env "u1" 1 "yes" 10 fresh in
  (get_or_create_user "u1" fresh = (Ok u, w1)
   /\ markets (session w1) !! 1 = Some m
   /\ ltb (balance u) (mul 10%float (quote m (PyStr.upper "yes"))) = false)
  /\ (exists e, fst out = Raise e)
  /\ balance <$> users (store (snd out)) !! "u1" = Some 995%float
  /\ price <$> bets (store (snd out)) = [0.5%float].
Proof.
  intros u w1 m out.
  assert (H1 : get_or_create_user "u1" fresh = (Ok u, w1)) by (vm_compute; reflexivity).
  assert (H2 : markets (session w1) !! 1 = Some m) by (vm_compute; reflexivity).
  assert (H3 : is_open m = true) by reflexivity.
  assert (H4 : PyStr.upper "yes" = "YES" \/ PyStr.upper "yes" = "NO")
    by (left; vm_compute; reflexivity).
  assert (H5 : to_float 10 = Ok 10%float) by (vm_compute; reflexivity).
  assert (H6 : ltb (balance u) (mul 10%float (quote m (PyStr.upper "yes"))) = false)
    by (vm_compute; reflexivity).
  destruct (to_float_price_impact m (PyStr.upper "yes") 10 10%float H5) as [m' H7].
  assert (H8 : forall payload, ~ accepted (num := float) silent_env payload)
    by (intros payload [Hc _]; discriminate Hc).
  split; [by repeat split|].
  destruct (fill_survives_failed_confirmation silent_env "u1" 1 "yes" 10 fresh u w1 m
              10%float m' H1 H2 H3 H4 H5 H6 H7 (H8 _)) as (He & Hst & _).
  split; [exact He|]. subst out. rewrite Hst.
  vm_compute in H7. injection H7 as <-.
  split; vm_compute; reflexivity.
Defined.



(** Witness of X12. *)
Lemma bad_market_in_button_witness :
  let w1 := snd (get_or_create_user "u1" (at_rest (store fresh) (log fresh))) in
  ("u1" <> "" /\ PyStr.split "|" "BET|one|YES" = ["BET"; "one"; "YES"]
   /\ PyStr.int "one" = None)
  /\ inbound demo_env (Body (webhook_body (button_message "u1" "BET|one|YES"))) fresh
     = (Ok (AckFail ValueError), at_rest (store w1) (log w1)).
Proof.
  intros w1.
  assert (H1 : "u1" <> "") by discriminate.
  assert (H2 : PyStr.split "|" "BET|one|YES" = ["BET"; "one"; "YES"]) by reflexivity.
  assert (H3 : PyStr.int "one" = None) by reflexivity.
  split; [by repeat split|].
  exact (bad_market_in_button demo_env "u1" "BET|one|YES" "one" "YES" fresh H1 H2 H3).
Defined.

(** Witness of X13: the YES button of the seeded market 1. *)
Lemma prompt_buttons_round_trip_witness :
  let m := market_at true 0.50 0.50 in
  Z.abs (m_id m) < 10 ^ 4300
  /\ button_tap demo_env "u1" (button_message "u1" "BET|1|YES") fresh
     = (place_bet demo_env "u1" 1 "YES" 10;; mret true) fresh.
Proof.
  intros m. assert (H : Z.abs (m_id m) < 10 ^ 4300) by (vm_compute; reflexivity).
  split; [exact H|].
  destruct (prompt_buttons_round_trip demo_env "u1" m) as [_ Hr].
  exact (Hr H "u1" "YES" fresh (or_introl eq_refl)).
Defined.

(** Witness of X15. *)
Lemma requests_keep_the_listing_witness :
  let w := snd (inbound demo_env
                  (Body (webhook_body (button_message "u1" "BET|1|YES"))) fresh) in
  rtc request_step fresh w
  /\ only_quotes_differ (store fresh) (store w)
  /\ yes_price <$> markets (store w) !! 1 = Some 0.51%float.
Proof.
  intros w. assert (Hw : rtc request_step fresh w) by (apply rtc_once; by eexists _, _).
  split; [exact Hw|]. split; [exact (requests_keep_the_listing fresh w Hw)|].
  vm_compute. reflexivity.
Defined.

(** Witness of X16. *)
Lemma bets_refer_to_rows_witness :
  let w := snd (inbound demo_env
                  (Body (webhook_body (button_message "u1" "BET|1|yes"))) fresh) in
  reachable w /\ (side <$> bets (store w) = ["YES"]) /\ bets_refer (store w).
Proof.
  intros w. assert (Hw : reachable w) by (apply reach_request, reach_start).
  split; [exact Hw|]. split; [vm_compute; reflexivity | exact (bets_refer_to_rows w Hw)].
Defined.

(** Witness of X17. *)
Lemma balances_account_for_bets_witness :
  let w := snd (inbound demo_env
                  (Body (webhook_body (button_message "u1" "BET|1|YES"))) fresh) in
  reachable w /\ books_balance (store w).
Proof.
  intros w. pose proof after_first_bet_reachable as Hw.
  split; [exact Hw | exact (balances_account_for_bets w Hw)].
Defined.

(** Witness of X21. *)
Lemma impact_saturates_witness :
  let m := market_at true 0.50 0.50 in
  (100 <= 250 <= max_int)
  /\ apply_price_impact m "YES" 250 = apply_price_impact m "YES" 100.
Proof.
  intros m. assert (H : 100 <= 250 <= max_int) by (split; vm_compute; discriminate).
  split; [exact H | exact (impact_saturates m "YES" 250 H)].
Defined.

(** Witness of X22. *)
Lemma quote_at_cap_stays_witness :
  let m := market_at true 0.99 0.01 in
  exists m',
    (quote m "YES" = lit 0.99 /\ 0 <= 10 /\ apply_price_impact m "YES" 10 = Ok m')
    /\ quote m' "YES" = lit 0.99 /\ opposite m' "YES" = sub (lit 1.0) (lit 0.99).
Proof.
  intros m. eexists.
  assert (H1 : quote m "YES" = lit 0.99) by reflexivity.
  assert (H2 : 0 <= 10) by lia.
  assert (H3 : apply_price_impact m "YES" 10 = Ok _) by (vm_compute; reflexivity).
  split; [by repeat split | exact (quote_at_cap_stays m "YES" 10 _ H1 H2 H3)].
Defined.

(** Witness of X18. *)
Lemma quotes_stay_in_order_witness :
  let w := snd (inbound demo_env
                  (Body (webhook_body (button_message "u1" "BET|1|YES"))) fresh) in
  reachable w /\ quotes_in_order (store w).
Proof.
  intros w. pose proof after_first_bet_reachable as Hw.
  split; [exact Hw | exact (quotes_stay_in_order w Hw)].
Defined.

(** Witness of X19. *)
Lemma balances_stay_capped_witness :
  let w := snd (inbound demo_env
                  (Body (webhook_body (button_message "u1" "BET|1|YES"))) fresh) in
  reachable w /\ balances_capped (store w).
Proof.
  intros w. pose proof after_first_bet_reachable as Hw.
  split; [exact Hw | exact (balances_stay_capped w Hw)].
Defined.

(** Witness of X20. *)
Lemma bet_prices_stay_in_range_witness :
  let w := snd (inbound demo_env
                  (Body (webhook_body (button_message "u1" "BET|1|YES"))) fresh) in
  reachable w /\ bet_prices_in_range (store w).
Proof.
  intros w. pose proof after_first_bet_reachable as Hw.
  split; [exact Hw | exact (bet_prices_stay_in_range w Hw)].
Defined.

End MoreRuns.
